(** * Job tracker: the extraction pipeline and the fetch proxy

    A shallow embedding of [handleExtractDetails] (the browser side, the
    React component [App]) and of the [/proxy] route of the Express
    back end, together with the properties the specification states
    about them.

    Conventions of the embedding.
    - A JavaScript string is the list of its UTF-16 code units, so that
      [.length], [.substring] and the whitespace class [\s] mean what
      they mean in the engine.
    - The platform (network, DOM parser, selector matching, [JSON.parse],
      [encodeURIComponent], the clock) is a record of functions, [Env];
      the handler is a function of that record and of the React state.
    - Exceptions and the list of network requests issued are threaded
      through a small monad. *)

From Stdlib Require Import List ZArith NArith Bool Lia String Ascii.
Import ListNotations.

Set Implicit Arguments.
Set Warnings "-register-all".

(* ================================================================== *)
(** * JavaScript strings *)

Module JsString.

(** A UTF-16 code unit. *)
Definition unit16 := N.

Definition jsstring := list unit16.

(** A string literal of the source, all of whose characters are ASCII. *)
Definition js (s : string) : jsstring :=
  List.map N_of_ascii (list_ascii_of_string s).

(** The double quote, written by its code. *)
Definition dq : jsstring := [34%N].

Definition eqb (a b : jsstring) : bool :=
  if list_eq_dec N.eq_dec a b then true else false.

(** [s.length], as an integer. *)
Definition len (s : jsstring) : Z := Z.of_nat (List.length s).

(** [s.substring(0, n)] for a non-negative integer [n]. *)
Definition substring0 (n : Z) (s : jsstring) : jsstring :=
  firstn (Z.to_nat n) s.

(** The characters of the ECMAScript productions WhiteSpace and
    LineTerminator: what [String.prototype.trim] strips and what the
    class escape [\s] matches. *)
Definition is_ws (c : unit16) : bool :=
  ((9 <=? c) && (c <=? 13) || (c =? 32) || (c =? 160) || (c =? 5760)
   || (8192 <=? c) && (c <=? 8202) || (c =? 8232) || (c =? 8233)
   || (c =? 8239) || (c =? 8287) || (c =? 12288) || (c =? 65279))%N.

Fixpoint trimStart (s : jsstring) : jsstring :=
  match s with
  | [] => []
  | c :: r => if is_ws c then trimStart r else s
  end.

Definition trimEnd (s : jsstring) : jsstring := rev (trimStart (rev s)).

(** [s.trim()]. *)
Definition trim (s : jsstring) : jsstring := trimEnd (trimStart s).

(** [s.replace(/\s\s+/g, ' ')].  The matches are found from left to
    right and do not overlap; [\s+] is greedy, so a match that starts at
    a whitespace character followed by another one extends to the end of
    the run.  [in_run] says that the scan is inside a match, whose
    replacement (one space) has been emitted already. *)
Fixpoint replace_ws_runs (in_run : bool) (s : jsstring) : jsstring :=
  match s with
  | [] => []
  | c :: r =>
      if is_ws c then
        if in_run then replace_ws_runs true r
        else match r with
             | c' :: _ =>
                 if is_ws c' then 32%N :: replace_ws_runs true r
                 else c :: replace_ws_runs false r
             | [] => [c]
             end
      else c :: replace_ws_runs false r
  end.

Definition collapse (s : jsstring) : jsstring := replace_ws_runs false s.

(** Truthiness of a string: [!s] is [true] exactly on the empty string. *)
Definition nonempty (s : jsstring) : bool :=
  match s with [] => false | _ => true end.

(** Decimal digits of a non-negative integer, most significant first;
    [fuel] bounds the number of digits. *)
Fixpoint digits (fuel : nat) (n : N) (acc : jsstring) : jsstring :=
  match fuel with
  | O => acc
  | S f =>
      let acc' := (48 + n mod 10)%N :: acc in
      if (n <? 10)%N then acc' else digits f (n / 10)%N acc'
  end.

(** [String(n)] for an integer [n]. *)
Definition of_Z (n : Z) : jsstring :=
  let m := Z.to_N (Z.abs n) in
  let d := digits (S (N.to_nat (N.log2 m))) m [] in
  if (n <? 0)%Z then 45%N :: d else d.

(** [String(n).padStart(w, '0')] for a non-negative integer [n]. *)
Definition pad0 (w : nat) (n : Z) : jsstring :=
  let d := of_Z n in
  repeat 48%N (w - List.length d) ++ d.

End JsString.
Export JsString.

(* ================================================================== *)
(** * JavaScript values *)

Module JsValue.

(** A Number value: not-a-number, an infinity, or the finite value
    [(-1)^neg * m * 2^e]. *)
Inductive jsnum : Type :=
| NaN
| Infinity (neg : bool)
| Finite (neg : bool) (m : N) (e : Z).

(** The values [JSON.parse] and [Response.json] can deliver, and
    [undefined]; an object is the list of its own properties. *)
Inductive jsval : Type :=
| JUndefined
| JNull
| JBool (b : bool)
| JNum (x : jsnum)
| JStr (s : jsstring)
| JArr (items : list jsval)
| JObj (props : list (jsstring * jsval)).

(** ToBoolean. *)
Definition truthy (v : jsval) : bool :=
  match v with
  | JUndefined | JNull => false
  | JBool b => b
  | JNum NaN => false
  | JNum (Infinity _) => true
  | JNum (Finite _ m _) => negb (m =? 0)%N
  | JStr s => nonempty s
  | JArr _ | JObj _ => true
  end.

(** [a || b]. *)
Definition or_else (a b : jsval) : jsval := if truthy a then a else b.

(** [v || '']. *)
Definition or_empty (v : jsval) : jsval := or_else v (JStr []).

Definition is_string (v : jsval) : bool :=
  match v with JStr _ => true | _ => false end.

Definition is_nullish (v : jsval) : bool :=
  match v with JUndefined | JNull => true | _ => false end.

Fixpoint lookup (k : jsstring) (props : list (jsstring * jsval)) : jsval :=
  match props with
  | [] => JUndefined
  | (k', v) :: rest => if JsString.eqb k k' then v else lookup k rest
  end.

(** The array index a property key denotes: the canonical decimal
    numerals, ["0"], ["1"], ..., ["10"], ... *)
Definition array_index (k : jsstring) : option nat :=
  match k with
  | [] => None
  | c :: r =>
      if forallb (fun d => (48 <=? d) && (d <=? 57))%N k
         && ((negb (c =? 48)%N) || match r with [] => true | _ => false end)
      then Some (N.to_nat
                   (fold_left (fun acc d => acc * 10 + (d - 48))%N k 0%N))
      else None
  end.

Definition num_of_nat (n : nat) : jsval := JNum (Finite false (N.of_nat n) 0).

(** [v[k]] on a value that is neither [null] nor [undefined]: the own
    properties of the value.  (None of the keys the program reads,
    [candidates], [content], [parts], [text], [error], [details],
    [message], [companyName], [role], [location], [summary] and [0], is
    a property of a built-in prototype.) *)
Definition own_property (v : jsval) (k : jsstring) : jsval :=
  match v with
  | JObj props => lookup k props
  | JArr items =>
      match array_index k with
      | Some i => nth i items JUndefined
      | None =>
          if JsString.eqb k (js "length") then num_of_nat (List.length items)
          else JUndefined
      end
  | JStr s =>
      match array_index k with
      | Some i => match nth_error s i with
                  | Some c => JStr [c]
                  | None => JUndefined
                  end
      | None =>
          if JsString.eqb k (js "length") then num_of_nat (List.length s)
          else JUndefined
      end
  | _ => JUndefined
  end.

(** [v.k]: a TypeError ([None]) on [null] and [undefined]. *)
Definition get (v : jsval) (k : jsstring) : option jsval :=
  if is_nullish v then None else Some (own_property v k).

(** [v?.k]. *)
Definition get_opt (v : jsval) (k : jsstring) : jsval :=
  if is_nullish v then JUndefined else own_property v k.

End JsValue.
Export JsValue.

(* ================================================================== *)
(** * The platform: documents, HTTP, the clock *)

Module Dom.

Record element : Type := {
  html_namespace : bool;
  localName : jsstring;
  attributes : list (jsstring * jsstring)
}.

Inductive node : Type :=
| Text (data : jsstring)
| Element (e : element) (children : list node).

(** A document is the list of its children; comments and the doctype
    play no part and are left out. *)
Definition document := list node.

Section Selectors.
(** [matches e sel] is [e.matches(sel)] for a selector list [sel] made
    of compound selectors only, as the two selector lists of the
    program are. *)
Variable matches : element -> jsstring -> bool.
Variable sel : jsstring.

(** What is left of a subtree once every element matching [sel] has
    been taken out of its parent. *)
Fixpoint remove_in (n : node) : list node :=
  match n with
  | Text _ => [n]
  | Element e kids =>
      if matches e sel then []
      else [Element e (flat_map remove_in kids)]
  end.

(** [d.querySelectorAll(sel).forEach(el => el.remove())]. *)
Definition remove_all (d : document) : document := flat_map remove_in d.

(** The first element of a subtree, in tree order, that matches. *)
Fixpoint first_in (n : node) : option node :=
  match n with
  | Text _ => None
  | Element e kids =>
      if matches e sel then Some n
      else (fix among (l : list node) : option node :=
              match l with
              | [] => None
              | k :: r => match first_in k with
                          | Some x => Some x
                          | None => among r
                          end
              end) kids
  end.

(** [d.querySelector(sel)]. *)
Fixpoint querySelector (d : document) : option node :=
  match d with
  | [] => None
  | n :: r => match first_in n with
              | Some x => Some x
              | None => querySelector r
              end
  end.

(** An element that matches [sel]. *)
Definition hit (n : node) : bool :=
  match n with Element e _ => matches e sel | Text _ => false end.
End Selectors.

Definition is_element (n : node) : bool :=
  match n with Element _ _ => true | Text _ => false end.

Definition named (names : list jsstring) (n : node) : bool :=
  match n with
  | Element e _ =>
      html_namespace e && existsb (JsString.eqb (localName e)) names
  | Text _ => false
  end.

(** [d.body]: the first [body] or [frameset] child of the [html]
    document element, [null] when there is none. *)
Definition body (d : document) : option node :=
  match find is_element d with
  | Some (Element e kids as root) =>
      if named [js "html"] root
      then find (named [js "body"; js "frameset"]) kids
      else None
  | _ => None
  end.

(** The elements of a subtree, and of a document, in tree order. *)
Fixpoint elements_in (n : node) : list node :=
  match n with
  | Text _ => []
  | Element e kids => n :: flat_map elements_in kids
  end.

Definition elements (d : document) : list node := flat_map elements_in d.

(** ** Selector lists, as CSS reads them

    The selector lists of the program are lists of compound selectors
    made of type, class, id and attribute selectors.  The names in them
    are in lower case, so a type selector matches an element by its
    local name whatever the namespace of the element. *)
Inductive simple : Type :=
| TypeSel (name : jsstring)            (* main *)
| ClassSel (name : jsstring)           (* .main-content *)
| IdSel (name : jsstring)              (* #main *)
| AttrSel (name value : jsstring).     (* [role="main"] *)

Definition compound : Type := list simple.

Definition simple_text (s : simple) : jsstring :=
  match s with
  | TypeSel name => name
  | ClassSel name => js "." ++ name
  | IdSel name => js "#" ++ name
  | AttrSel name value =>
      js "[" ++ name ++ js "=" ++ dq ++ value ++ dq ++ js "]"
  end.

Definition compound_text (c : compound) : jsstring :=
  flat_map simple_text c.

(** The text of a selector list: its compound selectors separated by a
    comma and a space. *)
Fixpoint selector_text (l : list compound) : jsstring :=
  match l with
  | [] => []
  | c :: rest =>
      match rest with
      | [] => compound_text c
      | _ :: _ => compound_text c ++ js ", " ++ selector_text rest
      end
  end.

(** [e.getAttribute(name)]. *)
Definition attribute (e : element) (name : jsstring) : option jsstring :=
  option_map snd (find (fun p => JsString.eqb (fst p) name) (attributes e)).

(** ASCII whitespace separates the tokens of a [class] attribute. *)
Definition is_ascii_ws (c : unit16) : bool :=
  ((c =? 9) || (c =? 10) || (c =? 12) || (c =? 13) || (c =? 32))%N.

(** The tokens of [s]; [cur] is the token being read, backwards. *)
Fixpoint tokens_from (cur s : jsstring) : list jsstring :=
  match s with
  | [] => if nonempty cur then [rev cur] else []
  | c :: r =>
      if is_ascii_ws c
      then (if nonempty cur then [rev cur] else []) ++ tokens_from [] r
      else tokens_from (c :: cur) r
  end.

(** [e.classList]. *)
Definition classList (e : element) : list jsstring :=
  match attribute e (js "class") with
  | Some v => tokens_from [] v
  | None => []
  end.

Section Matching.
(** How class names and ids are compared: code unit by code unit in a
    document in no-quirks mode, without regard to ASCII case in a
    document in quirks mode. *)
Variable same : jsstring -> jsstring -> bool.

Definition has_type (name : jsstring) (e : element) : bool :=
  JsString.eqb (localName e) name.

Definition has_class (name : jsstring) (e : element) : bool :=
  existsb (same name) (classList e).

Definition has_id (name : jsstring) (e : element) : bool :=
  match attribute e (js "id") with
  | Some v => same name v
  | None => false
  end.

Definition has_attribute (name value : jsstring) (e : element) : bool :=
  match attribute e name with
  | Some v => JsString.eqb v value
  | None => false
  end.

Definition matches_simple (e : element) (s : simple) : bool :=
  match s with
  | TypeSel name => has_type name e
  | ClassSel name => has_class name e
  | IdSel name => has_id name e
  | AttrSel name value => has_attribute name value e
  end.

(** [e] matches one of the compound selectors of the list. *)
Definition selects (l : list compound) (e : element) : bool :=
  existsb (forallb (matches_simple e)) l.
End Matching.

End Dom.
Export Dom.

Module Http.

(** The body of the extraction request.  Only the prompt varies from
    one request to the next. *)
Record schema_property : Type := {
  prop_name : jsstring;
  prop_type : jsstring;
  prop_nullable : bool
}.

Record payload : Type := {
  contents_text : jsstring;
  responseMimeType : jsstring;
  responseSchema_properties : list schema_property;
  responseSchema_required : list jsstring
}.

Inductive request : Type :=
| GET (url : jsstring)
| POST (url : jsstring) (body : payload).

(** A [Response]: [text] and [json] are what the promises of
    [response.text()] and [response.json()] settle to, [None] when they
    reject. *)
Record response : Type := {
  status : Z;
  statusText : jsstring;
  text : option jsstring;
  json : option jsval
}.

(** [response.ok]. *)
Definition ok (r : response) : bool :=
  ((200 <=? status r) && (status r <=? 299))%Z.

(** What [await fetch(...)] does: it throws, or it yields a response. *)
Inductive fetched : Type :=
| Rejected (message : jsstring)
| Responded (r : response).

End Http.
Export Http.

Module Clock.

(** Year, month and day of the proleptic Gregorian calendar for a count
    of days since 1970-01-01. *)
Definition civil_from_days (days : Z) : Z * Z * Z :=
  let z := (days + 719468)%Z in
  let era := (z / 146097)%Z in
  let doe := (z - era * 146097)%Z in
  let yoe := ((doe - doe / 1460 + doe / 36524 - doe / 146096) / 365)%Z in
  let doy := (doe - (365 * yoe + yoe / 4 - yoe / 100))%Z in
  let mp := ((5 * doy + 2) / 153)%Z in
  let d := (doy - (153 * mp + 2) / 5 + 1)%Z in
  let m := (if mp <? 10 then mp + 3 else mp - 9)%Z in
  let y := (yoe + era * 400)%Z in
  ((if m <=? 2 then y + 1 else y)%Z, m, d).

Definition msPerDay : Z := 86400000.

(** The year of an ISO-8601 date as [toISOString] prints it: four
    digits from 0 to 9999, a sign and six digits otherwise. *)
Definition iso_year (y : Z) : jsstring :=
  if ((0 <=? y) && (y <=? 9999))%Z then pad0 4 y
  else (if (y <? 0)%Z then 45%N else 43%N) :: pad0 6 (Z.abs y).

(** [new Date(t).toISOString().split('T')[0]] for a time value [t] in
    milliseconds since the epoch: the calendar date of [t] in UTC. *)
Definition iso_date (t : Z) : jsstring :=
  let '(y, m, d) := civil_from_days (t / msPerDay) in
  iso_year y ++ js "-" ++ pad0 2 m ++ js "-" ++ pad0 2 d.

End Clock.
Export Clock.

(* ================================================================== *)
(** * The browser side: [handleExtractDetails] *)

Module App.

(** What the handler takes from its surroundings. *)
Record Env : Type := {
  (** [process.env.REACT_APP_BACKEND_URL], [None] when not set *)
  REACT_APP_BACKEND_URL : option jsstring;
  (** [None] stands for the URIError on a lone surrogate *)
  encodeURIComponent : jsstring -> option jsstring;
  fetch : request -> fetched;
  (** [new DOMParser().parseFromString(html, 'text/html')] *)
  parseFromString : jsstring -> document;
  matches : element -> jsstring -> bool;
  (** [el.innerText]; [None] is [undefined], on an element that is not
      an HTMLElement *)
  innerText : node -> option jsstring;
  (** [JSON.parse(v)]; [None] stands for the SyntaxError *)
  JSON_parse : jsval -> option jsval;
  (** the time value of [new Date()] *)
  now : Z
}.

(** ** Exceptions and messages *)

(** What can be thrown inside the two [try] blocks.  The constructors
    that carry data stand for the template literal of the [new Error]
    they model, with the interpolated values as arguments. *)
Inductive exn : Type :=
| ProxyFailed (errorDetails : jsval) (status : Z)
    (* `Failed to fetch URL via proxy: ${errorDetails} (Status: ${response.status})` *)
| NoMeaningfulText
    (* "Could not extract meaningful text content from the URL after parsing." *)
| AiRequestFailed (detail : jsval) (status : Z)
    (* `AI API request failed: ${...} (Status: ${aiResponse.status})` *)
| AiInvalidJson
    (* "AI returned invalid JSON. Please try again or ..." *)
| FetchRejected (message : jsstring)   (* thrown by [fetch] *)
| URIMalformed                         (* thrown by [encodeURIComponent] *)
| BodyUnreadable                       (* [response.text()] or [.json()] rejects *)
| NullDereference.                     (* TypeError: property of null or undefined *)

(** The values [setExtractionError] is called with. *)
Inductive message : Type :=
| NoMessage                     (* '' *)
| ProvideUrlOrText
    (* "Please provide a Job Posting URL or paste the Job Description text." *)
| ErrorProcessingUrl (e : exn)
    (* `Error processing URL: ${e.message}. Try pasting text or check the URL/proxy.` *)
| AiFormatUnexpected
    (* "Could not extract details: AI response format was unexpected." *)
| AiExtractionError (e : exn).
    (* `AI Extraction Error: ${e.message}.` *)

(** ** The monad of the handler: exceptions, and the requests issued *)

Definition M (A : Type) : Type := list request -> (A + exn) * list request.

Definition ret {A} (a : A) : M A := fun log => (inl a, log).

Definition throw {A} (e : exn) : M A := fun log => (inr e, log).

Definition bind {A B} (m : M A) (k : A -> M B) : M B :=
  fun log =>
    match m log with
    | (inl a, log') => k a log'
    | (inr e, log') => (inr e, log')
    end.

(** [try { m }]: the exception, if any, as a value. *)
Definition try {A} (m : M A) : M (A + exn) :=
  fun log => let (r, log') := m log in (inl r, log').

(** A platform call that either yields a value or throws [e]. *)
Definition orThrow {A} (o : option A) (e : exn) : M A :=
  match o with Some a => ret a | None => throw e end.

Declare Scope js_scope.
Delimit Scope js_scope with js.
Notation "x <- m ;; k" := (bind m (fun x => k))
  (at level 61, m at next level, right associativity) : js_scope.
Notation "'check' c 'orelse' e ;; k" := (if c then k else throw e)
  (at level 61, c at next level, e at next level, right associativity)
  : js_scope.
Open Scope js_scope.

Section Handler.
Variable env : Env.

(** [await fetch(req)]. *)
Definition await_fetch (req : request) : M response :=
  fun log =>
    match fetch env req with
    | Rejected msg => (inr (FetchRejected msg), log ++ [req])
    | Responded r => (inl r, log ++ [req])
    end.

Definition backendBaseUrl : jsstring :=
  match REACT_APP_BACKEND_URL env with
  | Some u => if nonempty u then u else js "http://localhost:3001"
  | None => js "http://localhost:3001"
  end.

Definition removed_selector : jsstring :=
  js "script, style, nav, footer, header, aside, .sidebar, #sidebar, link[rel="
  ++ dq ++ js "stylesheet" ++ dq ++ js "]".

Definition landmark_selector : jsstring :=
  js "main, article, .main-content, #main, [role=" ++ dq ++ js "main" ++ dq
  ++ js "], .job-description, #job-details".

(** [docHtml.body.innerText]. *)
Definition body_innerText (docHtml : document) : M (option jsstring) :=
  b <- orThrow (body docHtml) NullDereference ;;
  ret (innerText env b).

(** Lines 243 to 249: the text of the landmark, or of the body. *)
Definition select_text (docHtml : document) : M (option jsstring) :=
  let mainContentElement :=
    querySelector (matches env) landmark_selector docHtml in
  textToProcess <- match mainContentElement with
                   | Some el => ret (innerText env el)
                   | None => body_innerText docHtml
                   end ;;
  match textToProcess with
  | Some t =>
      if negb (nonempty t) || (len (trim t) <? 50)%Z
      then body_innerText docHtml
      else ret textToProcess
  | None => body_innerText docHtml
  end.

(** The error text of a response of the proxy that is not ok. *)
Definition proxy_errorDetails (r : response) : jsval :=
  match json r with
  | Some errorData =>
      match get errorData (js "details") with
      | Some details =>
          or_else details
            (or_else (own_property errorData (js "error"))
                     (JStr (statusText r)))
      | None => JStr (statusText r)
      end
  | None => JStr (statusText r)
  end.

(** The request of line 227. *)
Definition proxy_request (encoded : jsstring) : request :=
  GET (backendBaseUrl ++ js "/proxy?url=" ++ encoded).

(** The body of the first [try] block, lines 226 to 255. *)
Definition text_from_url (jobPostUrl : jsstring) : M jsstring :=
  encoded <- orThrow (encodeURIComponent env jobPostUrl) URIMalformed ;;
  r <- await_fetch (proxy_request encoded) ;;
  check (ok r) orelse (ProxyFailed (proxy_errorDetails r) (status r)) ;;
  htmlContent <- orThrow (text r) BodyUnreadable ;;
  let docHtml := parseFromString env htmlContent in
  let docHtml := remove_all (matches env) removed_selector docHtml in
  selected <- select_text docHtml ;;
  textToProcess <- orThrow selected NullDereference ;;
  let textToProcess := trim (collapse textToProcess) in
  check (nonempty (trim textToProcess)) orelse NoMeaningfulText ;;
  ret textToProcess.

(** Lines 224 to 268: where the text comes from.  An exception of
    the [try] block is caught and becomes the message shown. *)
Definition source_text (jobPostUrl jobDescriptionText : jsstring)
  : M (jsstring + message) :=
  if nonempty (trim jobPostUrl) then
    caught <- try (text_from_url jobPostUrl) ;;
    match caught with
    | inl textToProcess => ret (inl textToProcess)
    | inr e => ret (inr (ErrorProcessingUrl e))
    end
  else if nonempty (trim jobDescriptionText) then
    ret (inl (trim jobDescriptionText))
  else ret (inr ProvideUrlOrText).

(** Lines 270 to 273. *)
Definition truncate (textToProcess : jsstring) : jsstring :=
  if (len textToProcess >? 28000)%Z
  then substring0 28000 textToProcess
  else textToProcess.

(** Lines 275 to 278: the template literal of the prompt. *)
Definition prompt_head : jsstring :=
  js "From the following job posting content, extract these details: company name, job title/role, primary location (city, state if available, or "
  ++ dq ++ js "Remote" ++ dq
  ++ js "), and a concise 2-3 sentence summary of key responsibilities or technologies."
  ++ [10%N]
  ++ js "Provide the output as a valid JSON object with keys: "
  ++ dq ++ js "companyName" ++ dq ++ js ", "
  ++ dq ++ js "role" ++ dq ++ js ", "
  ++ dq ++ js "location" ++ dq ++ js ", and "
  ++ dq ++ js "summary" ++ dq ++ js "."
  ++ [10%N]
  ++ js "If a detail is not found, use an empty string "
  ++ dq ++ dq ++ js " or null for its value."
  ++ [10%N]
  ++ js "Job Posting Content: " ++ dq ++ dq ++ dq.

Definition prompt (textToProcess : jsstring) : jsstring :=
  prompt_head ++ textToProcess ++ dq ++ dq ++ dq.

(** Lines 280 to 296. *)
Definition extraction_payload (textToProcess : jsstring) : payload :=
  {| contents_text := prompt textToProcess;
     responseMimeType := js "application/json";
     responseSchema_properties :=
       [ {| prop_name := js "companyName"; prop_type := js "STRING";
            prop_nullable := false |};
         {| prop_name := js "role"; prop_type := js "STRING";
            prop_nullable := false |};
         {| prop_name := js "location"; prop_type := js "STRING";
            prop_nullable := true |};
         {| prop_name := js "summary"; prop_type := js "STRING";
            prop_nullable := false |} ];
     responseSchema_required := [js "companyName"; js "role"] |}.

(** [apiKey] is the empty string. *)
Definition apiUrl : jsstring :=
  js "https://generativelanguage.googleapis.com/v1beta/models/gemini-2.0-flash:generateContent?key=".

(** The request of lines 301 to 305. *)
Definition extraction_request (textToProcess : jsstring) : request :=
  POST apiUrl (extraction_payload textToProcess).

(** [result.candidates[0]?.content?.parts?.[0]?.text], for a
    [candidates] that is truthy. *)
Definition candidate_text (candidates : jsval) : jsval :=
  get_opt
    (get_opt
       (get_opt
          (get_opt (own_property candidates (js "0")) (js "content"))
          (js "parts"))
       (js "0"))
    (js "text").

Definition JobStatus_SAVED : jsstring := js "Saved (Not Applied)".

(** The object the form is opened with. *)
Record job : Type := {
  companyName : jsval;
  role : jsval;
  location : jsval;
  notes : jsval;
  dateApplied : jsstring;
  status_ : jsstring;
  link : jsstring;
  platformPosted : jsstring;
  referralOptions : jsstring;
  personPosted : jsstring
}.

(** Lines 323 to 334.  Reading a property of [extractedData] throws
    when [JSON.parse] gave [null]. *)
Definition newJobData (jobPostUrl : jsstring) (extractedData : jsval)
  : M job :=
  c <- orThrow (get extractedData (js "companyName")) NullDereference ;;
  r <- orThrow (get extractedData (js "role")) NullDereference ;;
  l <- orThrow (get extractedData (js "location")) NullDereference ;;
  s <- orThrow (get extractedData (js "summary")) NullDereference ;;
  ret {| companyName := or_empty c;
         role := or_empty r;
         location := or_empty l;
         notes := or_empty s;
         dateApplied := iso_date (now env);
         status_ := JobStatus_SAVED;
         link := trim jobPostUrl;
         platformPosted := [];
         referralOptions := [];
         personPosted := [] |}.

(** The body of the second [try] block, lines 301 to 344: the draft,
    or the message of the [else] branch. *)
Definition ai_extract (jobPostUrl textToProcess : jsstring)
  : M (job + message) :=
  aiResponse <- await_fetch (extraction_request textToProcess) ;;
  if negb (ok aiResponse) then
    errorData <- orThrow (json aiResponse) BodyUnreadable ;;
    throw (AiRequestFailed
             (or_else (get_opt (get_opt errorData (js "error")) (js "message"))
                      (JStr (statusText aiResponse)))
             (status aiResponse))
  else
    result <- orThrow (json aiResponse) BodyUnreadable ;;
    candidates <- orThrow (get result (js "candidates")) NullDereference ;;
    if truthy candidates && truthy (candidate_text candidates) then
      let extractedJsonString := candidate_text candidates in
      extractedData <- orThrow (JSON_parse env extractedJsonString)
                               AiInvalidJson ;;
      d <- newJobData jobPostUrl extractedData ;;
      ret (inl d)
    else ret (inr AiFormatUnexpected).

(** The pipeline as a whole: a draft or a message, and the requests
    issued on the way. *)
Definition extract (jobPostUrl jobDescriptionText : jsstring)
  : M (job + message) :=
  src <- source_text jobPostUrl jobDescriptionText ;;
  match src with
  | inr m => ret (inr m)
  | inl textToProcess =>
      caught <- try (ai_extract jobPostUrl (truncate textToProcess)) ;;
      match caught with
      | inl outcome => ret outcome
      | inr e => ret (inr (AiExtractionError e))
      end
  end.

(** ** The React state the handler reads and writes *)

Inductive current : Type :=
| NoJob
| Stored (id : jsstring)
| Draft (d : job).

Record state : Type := {
  currentJob : current;
  showForm : bool;
  showExtractionModal : bool;
  jobDescriptionText : jsstring;
  jobPostUrl : jsstring;
  isExtracting : bool;
  extractionError : message
}.

(** The state after a run that ends in [setExtractionError(m)]: the
    form, the draft and the two inputs are as they were. *)
Definition failed (st : state) (m : message) : state :=
  {| currentJob := currentJob st;
     showForm := showForm st;
     showExtractionModal := showExtractionModal st;
     jobDescriptionText := jobDescriptionText st;
     jobPostUrl := jobPostUrl st;
     isExtracting := false;
     extractionError := m |}.

(** The state after lines 335 to 339: the form opens on the draft. *)
Definition reviewing (d : job) : state :=
  {| currentJob := Draft d;
     showForm := true;
     showExtractionModal := false;
     jobDescriptionText := [];
     jobPostUrl := [];
     isExtracting := false;
     extractionError := NoMessage |}.

(** [handleExtractDetails]: the state once the handler has finished,
    and the requests it issued.  ([extract] catches what its two
    [try] blocks throw, so the last case does not arise; see
    [extract_never_throws].) *)
Definition handleExtractDetails (st : state) : state * list request :=
  match extract (jobPostUrl st) (jobDescriptionText st) [] with
  | (inl (inl d), log) => (reviewing d, log)
  | (inl (inr m), log) => (failed st m, log)
  | (inr e, log) => (st, log)
  end.
End Handler.

(** ** Reading the list of requests *)

Definition is_proxy_request (r : request) : bool :=
  match r with GET _ => true | POST _ _ => false end.

Definition is_extraction_request (r : request) : bool :=
  match r with POST _ _ => true | GET _ => false end.

End App.
Export App.

(* ================================================================== *)
(** * The back end: the [/proxy] route *)

Module Server.

(** A value of [req.query]: a string, an array or a nested object. *)
Inductive query_value : Type :=
| QString (s : jsstring)
| QArray (items : list query_value)
| QObject (props : list (jsstring * query_value)).

(** [!urlToFetch], for a query value or [undefined]. *)
Definition missing (urlToFetch : option query_value) : bool :=
  match urlToFetch with
  | None => true
  | Some (QString s) => negb (nonempty s)
  | Some _ => false
  end.

Record upstream_request : Type := {
  target : query_value;
  headers : list (jsstring * jsstring)
}.

(** The response of the upstream server; [upstream_text] is what
    [response.text()] settles to, the message of the error on the
    right when it rejects. *)
Record upstream_response : Type := {
  upstream_status : Z;
  upstream_statusText : jsstring;
  upstream_text : jsstring + jsstring
}.

Definition upstream_ok (r : upstream_response) : bool :=
  ((200 <=? upstream_status r) && (upstream_status r <=? 299))%Z.

Inductive upstream : Type :=
| Failed (message : jsstring)
| Answered (r : upstream_response).

(** What the route sends back. *)
Inductive reply_body : Type :=
| Sent (text : jsstring)      (* res.send(text) *)
| Json (value : jsval).       (* res.json(value) *)

Record reply : Type := {
  code : Z;
  content : reply_body
}.

Definition userAgent : jsstring :=
  js "Mozilla/5.0 (Windows NT 10.0; Win64; x64) AppleWebKit/537.36 (KHTML, like Gecko) Chrome/58.0.3029.110 Safari/537.36".

Definition url_required : jsstring :=
  js "A " ++ dq ++ js "url" ++ dq ++ js " query parameter is required.".

(** The message of the error thrown at line 38. *)
Definition failed_to_fetch (r : upstream_response) : jsstring :=
  js "Failed to fetch: " ++ of_Z (upstream_status r) ++ js " "
  ++ upstream_statusText r.

(** The [catch] block. *)
Definition on_error (message : jsstring) : reply :=
  {| code := 500;
     content := Json (JObj [ (js "error", JStr (js "Failed to fetch the provided URL."));
                             (js "details", JStr message) ]) |}.

Section Route.
(** [fetch] of node-fetch. *)
Variable fetch : upstream_request -> upstream.

(** [app.get('/proxy', ...)], applied to [req.query.url]: the reply,
    and the upstream requests made. *)
Definition proxy (urlToFetch : option query_value)
  : reply * list upstream_request :=
  match urlToFetch with
  | None =>
      ({| code := 400;
          content := Json (JObj [(js "error", JStr url_required)]) |}, [])
  | Some u =>
      if missing urlToFetch then
        ({| code := 400;
            content := Json (JObj [(js "error", JStr url_required)]) |}, [])
      else
        let req := {| target := u;
                      headers := [(js "User-Agent", userAgent)] |} in
        (match fetch req with
         | Failed message => on_error message
         | Answered response =>
             if negb (upstream_ok response)
             then on_error (failed_to_fetch response)
             else match upstream_text response with
                  | inl htmlContent =>
                      {| code := 200; content := Sent htmlContent |}
                  | inr message => on_error message
                  end
         end, [req])
  end.
End Route.

(** [s] occurs in [t]. *)
Definition occurs_in (s t : jsstring) : Prop :=
  exists before after, t = before ++ s ++ after.

End Server.

(* ================================================================== *)
(** * The vocabulary of the specification *)

Module Spec.

(** The specification's names for the messages of the handler. *)
Definition NoInputError : message := ProvideUrlOrText.
Definition TransportError (detail : jsstring) : exn := FetchRejected detail.
Definition HttpError (status : Z) (detail : jsval) : exn :=
  ProxyFailed detail status.
Definition SourceFetchFailed (e : exn) : message := ErrorProcessingUrl e.
Definition EmptyContentError : message := ErrorProcessingUrl NoMeaningfulText.
Definition MalformedResponseError : message := AiFormatUnexpected.
Definition InvalidJsonError : message := AiExtractionError AiInvalidJson.

Definition cap : Z := 28000.

(** No two whitespace characters in a row. *)
Fixpoint no_ws_run (s : jsstring) : bool :=
  match s with
  | [] => true
  | c :: r =>
      negb (is_ws c && match r with c' :: _ => is_ws c' | [] => false end)
      && no_ws_run r
  end.

(** Every whitespace character is a space. *)
Definition only_spaces (s : jsstring) : bool :=
  forallb (fun c => negb (is_ws c) || (c =? 32)%N) s.

Definition no_leading_ws (s : jsstring) : bool :=
  match s with c :: _ => negb (is_ws c) | [] => true end.

Definition no_trailing_ws (s : jsstring) : bool := no_leading_ws (rev s).

(** The invariant of NormalizedText as the specification words it:
    every sequence of whitespace is a single space, nothing to trim, at
    most [cap] characters. *)
Definition NormalizedText (s : jsstring) : bool :=
  no_ws_run s && only_spaces s && no_leading_ws s && no_trailing_ws s
  && (len s <=? cap)%Z.

(** The Result Mapper of the specification, [mapToDraft(fields,
    sourceLink)], with the date passed in. *)
Definition mapToDraft (fields : jsval) (sourceLink today : jsstring) : job :=
  {| companyName := or_empty (own_property fields (js "companyName"));
     role := or_empty (own_property fields (js "role"));
     location := or_empty (own_property fields (js "location"));
     notes := or_empty (own_property fields (js "summary"));
     dateApplied := today;
     status_ := js "Saved (Not Applied)";
     link := sourceLink;
     platformPosted := [];
     referralOptions := [];
     personPosted := [] |}.

(** Scenario A of the specification: the pasted text and the fields
    the extraction returns for it. *)
Definition scenarioA_text : jsstring :=
  js "Senior Engineer at Acme Corp, Remote. Build distributed systems.".

Definition scenarioA_fields : jsval :=
  JObj [ (js "companyName", JStr (js "Acme Corp"));
         (js "role", JStr (js "Senior Engineer"));
         (js "location", JStr (js "Remote"));
         (js "summary", JStr (js "Build distributed systems.")) ].

(** The four fields of a draft that are filled from the extraction,
    and the properties of the parsed extraction they are filled from. *)
Definition extracted_fields (d : job) : list jsval :=
  [companyName d; role d; location d; notes d].

Definition payload_fields (extractedData : jsval) : list jsval :=
  List.map (own_property extractedData)
           [js "companyName"; js "role"; js "location"; js "summary"].

(** The text the Content Selector settles on, or what it throws. *)
Definition selectPrimaryContent (env : Env) (docHtml : document)
  : option jsstring + exn :=
  fst (select_text env docHtml []).

(** The primary-content landmarks of the specification: the main
    content region, the article region, the element marked with the
    content role, and the usual names of a job-description container. *)
Definition landmarks : list compound :=
  [ [TypeSel (js "main")];
    [TypeSel (js "article")];
    [ClassSel (js "main-content")];
    [IdSel (js "main")];
    [AttrSel (js "role") (js "main")];
    [ClassSel (js "job-description")];
    [IdSel (js "job-details")] ].

Definition is_landmark (same : jsstring -> jsstring -> bool) (n : node)
  : bool :=
  match n with
  | Element e _ => selects same landmarks e
  | Text _ => false
  end.

(** [runs_replaced s t]: [t] is [s] with each run of two or more
    whitespace characters replaced by one space, and nothing else
    changed.  The text is read from the left, piece by piece: a
    character that is not whitespace is kept; a whitespace character
    standing alone is kept; a whitespace character followed by more,
    up to the next character that is not whitespace, becomes one
    space. *)
Inductive runs_replaced : jsstring -> jsstring -> Prop :=
| rr_end : runs_replaced [] []
| rr_char c s t :
    is_ws c = false -> runs_replaced s t -> runs_replaced (c :: s) (c :: t)
| rr_alone c s t :
    is_ws c = true -> no_leading_ws s = true -> runs_replaced s t ->
    runs_replaced (c :: s) (c :: t)
| rr_run c more s t :
    is_ws c = true -> more <> [] -> forallb is_ws more = true ->
    no_leading_ws s = true -> runs_replaced s t ->
    runs_replaced (c :: more ++ s) (32%N :: t).

(** [stopped st st' m]: [st'] is [st] with the spinner off and the
    message [m]; the job, the form, the dialog and the two inputs are
    those of [st]. *)
Definition stopped (st st' : state) (m : message) : Prop :=
  currentJob st' = currentJob st
  /\ showForm st' = showForm st
  /\ showExtractionModal st' = showExtractionModal st
  /\ jobDescriptionText st' = jobDescriptionText st
  /\ jobPostUrl st' = jobPostUrl st
  /\ isExtracting st' = false
  /\ extractionError st' = m.

(** Today's date where the user is: the calendar date of the local time
    value, [timezoneOffset] being what [getTimezoneOffset()] returns,
    the minutes from local time to UTC. *)
Definition local_today (timezoneOffset now : Z) : jsstring :=
  iso_date (now - timezoneOffset * 60000).

End Spec.
Export Spec.

(* ================================================================== *)
(** * A concrete platform, for running the handler on examples *)

Module Demo.

Definition quoted (s : string) : jsstring := dq ++ js s ++ dq.

Fixpoint textContent (n : node) : jsstring :=
  match n with
  | Text data => data
  | Element _ kids => flat_map textContent kids
  end.

Definition tag (name : string) (kids : list node) : node :=
  Element {| html_namespace := true; localName := js name; attributes := [] |}
          kids.

(** Type selectors only: enough for the pages below. *)
Definition matches (e : element) (sel : jsstring) : bool :=
  if JsString.eqb sel landmark_selector
  then existsb (JsString.eqb (localName e)) [js "main"; js "article"]
  else if JsString.eqb sel removed_selector
  then existsb (JsString.eqb (localName e))
         [js "script"; js "style"; js "nav"; js "footer"; js "header";
          js "aside"]
  else false.

Definition page (kids : list node) : document :=
  [tag "html" [tag "head" []; tag "body" kids]].

(** The extraction result of Scenario A, and a text that encodes it. *)
Definition acme : jsval := scenarioA_fields.

Definition acme_text : jsstring :=
  js "{" ++ quoted "companyName" ++ js ":" ++ quoted "Acme Corp" ++ js ","
  ++ quoted "role" ++ js ":" ++ quoted "Senior Engineer" ++ js ","
  ++ quoted "location" ++ js ":" ++ quoted "Remote" ++ js ","
  ++ quoted "summary" ++ js ":" ++ quoted "Build distributed systems."
  ++ js "}".

(** A payload that breaks the declared schema: a number where a string
    is expected. *)
Definition untyped : jsval :=
  JObj [ (js "companyName", JNum (Finite false 42 0));
         (js "role", JStr (js "Engineer")) ].

Definition untyped_text : jsstring :=
  js "{" ++ quoted "companyName" ++ js ":42,"
  ++ quoted "role" ++ js ":" ++ quoted "Engineer" ++ js "}".

(** A parser that knows the texts above. *)
Definition JSON_parse (v : jsval) : option jsval :=
  match v with
  | JStr s =>
      if JsString.eqb s acme_text then Some acme
      else if JsString.eqb s untyped_text then Some untyped
      else if JsString.eqb s (js "null") then Some JNull
      else None
  | _ => None
  end.

(** The response envelope around an extraction string. *)
Definition envelope (extraction : jsstring) : jsval :=
  JObj [ (js "candidates",
          JArr [ JObj [ (js "content",
                         JObj [ (js "parts",
                                 JArr [ JObj [(js "text", JStr extraction)] ]) ]) ] ]) ].

Definition answer (code : Z) (reason : string) (body : option jsstring)
           (parsed : option jsval) : fetched :=
  Responded {| status := code; statusText := js reason;
               text := body; json := parsed |}.

(** The network: [proxy] answers the GET, [model] the POST. *)
Definition network (proxy model : fetched) (req : request) : fetched :=
  match req with
  | GET _ => proxy
  | POST _ _ => model
  end.

(** 2026-11-02T02:00:00Z. *)
Definition instant : Z := 1793584800000.

Definition env (parse : jsstring -> document) (proxy model : fetched) : Env :=
  {| REACT_APP_BACKEND_URL := None;
     encodeURIComponent := fun s => Some s;
     fetch := network proxy model;
     parseFromString := parse;
     App.matches := matches;
     innerText := fun n => Some (textContent n);
     App.JSON_parse := JSON_parse;
     now := instant |}.

Definition offline : fetched := Rejected (js "Failed to fetch").

Definition extracted (extraction : jsstring) : fetched :=
  answer 200 "OK" None (Some (envelope extraction)).

(** The proxy is unreachable; the model answers with Scenario A. *)
Definition quiet : Env := env (fun _ => []) offline (extracted acme_text).

Definition posting_text : jsstring := scenarioA_text.

(** A page with a navigation bar, a landmark and a footer line. *)
Definition listing : document :=
  page [ tag "nav" [Text (js "Jobs  About")];
         tag "main" [Text (js "  Senior Engineer at Acme Corp, Remote.");
                     Text [10%N; 10%N; 32%N];
                     Text (js "Build distributed systems.  ")];
         Text (js "Contact us") ].

(** [listing] once the elements of [removed_selector] are taken out. *)
Definition listing_pruned : document :=
  remove_all matches removed_selector listing.

(** A page whose landmark holds a teaser only. *)
Definition teaser : document :=
  page [ tag "article" [Text (js " Apply now ")];
         tag "div" [Text (js "Senior Engineer at Acme Corp, Remote. ");
                    Text (js "Build distributed systems.")] ].

(** A page without a landmark. *)
Definition bare : document :=
  page [ tag "div" [Text (js "Senior Engineer at Acme Corp")] ].

(** A page whose body has no text but whitespace. *)
Definition blank_page : document :=
  page [ tag "script" [Text (js "render()")]; Text [10%N; 32%N; 32%N] ].

Definition served (body : string) : fetched :=
  answer 200 "OK" (Some (js body)) None.

(** The proxy serves [listing]; the model answers with Scenario A. *)
Definition online : Env :=
  env (fun _ => listing) (served "<html>") (extracted acme_text).

(** The proxy serves [blank_page]. *)
Definition hollow : Env :=
  env (fun _ => blank_page) (served "<html>") (extracted acme_text).

(** The proxy relays a 404 of the upstream server. *)
Definition not_found_body : jsval :=
  JObj [ (js "error", JStr (js "Failed to fetch the provided URL."));
         (js "details", JStr (js "Failed to fetch: 404 Not Found")) ].

Definition relayed_404 : Env :=
  env (fun _ => listing)
      (answer 500 "Internal Server Error" None (Some not_found_body))
      (extracted acme_text).

(** The proxy answers 404 itself, with a body that is not JSON. *)
Definition plain_404 : Env :=
  env (fun _ => listing) (answer 404 "Not Found" None None)
      (extracted acme_text).

(** The model answers with a text that is not JSON, with an empty
    envelope, with [null], and with a payload off the schema. *)
Definition garbled : Env :=
  env (fun _ => []) offline (extracted (js "{invalid json")).

Definition empty_envelope : Env :=
  env (fun _ => []) offline
      (answer 200 "OK" None (Some (JObj [(js "candidates", JArr [])]))).

Definition null_envelope : Env :=
  env (fun _ => []) offline (answer 200 "OK" None (Some JNull)).

Definition loose : Env := env (fun _ => []) offline (extracted untyped_text).

Definition job_url : jsstring := js "https://jobs.example/42".

(** New York in winter: five hours behind UTC. *)
Definition new_york : Z := 300.

(** A text of 40,000 characters. *)
Definition long_text : jsstring := repeat 97%N (Z.to_nat 40000).

(** Upstream servers for the back end. *)
Definition upstream_page : Server.upstream :=
  Server.Answered {| Server.upstream_status := 200;
                     Server.upstream_statusText := js "OK";
                     Server.upstream_text := inl (js "<html></html>") |}.

Definition upstream_404 : Server.upstream :=
  Server.Answered {| Server.upstream_status := 404;
                     Server.upstream_statusText := js "Not Found";
                     Server.upstream_text := inl (js "gone") |}.

Definition upstream_down : Server.upstream :=
  Server.Failed (js "getaddrinfo ENOTFOUND jobs.example").

Definition target_url : Server.query_value := Server.QString job_url.

(** A browser that reads the landmark selector as CSS does, in a
    document in no-quirks mode. *)
Definition css (e : element) (sel : jsstring) : bool :=
  if JsString.eqb sel landmark_selector
  then selects JsString.eqb landmarks e
  else matches e sel.

Definition styled (parse : jsstring -> document) : Env :=
  {| REACT_APP_BACKEND_URL := None;
     encodeURIComponent := fun s => Some s;
     fetch := network (served "<html>") (extracted acme_text);
     parseFromString := parse;
     App.matches := css;
     innerText := fun n => Some (textContent n);
     App.JSON_parse := JSON_parse;
     now := instant |}.

Definition tag_with (name : string) (attrs : list (string * string))
           (kids : list node) : node :=
  Element {| html_namespace := true; localName := js name;
             attributes := List.map (fun p => (js (fst p), js (snd p))) attrs |}
          kids.

(** A page whose posting is in a container of class job-description,
    after a division that is no landmark. *)
Definition described : document :=
  page [ tag "div" [Text (js "Jobs at Acme Corp")];
         tag_with "div" [("class"%string, "card job-description"%string)]
           [Text (js "Senior Engineer at Acme Corp, Remote. ");
            Text (js "Build distributed systems.")];
         tag "div" [Text (js "Contact us")] ].

(** The same page with the class name in another case. *)
Definition shouted : document :=
  page [ tag "div" [Text (js "Jobs at Acme Corp")];
         tag_with "div" [("class"%string, "card Job-Description"%string)]
           [Text (js "Senior Engineer at Acme Corp, Remote. ");
            Text (js "Build distributed systems.")];
         tag "div" [Text (js "Contact us")] ].

(** A page whose posting is in the element of role main, and has two
    lines. *)
Definition two_lines_text : jsstring :=
  js "Senior Engineer at Acme Corp, Remote." ++ [10%N]
  ++ js "Build distributed systems.".

Definition two_lines : document :=
  page [ tag_with "section" [("role"%string, "main"%string)]
           [Text (js "Senior Engineer at Acme Corp, Remote.");
            Text [10%N];
            Text (js "Build distributed systems.")] ].

Definition two_lined : Env := styled (fun _ => two_lines).

(** A pasted text whose 28,000th character is a space. *)
Definition cut_text : jsstring :=
  repeat 97%N (Z.to_nat 27999) ++ [32%N; 98%N].

(** The model answers 200 with a body that is not JSON. *)
Definition unparsable : Env :=
  env (fun _ => []) offline (answer 200 "OK" (Some (js "<html>")) None).

(** The model answers with a candidate text that is the JSON [null]. *)
Definition null_text : Env :=
  env (fun _ => []) offline (extracted (js "null")).

Definition idle : state :=
  {| currentJob := NoJob; showForm := false; showExtractionModal := true;
     jobDescriptionText := []; jobPostUrl := [];
     isExtracting := false; extractionError := NoMessage |}.

Definition typed (url pasted : jsstring) : state :=
  {| currentJob := NoJob; showForm := false; showExtractionModal := true;
     jobDescriptionText := pasted; jobPostUrl := url;
     isExtracting := false; extractionError := NoMessage |}.

End Demo.

(* ================================================================== *)
(** * The rest of the application *)

(** The characters of a string that are not whitespace. *)
Definition non_ws (s : jsstring) : jsstring :=
  filter (fun c => negb (is_ws c)) s.

(** ** The extraction dialog *)

Module Modal.

(** The [disabled] attribute of the Extract button of [ExtractionModal]. *)
Definition extractDisabled (st : state) : bool :=
  isExtracting st
  || (negb (nonempty (trim (jobPostUrl st)))
      && negb (nonempty (trim (jobDescriptionText st)))).

End Modal.

(** ** The table of jobs: sorting and searching *)

Module Listing.

Inductive Direction : Type := ascending | descending.

Record SortConfig : Type := {
  key : jsstring;
  direction : Direction
}.

(** The initial value of [sortConfig]. *)
Definition initialSortConfig : SortConfig :=
  {| key := js "dateApplied"; direction := descending |}.

Definition is_ascending (d : Direction) : bool :=
  match d with ascending => true | descending => false end.

(** [requestSort(key)]: the configuration [setSortConfig] is called
    with. *)
Definition requestSort (sortConfig : SortConfig) (k : jsstring) : SortConfig :=
  if JsString.eqb (key sortConfig) k && is_ascending (direction sortConfig)
  then {| key := k; direction := descending |}
  else if JsString.eqb (key sortConfig) k
          && negb (is_ascending (direction sortConfig))
  then {| key := js "dateApplied"; direction := descending |}
  else {| key := k; direction := ascending |}.

(** [getSortIndicator(key)]: an up or a down triangle, or nothing. *)
Definition getSortIndicator (sortConfig : SortConfig) (k : jsstring) : jsstring :=
  if JsString.eqb (key sortConfig) k
  then if is_ascending (direction sortConfig) then [9650%N] else [9660%N]
  else [].

(** The [keyMap] of the header cells. *)
Definition keyMap (header : jsstring) : option jsstring :=
  if JsString.eqb header (js "Company") then Some (js "companyName")
  else if JsString.eqb header (js "Role") then Some (js "role")
  else if JsString.eqb header (js "Date Applied") then Some (js "dateApplied")
  else if JsString.eqb header (js "Status") then Some (js "status")
  else if JsString.eqb header (js "Platform") then Some (js "platformPosted")
  else None.

(** The [onClick] of a header cell. *)
Definition clickHeader (sortConfig : SortConfig) (header : jsstring)
  : SortConfig :=
  match keyMap header with
  | Some k => requestSort sortConfig k
  | None => sortConfig
  end.

(** A value of a job in the list: a Firestore [Timestamp], with the
    number its [toMillis()] returns, or any other value. *)
Inductive cell : Type :=
| Stamp (millis : jsnum)
| Js (v : jsval).

(** A job of the list, as the list of its properties. *)
Definition row : Type := list (jsstring * cell).

(** [job[k]]. *)
Fixpoint at_key (k : jsstring) (job : row) : cell :=
  match job with
  | [] => Js JUndefined
  | (k', v) :: rest => if JsString.eqb k k' then v else at_key k rest
  end.

(** [v == null]. *)
Definition nullish (c : cell) : bool :=
  match c with Js v => is_nullish v | Stamp _ => false end.

(** The integer [m * 2^e] scaled down by [2^e0], for [e0 <= e]. *)
Definition scaled (neg : bool) (m : N) (e e0 : Z) : Z :=
  ((if neg then - Z.of_N m else Z.of_N m) * 2 ^ (e - e0))%Z.

(** [a < b] on Numbers. *)
Definition num_lt (a b : jsnum) : bool :=
  match a, b with
  | NaN, _ | _, NaN => false
  | Infinity na, Infinity nb => na && negb nb
  | Infinity na, Finite _ _ _ => na
  | Finite _ _ _, Infinity nb => negb nb
  | Finite na ma ea, Finite nb mb eb =>
      let e0 := Z.min ea eb in
      (scaled na ma ea e0 <? scaled nb mb eb e0)%Z
  end.

(** [a < b] on strings: the order of the code units, a proper prefix
    coming first. *)
Fixpoint str_lt (a b : jsstring) : bool :=
  match a, b with
  | _, [] => false
  | [], _ :: _ => true
  | x :: a', y :: b' =>
      if (x <? y)%N then true
      else if (y <? x)%N then false
      else str_lt a' b'
  end.

(** [t] is a prefix of [s]. *)
Fixpoint startsWith (s t : jsstring) : bool :=
  match t, s with
  | [], _ => true
  | _ :: _, [] => false
  | c :: t', d :: s' => (c =? d)%N && startsWith s' t'
  end.

(** [s.includes(t)]. *)
Fixpoint includes (s t : jsstring) : bool :=
  startsWith s t
  || match s with
     | [] => false
     | _ :: s' => includes s' t
     end.

Section Table.
(** [String.prototype.toLowerCase]. *)
Variable toLowerCase : jsstring -> jsstring.
(** [a < b] for two values that are not both strings. *)
Variable less : cell -> cell -> bool.
(** [String(v)] for a value that is not a string. *)
Variable String_ : cell -> jsstring.

(** [valA < valB] at lines 372 and 373, after the conversions of lines
    361 to 367: two timestamps are compared by their milliseconds, two
    strings by their lower-case forms. *)
Definition lt (valA valB : cell) : bool :=
  match valA, valB with
  | Stamp x, Stamp y => num_lt x y
  | Js (JStr x), Js (JStr y) => str_lt (toLowerCase x) (toLowerCase y)
  | _, _ => less valA valB
  end.

(** The comparison function of [sortedJobs], lines 357 to 375. *)
Definition compareJobs (sortConfig : SortConfig) (a b : row) : Z :=
  let valA := at_key (key sortConfig) a in
  let valB := at_key (key sortConfig) b in
  let asc := is_ascending (direction sortConfig) in
  if nullish valA && negb (nullish valB) then (if asc then 1 else -1)%Z
  else if negb (nullish valA) && nullish valB then (if asc then -1 else 1)%Z
  else if nullish valA && nullish valB then 0%Z
  else if lt valA valB then (if asc then -1 else 1)%Z
  else if lt valB valA then (if asc then 1 else -1)%Z
  else 0%Z.

(** Two values the comparison function orders by itself: two
    timestamps, two strings, or a pair with a null or undefined. *)
Definition comparable (valA valB : cell) : bool :=
  match valA, valB with
  | Stamp _, Stamp _ => true
  | Js (JStr _), Js (JStr _) => true
  | _, _ => nullish valA || nullish valB
  end.

(** [String(value)]. *)
Definition toText (value : cell) : jsstring :=
  match value with
  | Js (JStr s) => s
  | _ => String_ value
  end.

(** The predicate of the [filter] of lines 382 to 386. *)
Definition matchesSearch (searchTerm : jsstring) (job : row) : bool :=
  existsb (fun p => includes (toLowerCase (toText (snd p)))
                             (toLowerCase searchTerm))
          job.

(** [filteredJobs], given [sortedJobs]. *)
Definition filteredJobs (searchTerm : jsstring) (sortedJobs : list row)
  : list row :=
  if negb (nonempty searchTerm) then sortedJobs
  else filter (matchesSearch searchTerm) sortedJobs.
End Table.

End Listing.

(** ** The browser and the back end together *)

Module Wire.

Section Wire.
(** The reason phrase the response carries for a status code. *)
Variable statusTextOf : Z -> jsstring.
(** [JSON.stringify], as [res.json] uses it. *)
Variable stringify : jsval -> jsstring.
(** [JSON.parse]. *)
Variable parse : jsval -> option jsval.

(** The [Response] the browser gets for a reply of the route: a body
    sent with [res.send] is read back as it is, and as JSON when it
    parses; a body sent with [res.json] is read back as the value. *)
Definition delivered (rep : Server.reply) : response :=
  match Server.content rep with
  | Server.Sent body =>
      {| status := Server.code rep;
         statusText := statusTextOf (Server.code rep);
         text := Some body;
         json := parse (JStr body) |}
  | Server.Json value =>
      {| status := Server.code rep;
         statusText := statusTextOf (Server.code rep);
         text := Some (stringify value);
         json := Some value |}
  end.

(** The answer of the proxy to the request the handler makes for
    [jobPostUrl], the route being given [upstream] as its [fetch]. *)
Definition through_proxy (upstream : Server.upstream_request -> Server.upstream)
           (jobPostUrl : jsstring) : fetched :=
  Responded
    (delivered (fst (Server.proxy upstream (Some (Server.QString jobPostUrl))))).
End Wire.

End Wire.

(** ** Dates read back from strings *)

Module Dates.

(** Days since 1970-01-01 of a date of the proleptic Gregorian
    calendar. *)
Definition days_from_civil (y m d : Z) : Z :=
  let y' := (if m <=? 2 then y - 1 else y)%Z in
  let era := (y' / 400)%Z in
  let yoe := (y' - era * 400)%Z in
  let doy := ((153 * (if 2 <? m then m - 3 else m + 9) + 2) / 5 + d - 1)%Z in
  let doe := (yoe * 365 + yoe / 4 - yoe / 100 + doy)%Z in
  (era * 146097 + doe - 719468)%Z.

Definition leap (y : Z) : bool :=
  ((y mod 4 =? 0) && (negb (y mod 100 =? 0) || (y mod 400 =? 0)))%Z.

Definition days_in_month (y m : Z) : Z :=
  if (m =? 2)%Z then (if leap y then 29 else 28)%Z
  else if ((m =? 4) || (m =? 6) || (m =? 9) || (m =? 11))%Z then 30%Z
  else 31%Z.

Definition valid_date (y m d : Z) : bool :=
  ((1 <=? m) && (m <=? 12) && (1 <=? d) && (d <=? days_in_month y m))%Z.

Definition digit (c : unit16) : option Z :=
  if ((48 <=? c) && (c <=? 57))%N then Some (Z.of_N (c - 48)) else None.

(** The number a string of decimal digits denotes. *)
Fixpoint number (s : jsstring) (acc : Z) : option Z :=
  match s with
  | [] => Some acc
  | c :: r =>
      match digit c with
      | Some v => number r (10 * acc + v)%Z
      | None => None
      end
  end.

(** The time value of a string of the form YYYY-MM-DD that names a date
    of the calendar: midnight of that date in UTC, as ECMAScript reads
    the date-only form.  [None] on every other string. *)
Definition parse_iso_date (s : jsstring) : option Z :=
  match s with
  | [y1; y2; y3; y4; sep1; m1; m2; sep2; d1; d2] =>
      if ((sep1 =? 45) && (sep2 =? 45))%N then
        match number [y1; y2; y3; y4] 0, number [m1; m2] 0,
              number [d1; d2] 0 with
        | Some y, Some m, Some d =>
            if valid_date y m d
            then Some (days_from_civil y m d * msPerDay)%Z
            else None
        | _, _, _ => None
        end
      else None
  | _ => None
  end.

(** The year of a time value, in UTC. *)
Definition year_of (t : Z) : Z :=
  fst (fst (civil_from_days (t / msPerDay))).

(** TimeClip: the time values a [Date] can hold. *)
Definition timeClip (t : Z) : option Z :=
  if (Z.abs t <=? 8640000000000000)%Z then Some t else None.

(** The integer part of a Number, towards zero; [None] when it is not
    finite. *)
Definition truncated (x : jsnum) : option Z :=
  match x with
  | NaN | Infinity _ => None
  | Finite neg m e =>
      let magnitude :=
        (if 0 <=? e then Z.of_N m * 2 ^ e else Z.of_N m / 2 ^ (- e))%Z in
      Some (if neg then - magnitude else magnitude)%Z
  end.

(** [new Date(x)] for a Number [x]: its time value, [None] for an
    invalid date. *)
Definition date_of_number (x : jsnum) : option Z :=
  match truncated x with
  | Some t => timeClip t
  | None => None
  end.

(** A check of [f] on [z], [z + 1], ..., [fuel] values in all. *)
Fixpoint all_from (f : Z -> bool) (fuel : nat) (z : Z) : bool :=
  match fuel with
  | O => true
  | S n => if f z then all_from f n (z + 1)%Z else false
  end.

(** The date of a day is a date of the calendar, and is the date of
    that day only. *)
Definition day_round_trip (z : Z) : bool :=
  let '(y, m, d) := civil_from_days z in
  valid_date y m d && (days_from_civil y m d =? z)%Z.

(** A number below [10^4] is printed by [pad0 4] as four digits that
    read back as the number; likewise for [pad0 2]. *)
Definition four_digits (n : Z) : bool :=
  match pad0 4 n with
  | [a; b; c; d] =>
      match number [a; b; c; d] 0 with
      | Some v => (v =? n)%Z
      | None => false
      end
  | _ => false
  end.

Definition two_digits (n : Z) : bool :=
  match pad0 2 n with
  | [a; b] =>
      match number [a; b] 0 with
      | Some v => (v =? n)%Z
      | None => false
      end
  | _ => false
  end.

End Dates.

(** ** The form: [JobForm] *)

Module Form.

(** An object, as the list of its properties in their order; the values
    are those of the table. *)
Definition obj : Type := Listing.row.

Definition str (s : string) : Listing.cell := Listing.Js (JStr (js s)).

(** Truthiness of a value of the form. *)
Definition truthy_cell (c : Listing.cell) : bool :=
  match c with
  | Listing.Stamp _ => true
  | Listing.Js v => truthy v
  end.

(** [{...o, [k]: v}]: the value of an existing key is replaced where it
    is; a new key goes last. *)
Fixpoint assign (k : jsstring) (v : Listing.cell) (o : obj) : obj :=
  match o with
  | [] => [(k, v)]
  | (k', v') :: rest =>
      if JsString.eqb k k' then (k', v) :: rest
      else (k', v') :: assign k v rest
  end.

(** [{...base, ...o}]. *)
Definition spread (base o : obj) : obj :=
  fold_left (fun acc p => assign (fst p) (snd p) acc) o base.

Definition JobStatus_APPLIED : jsstring := js "Applied".

(** The object [currentJob] is set to after an extraction, property
    by property. *)
Definition job_object (d : job) : obj :=
  [ (js "companyName", Listing.Js (companyName d));
    (js "role", Listing.Js (role d));
    (js "location", Listing.Js (location d));
    (js "notes", Listing.Js (notes d));
    (js "dateApplied", Listing.Js (JStr (dateApplied d)));
    (js "status", Listing.Js (JStr (status_ d)));
    (js "link", Listing.Js (JStr (link d)));
    (js "platformPosted", Listing.Js (JStr (platformPosted d)));
    (js "referralOptions", Listing.Js (JStr (referralOptions d)));
    (js "personPosted", Listing.Js (JStr (personPosted d))) ].

(** The [job] prop for a value of [currentJob]; a stored job is given
    with its properties. *)
Definition job_prop (c : current) (stored : obj) : option obj :=
  match c with
  | NoJob => None
  | Stored _ => Some stored
  | Draft d => Some (job_object d)
  end.

Section Form.
(** [Date.parse] on the strings that are not a date of the calendar in
    the form YYYY-MM-DD; [None] for an invalid date. *)
Variable Date_parse_other : jsstring -> option Z.
(** The time value of [new Date(v)] for a value that is neither a
    string nor a number. *)
Variable Date_other : jsval -> option Z.

(** [new Date(v)] for a string.  (The dates [parse_iso_date] reads
    have four-digit years, which are time values a [Date] can hold.) *)
Definition date_of_string (s : jsstring) : option Z :=
  match Dates.parse_iso_date s with
  | Some t => Some t
  | None => Date_parse_other s
  end.

(** The time value of the [Date] made from a truthy value of a date
    field: [v.toDate()] for a timestamp, [new Date(v)] otherwise. *)
Definition date_of (v : Listing.cell) : option Z :=
  match v with
  | Listing.Stamp millis => Dates.date_of_number millis
  | Listing.Js (JStr s) => date_of_string s
  | Listing.Js (JNum x) => Dates.date_of_number x
  | Listing.Js other => Date_other other
  end.

(** The value the form gives a date field: the ISO date of the job's
    value when there is one, the default otherwise.  [None] stands for
    the RangeError of [toISOString] on an invalid date. *)
Definition date_field (v default : Listing.cell) : option Listing.cell :=
  if truthy_cell v then
    match date_of v with
    | Some t => Some (Listing.Js (JStr (iso_date t)))
    | None => None
    end
  else Some default.

(** The [defaults] of [getInitialFormData]; the clock is read twice. *)
Definition defaults (nowApplied nowChecked : Z) : obj :=
  [ (js "companyName", str "");
    (js "role", str "");
    (js "dateApplied", Listing.Js (JStr (iso_date nowApplied)));
    (js "status", Listing.Js (JStr JobStatus_APPLIED));
    (js "lastChecked", Listing.Js (JStr (iso_date nowChecked)));
    (js "platformPosted", str "");
    (js "referralOptions", str "");
    (js "link", str "");
    (js "personPosted", str "");
    (js "location", str "");
    (js "notes", str "") ].

(** [getInitialFormData()], lines 585 to 607. *)
Definition getInitialFormData (nowApplied nowChecked : Z) (job : option obj)
  : option obj :=
  let defaults := defaults nowApplied nowChecked in
  match job with
  | Some job =>
      match date_field (Listing.at_key (js "dateApplied") job)
                       (Listing.at_key (js "dateApplied") defaults) with
      | Some dateApplied =>
          match date_field (Listing.at_key (js "lastChecked") job)
                           (Listing.at_key (js "lastChecked") defaults) with
          | Some lastChecked =>
              Some (assign (js "lastChecked") lastChecked
                      (assign (js "dateApplied") dateApplied
                         (spread defaults job)))
          | None => None
          end
      | None => None
      end
  | None => Some defaults
  end.
End Form.

(** [k in o]. *)
Definition has_key (k : jsstring) (o : obj) : bool :=
  existsb (fun p => JsString.eqb k (fst p)) o.

(** [handleChange]: [{...prev, [name]: value}]. *)
Definition handleChange (prev : obj) (name value : jsstring) : obj :=
  assign name (Listing.Js (JStr value)) prev.

Definition required_message : jsstring :=
  js "Company Name and Role are required.".

(** [handleSubmit]: the object [onSave] is called with, or the error
    the form shows. *)
Definition handleSubmit (formData : obj) : obj + jsstring :=
  if negb (truthy_cell (Listing.at_key (js "companyName") formData))
     || negb (truthy_cell (Listing.at_key (js "role") formData))
  then inr required_message
  else inl formData.

(** The heading of the form. *)
Definition heading (job : option obj) : jsstring :=
  match job with
  | Some j =>
      if truthy_cell (Listing.at_key (js "id") j)
      then js "Edit Job Application"
      else js "Review Extracted Details"
  | None => js "Add New Job Application"
  end.

End Form.

(** ** The document store: loading, saving, showing dates *)

Module Store.

(** The sentinel [serverTimestamp()] returns. *)
Definition serverTimestamp : Listing.cell :=
  Listing.Js (JObj [(js "_methodName", JStr (js "serverTimestamp"))]).

(** What [toMillis()] returns for the [Timestamp] made from a [Date]
    of time value [t]. *)
Definition millis_of (t : Z) : jsnum :=
  Finite (t <? 0)%Z (Z.to_N (Z.abs t)) 0.

Definition appId_default : jsstring := js "default-job-tracker-app".

(** [`artifacts/${appId}/users/${userId}/jobApplications`]. *)
Definition jobCollectionPath (appId userId : jsstring) : jsstring :=
  js "artifacts/" ++ appId ++ js "/users/" ++ userId
  ++ js "/jobApplications".

(** A [Timestamp], or [null]. *)
Definition stamp_or_null (v : Listing.cell) : bool :=
  match v with
  | Listing.Stamp _ => true
  | Listing.Js JNull => true
  | _ => false
  end.

(** A call of the Firestore SDK that writes. *)
Inductive write : Type :=
| addDoc (path : jsstring) (data : Form.obj)
| updateDoc (path : jsstring) (id : Listing.cell) (data : Form.obj).



(** How [handleSaveJob] ends. *)
Inductive saved : Type :=
| NotAuthenticated
    (* setError("User not authenticated. Cannot save job.") *)
| InvalidDate
    (* [Timestamp.fromDate] threw, outside the [try] *)
| Written (w : write)
    (* the write went through, and [handleCloseForm()] ran *)
| WriteFailed (w : write) (message : jsstring).
    (* setError(`Failed to save job. Error: ${e.message}`) *)

(** The write [handleSaveJob] handed to the store, if any. *)
Definition attempted (s : saved) : option write :=
  match s with
  | Written w => Some w
  | WriteFailed w _ => Some w
  | NotAuthenticated | InvalidDate => None
  end.

(** The times a [Timestamp] holds: its seconds are those of the years
    1 to 9999. *)
Definition in_range (t : Z) : bool :=
  (-62135596800 <=? t / 1000)%Z && (t / 1000 <? 253402300800)%Z.

Section Store.
Variable Date_parse_other : jsstring -> option Z.
Variable Date_other : jsval -> option Z.
(** The time value of [new Date(v)] for a [Timestamp] [v]. *)
Variable Date_of_timestamp : jsnum -> option Z.
(** What [Timestamp.fromDate] makes of an invalid date ([None]) and of
    a time out of range: the milliseconds of the timestamp, or [None]
    when it throws. *)
Variable Timestamp_other : option Z -> option jsnum.
(** The offset [getTimezoneOffset()] gives at a time value: minutes
    from local time to UTC. *)
Variable timezoneOffset : Z -> Z.
(** How the locale writes a date of the calendar. *)
Variable formatLocal : Z * Z * Z -> jsstring.
(** The store: [None] when the write goes through, the message of the
    error otherwise. *)
Variable commit : write -> option jsstring.

(** [new Date(v)]. *)
Definition new_Date (v : Listing.cell) : option Z :=
  match v with
  | Listing.Stamp millis => Date_of_timestamp millis
  | Listing.Js (JStr s) => Form.date_of_string Date_parse_other s
  | Listing.Js (JNum x) => Dates.date_of_number x
  | Listing.Js other => Date_other other
  end.

(** [Timestamp.fromDate(new Date(v))]; [None] when it throws. *)
Definition fromDate (v : Listing.cell) : option Listing.cell :=
  match new_Date v with
  | Some t =>
      if in_range t then Some (Listing.Stamp (millis_of t))
      else option_map Listing.Stamp (Timestamp_other (Some t))
  | None => option_map Listing.Stamp (Timestamp_other None)
  end.

(** Lines 124 and 125: a date field of a document as the list holds
    it. *)
Definition loaded_date (v : Listing.cell) : option Listing.cell :=
  match v with
  | Listing.Stamp _ => Some v
  | _ => if Form.truthy_cell v then fromDate v else Some (Listing.Js JNull)
  end.

(** Lines 121 to 126: the job made of a document of the snapshot. *)
Definition loadJob (id : jsstring) (data : Form.obj) : option Form.obj :=
  match loaded_date (Listing.at_key (js "dateApplied") data) with
  | Some dateApplied =>
      match loaded_date (Listing.at_key (js "lastChecked") data) with
      | Some lastChecked =>
          Some (Form.assign (js "lastChecked") lastChecked
                  (Form.assign (js "dateApplied") dateApplied
                     (Form.spread [(js "id", Listing.Js (JStr id))] data)))
      | None => None
      end
  | None => None
  end.

(** Lines 162 and 163: a date field of the document to write. *)
Definition saved_date (v : Listing.cell) : option Listing.cell :=
  if Form.truthy_cell v then fromDate v else Some serverTimestamp.

(** [currentJob?.id]. *)
Definition id_of (currentJob : option Form.obj) : Listing.cell :=
  match currentJob with
  | Some job => Listing.at_key (js "id") job
  | None => Listing.Js JUndefined
  end.

(** Lines 160 to 173: [processedData]. *)
Definition processedData (userId : jsstring) (currentJob : option Form.obj)
           (jobData : Form.obj) : option Form.obj :=
  match saved_date (Listing.at_key (js "dateApplied") jobData) with
  | Some dateApplied =>
      match saved_date (Listing.at_key (js "lastChecked") jobData) with
      | Some lastChecked =>
          let createdAt :=
            if negb (Form.truthy_cell (id_of currentJob)) then serverTimestamp
            else match currentJob with
                 | Some job =>
                     if Form.truthy_cell (Listing.at_key (js "createdAt") job)
                     then Listing.at_key (js "createdAt") job
                     else serverTimestamp
                 | None => serverTimestamp
                 end in
          Some (Form.assign (js "createdAt") createdAt
                  (Form.assign (js "updatedAt") serverTimestamp
                     (Form.assign (js "userId") (Listing.Js (JStr userId))
                        (Form.assign (js "lastChecked") lastChecked
                           (Form.assign (js "dateApplied") dateApplied
                              jobData)))))
      | None => None
      end
  | None => None
  end.

(** [handleSaveJob(jobData)], lines 153 to 188. *)
Definition handleSaveJob (appId : jsstring) (userId : option jsstring)
           (currentJob : option Form.obj) (jobData : Form.obj) : saved :=
  match userId with
  | None => NotAuthenticated
  | Some uid =>
      if negb (nonempty uid) then NotAuthenticated
      else
        match processedData uid currentJob jobData with
        | None => InvalidDate
        | Some data =>
            let path := jobCollectionPath appId uid in
            let w := if Form.truthy_cell (id_of currentJob)
                     then updateDoc path (id_of currentJob) data
                     else addDoc path data in
            match commit w with
            | None => Written w
            | Some message => WriteFailed w message
            end
        end
  end.

(** [date.toLocaleDateString()] for a valid date: the date of the
    calendar at the local time of [t], as the locale writes it. *)
Definition toLocaleDateString (t : Z) : jsstring :=
  formatLocal (civil_from_days ((t - timezoneOffset t * 60000) / msPerDay)).

(** [formatDate(date)], lines 26 to 38. *)
Definition formatDate (date : Listing.cell) : jsstring :=
  if negb (Form.truthy_cell date) then js "N/A"
  else match date with
       | Listing.Stamp millis =>
           match Dates.date_of_number millis with
           | Some t => toLocaleDateString t
           | None => js "Invalid Date"
           end
       | Listing.Js (JStr s) =>
           match Form.date_of_string Date_parse_other s with
           | Some t => toLocaleDateString t
           | None => js "Invalid Date"
           end
       | _ => js "Invalid Date"
       end.
End Store.

End Store.

(** ** More examples *)

Module Samples.

Definition statusTextOf (code : Z) : jsstring :=
  if (code =? 200)%Z then js "OK"
  else if (code =? 400)%Z then js "Bad Request"
  else js "Internal Server Error".

Definition stringify (_ : jsval) : jsstring := js "{}".

(** The browser behind the route, the route in front of [upstream]. *)
Definition behind (upstream : Server.upstream) (url : jsstring) : Env :=
  Demo.env (fun _ => Demo.listing)
           (Wire.through_proxy statusTextOf stringify Demo.JSON_parse
                               (fun _ => upstream) url)
           (Demo.extracted Demo.acme_text).

(** The draft of Scenario A, made at [Demo.instant]. *)
Definition acme_draft : job :=
  mapToDraft scenarioA_fields [] (iso_date Demo.instant).

(** A draft whose extraction found no company. *)
Definition nameless_draft : job :=
  mapToDraft (JObj [(js "role", JStr (js "Engineer"))]) []
             (iso_date Demo.instant).

(** A locale that writes month/day/year. *)
Definition formatLocal (date : Z * Z * Z) : jsstring :=
  let '(y, m, d) := date in
  of_Z m ++ js "/" ++ of_Z d ++ js "/" ++ of_Z y.

(** Two documents of the collection: one stored with its date as a
    string, one without a date. *)
Definition dated_doc : Form.obj :=
  [ (js "companyName", Form.str "Acme");
    (js "dateApplied", Form.str "2026-11-02") ].

Definition undated_doc : Form.obj :=
  [ (js "companyName", Form.str "Initech") ].


(** A job of the list: saved by this application on 2 November 2026,
    last checked later that day by another client. *)
Definition stored_job : Form.obj :=
  [ (js "id", Form.str "doc-1");
    (js "companyName", Form.str "Acme");
    (js "role", Form.str "Engineer");
    (js "dateApplied", Listing.Stamp (Store.millis_of 1793577600000));
    (js "lastChecked", Listing.Stamp (Store.millis_of Demo.instant)) ].

(** The form opened at [Demo.instant] on the draft of Scenario A. *)
Definition acme_form : Form.obj :=
  Form.assign (js "lastChecked") (Listing.Js (JStr (iso_date Demo.instant)))
    (Form.assign (js "dateApplied")
       (Listing.Js (JStr (iso_date Demo.instant)))
       (Form.spread (Form.defaults Demo.instant Demo.instant)
                    (Form.job_object acme_draft))).

End Samples.

(** Unfolds the monad of the handler. *)
Ltac run_monad :=
  unfold bind, try, orThrow, ret, throw in *.

(** Case analysis on what a run, given as the hypothesis [H], went
    through: the scrutinee of its outermost pending [match]. *)
Ltac trace_back H :=
  repeat (match type of H with
          | context [match ?x with _ => _ end] => destruct x eqn:?
          | context [if ?x then _ else _] => destruct x eqn:?
          end; try discriminate H).

(* ================================================================== *)
(** * Facts about strings *)

Lemma eqb_eq (a b : jsstring) : JsString.eqb a b = true <-> a = b.
Proof.
  unfold JsString.eqb.
  destruct (list_eq_dec N.eq_dec a b); split; congruence.
Qed.

Lemma eqb_refl (a : jsstring) : JsString.eqb a a = true.
Proof. now apply eqb_eq. Qed.

Lemma no_ws_run_cons c s :
  no_ws_run (c :: s) = (negb (is_ws c) || no_leading_ws s) && no_ws_run s.
Proof.
  destruct s as [|c' s]; simpl.
  - now rewrite andb_false_r, orb_true_r.
  - now rewrite negb_andb.
Qed.

Lemma no_ws_run_app a b :
  no_ws_run (a ++ b) = true -> no_ws_run a = true /\ no_ws_run b = true.
Proof.
  induction a as [|c a IH]; intros H.
  - now split.
  - change ((c :: a) ++ b) with (c :: (a ++ b)) in H.
    rewrite no_ws_run_cons in H. rewrite no_ws_run_cons.
    apply andb_true_iff in H as [Hc Hr].
    destruct (IH Hr) as [Ha Hb]. split; [|exact Hb].
    rewrite Ha, andb_true_r.
    destruct (is_ws c); [|reflexivity]. simpl in *.
    destruct a; [reflexivity|exact Hc].
Qed.

(** What [trimStart] removes is a prefix made of whitespace. *)
Lemma trimStart_split s :
  exists p, s = p ++ trimStart s /\ forallb is_ws p = true.
Proof.
  induction s as [|c s [p [E W]]]; simpl.
  - now exists [].
  - destruct (is_ws c) eqn:Hc.
    + exists (c :: p). simpl. rewrite Hc, W. split; [now f_equal|reflexivity].
    + now exists [].
Qed.

Lemma trimStart_no_leading s : no_leading_ws (trimStart s) = true.
Proof.
  induction s as [|c s IH]; simpl; [reflexivity|].
  destruct (is_ws c) eqn:Hc; [exact IH|]. simpl. now rewrite Hc.
Qed.

Lemma trimStart_fixed s : no_leading_ws s = true -> trimStart s = s.
Proof.
  destruct s as [|c s]; simpl; [reflexivity|].
  now destruct (is_ws c).
Qed.

(** What [trimEnd] removes is a suffix. *)
Lemma trimEnd_split s : exists q, s = trimEnd s ++ q.
Proof.
  unfold trimEnd. destruct (trimStart_split (rev s)) as [p [E _]].
  exists (rev p). rewrite <- rev_app_distr, <- E. now rewrite rev_involutive.
Qed.

Lemma trimEnd_no_trailing s : no_trailing_ws (trimEnd s) = true.
Proof.
  unfold no_trailing_ws, trimEnd. rewrite rev_involutive.
  apply trimStart_no_leading.
Qed.

Lemma no_leading_prefix a b :
  no_leading_ws (a ++ b) = true -> no_leading_ws a = true.
Proof. now destruct a. Qed.

Lemma trim_no_leading s : no_leading_ws (trim s) = true.
Proof.
  unfold trim. destruct (trimEnd_split (trimStart s)) as [q E].
  apply no_leading_prefix with (b := q). rewrite <- E.
  apply trimStart_no_leading.
Qed.

Lemma trim_no_trailing s : no_trailing_ws (trim s) = true.
Proof. apply trimEnd_no_trailing. Qed.

(** [trim] keeps a segment of its argument. *)
Lemma trim_split s : exists p q, s = p ++ trim s ++ q.
Proof.
  destruct (trimStart_split s) as [p [E _]].
  destruct (trimEnd_split (trimStart s)) as [q E'].
  exists p, q. unfold trim. now rewrite <- E'.
Qed.

Lemma len_trim_le s : (len (trim s) <= len s)%Z.
Proof.
  destruct (trim_split s) as [p [q E]]. unfold len.
  rewrite E at 2. rewrite !length_app. lia.
Qed.

Lemma trim_fixed s :
  no_leading_ws s = true -> no_trailing_ws s = true -> trim s = s.
Proof.
  intros L T. unfold trim, trimEnd. rewrite (trimStart_fixed s L).
  rewrite (trimStart_fixed (rev s) T). apply rev_involutive.
Qed.

(** A text made of one character that is not whitespace, repeated. *)
Lemma trim_repeat c n :
  is_ws c = false -> trim (repeat c n) = repeat c n.
Proof.
  intros W. apply trim_fixed; unfold no_trailing_ws;
    rewrite ?rev_repeat; destruct n; simpl; now rewrite ?W.
Qed.

Lemma nonempty_repeat (c : unit16) n :
  (0 < n)%nat -> nonempty (repeat c n) = true.
Proof. destruct n; [lia|reflexivity]. Qed.

Lemma len_repeat c n : (0 <= n)%Z -> len (repeat c (Z.to_nat n)) = n.
Proof. intros H. unfold len. rewrite repeat_length. lia. Qed.

Lemma trim_idempotent s : trim (trim s) = trim s.
Proof.
  unfold trim at 1. rewrite (trimStart_fixed _ (trim_no_leading s)).
  unfold trimEnd. rewrite (trimStart_fixed (rev (trim s))).
  - apply rev_involutive.
  - apply trim_no_trailing.
Qed.

Lemma no_ws_run_trim s : no_ws_run s = true -> no_ws_run (trim s) = true.
Proof.
  intros H. destruct (trim_split s) as [p [q E]]. rewrite E in H.
  apply no_ws_run_app in H as [_ H]. now apply no_ws_run_app in H as [H _].
Qed.

(** The replacement leaves no two whitespace characters in a row; and
    what follows the space written for a run does not start with
    whitespace. *)
Lemma replace_ws_runs_spec s : forall in_run,
  no_ws_run (replace_ws_runs in_run s) = true
  /\ (in_run = true \/ no_leading_ws s = true ->
      no_leading_ws (replace_ws_runs in_run s) = true).
Proof.
  induction s as [|c r IH]; intros in_run.
  - now split.
  - simpl. destruct (is_ws c) eqn:Hc.
    + destruct in_run.
      * destruct (IH true) as [A B]. split; [exact A|]. intros _. now apply B; left.
      * destruct r as [|c' r'].
        { split; [simpl; now rewrite andb_false_r|].
          intros [F|F]; [discriminate|]. simpl in F. try rewrite Hc in F. discriminate. }
        destruct (is_ws c') eqn:Hc'.
        { destruct (IH true) as [A B]. split.
          - rewrite no_ws_run_cons, A, (B (or_introl eq_refl)).
            now rewrite orb_true_r.
          - intros [F|F]; [discriminate|]. simpl in F. try rewrite Hc in F. discriminate. }
        { destruct (IH false) as [A B]. split.
          - rewrite no_ws_run_cons, A, B; [now rewrite orb_true_r|].
            right. simpl. now rewrite Hc'.
          - intros [F|F]; [discriminate|]. simpl in F. try rewrite Hc in F. discriminate. }
    + destruct (IH false) as [A _]. split.
      * rewrite no_ws_run_cons, A, Hc. reflexivity.
      * intros _. simpl. now rewrite Hc.
Qed.

Lemma no_ws_run_collapse s : no_ws_run (collapse s) = true.
Proof. apply replace_ws_runs_spec. Qed.

Lemma no_ws_run_firstn n s :
  no_ws_run s = true -> no_ws_run (firstn n s) = true.
Proof.
  intros H. rewrite <- (firstn_skipn n s) in H.
  now apply no_ws_run_app in H.
Qed.

Lemma no_leading_firstn n s :
  no_leading_ws s = true -> no_leading_ws (firstn n s) = true.
Proof. destruct n, s; simpl; auto. Qed.

Lemma truncate_long t :
  (len t > 28000)%Z ->
  truncate t = firstn (Z.to_nat 28000) t /\ len (truncate t) = 28000%Z.
Proof.
  intros H. unfold truncate, substring0.
  destruct (Z.gtb_spec (len t) 28000); [|lia].
  split; [reflexivity|]. unfold len in *. rewrite length_firstn. lia.
Qed.

Lemma truncate_short t :
  (len t <= 28000)%Z -> truncate t = t.
Proof.
  intros H. unfold truncate.
  destruct (Z.gtb_spec (len t) 28000); [lia|reflexivity].
Qed.

Lemma len_truncate t : (len (truncate t) <= 28000)%Z.
Proof.
  destruct (Z_le_gt_dec (len t) 28000) as [H|H].
  - now rewrite truncate_short.
  - destruct (truncate_long t H) as [_ E]. lia.
Qed.

(** The prompt determines the text it was built from. *)
Lemma prompt_inj t t' : prompt t = prompt t' -> t = t'.
Proof.
  unfold prompt. intros H. apply app_inv_head in H.
  rewrite !app_assoc in H. now do 3 apply app_inv_tail in H.
Qed.

Lemma extraction_payload_inj t t' :
  extraction_payload t = extraction_payload t' -> t = t'.
Proof.
  intros H. apply prompt_inj.
  exact (f_equal contents_text H).
Qed.

(* ================================================================== *)
(** * The shape of a run *)

Section Runs.
Variable env : Env.

Lemma body_innerText_log d log :
  exists r, body_innerText env d log = (r, log).
Proof.
  unfold body_innerText. run_monad.
  destruct (body d); eauto.
Qed.

(** Selecting the text issues no request. *)
Lemma select_text_log d log : exists r, select_text env d log = (r, log).
Proof.
  unfold select_text. run_monad.
  destruct (querySelector _ _ d) as [el|].
  - destruct (innerText env el) as [t|]; [|apply body_innerText_log].
    destruct (negb (nonempty t) || (len (trim t) <? 50)%Z);
      [apply body_innerText_log|eauto].
  - destruct (body_innerText_log d log) as [[o|e] E]; rewrite E; [|eauto].
    destruct o as [t|]; [|apply body_innerText_log].
    destruct (negb (nonempty t) || (len (trim t) <? 50)%Z);
      [apply body_innerText_log|eauto].
Qed.

(** The URL path issues exactly one request, the GET to the proxy,
    unless the URL cannot be encoded, in which case it issues none. *)
Lemma text_from_url_log url encoded log :
  encodeURIComponent env url = Some encoded ->
  exists r, text_from_url env url log = (r, log ++ [proxy_request env encoded]).
Proof.
  intros E. unfold text_from_url, await_fetch. run_monad. rewrite E.
  destruct (fetch env (proxy_request env encoded)) as [msg|r]; [eauto|].
  destruct (ok r); [|eauto].
  destruct (text r) as [html|]; [|eauto].
  match goal with
  | |- context [select_text env ?d ?l] =>
      destruct (select_text_log d l) as [[o|e] S]; rewrite S
  end; [|eauto].
  destruct o as [t|]; [|eauto].
  destruct (nonempty _); eauto.
Qed.

Lemma text_from_url_unencodable url log :
  encodeURIComponent env url = None ->
  text_from_url env url log = (inr URIMalformed, log).
Proof.
  intros E. unfold text_from_url. run_monad. now rewrite E.
Qed.

(** The extraction phase issues exactly one request, the POST. *)
Lemma ai_extract_log url t log :
  exists r, ai_extract env url t log = (r, log ++ [extraction_request t]).
Proof.
  unfold ai_extract, await_fetch, newJobData. run_monad.
  destruct (fetch env (extraction_request t)) as [msg|r]; [eauto|].
  destruct (ok r); simpl.
  - destruct (json r) as [result|]; [|eauto].
    destruct (get result _) as [c|]; [|eauto].
    destruct (truthy c && truthy (candidate_text c)); [|eauto].
    destruct (JSON_parse env _) as [data|]; [|eauto].
    destruct (get data (js "companyName")); [|eauto].
    destruct (get data (js "role")); [|eauto].
    destruct (get data (js "location")); [|eauto].
    destruct (get data (js "summary")); eauto.
  - destruct (json r); eauto.
Qed.

(** Once the text is there, the run is the extraction phase with its
    exceptions caught. *)
Lemma extract_from_text url pasted t log :
  source_text env url pasted [] = (inl (inl t), log) ->
  exists o, extract env url pasted []
            = (inl o, log ++ [extraction_request (truncate t)]).
Proof.
  intros S. unfold extract. run_monad. rewrite S.
  destruct (ai_extract_log url (truncate t) log) as [[o|e] A]; rewrite A;
    eauto.
Qed.

Lemma extract_without_text url pasted m log :
  source_text env url pasted [] = (inl (inr m), log) ->
  extract env url pasted [] = (inl (inr m), log).
Proof.
  intros S. unfold extract. run_monad. now rewrite S.
Qed.

(** With a blank URL, the text is the trimmed pasted text. *)
Lemma source_text_pasted url pasted :
  nonempty (trim url) = false ->
  nonempty (trim pasted) = true ->
  source_text env url pasted [] = (inl (inl (trim pasted)), []).
Proof.
  intros U P. unfold source_text. run_monad. now rewrite U, P.
Qed.

(** [source_text] catches what it throws. *)
Lemma source_text_never_throws url pasted log :
  exists r log', source_text env url pasted log = (inl r, log').
Proof.
  unfold source_text. run_monad.
  destruct (nonempty (trim url)).
  - destruct (text_from_url env url log) as [[t|e] l]; eauto.
  - destruct (nonempty (trim pasted)); eauto.
Qed.

Lemma extract_never_throws url pasted :
  exists o log, extract env url pasted [] = (inl o, log).
Proof.
  destruct (source_text_never_throws url pasted []) as [[t|m] [log S]].
  - destruct (extract_from_text _ _ S) as [o E]. eauto.
  - rewrite (extract_without_text _ _ S). eauto.
Qed.

(** The handler, read off [extract]. *)
Lemma handler_failed st m log :
  extract env (jobPostUrl st) (jobDescriptionText st) [] = (inl (inr m), log) ->
  handleExtractDetails env st = (failed st m, log).
Proof. intros E. unfold handleExtractDetails. now rewrite E. Qed.

Lemma handler_reviewing st d log :
  extract env (jobPostUrl st) (jobDescriptionText st) [] = (inl (inl d), log) ->
  handleExtractDetails env st = (reviewing d, log).
Proof. intros E. unfold handleExtractDetails. now rewrite E. Qed.
End Runs.

Section Sources.
Variable env : Env.

(** On the URL path the text is what [replace] and [trim] made of the
    selected text. *)
Lemma text_from_url_normalized url t log log' :
  text_from_url env url log = (inl t, log') ->
  exists selected, t = trim (collapse selected).
Proof.
  unfold text_from_url, await_fetch. run_monad. intros H.
  trace_back H. injection H as <- _. eauto.
Qed.

Lemma source_text_cases url pasted t log :
  source_text env url pasted [] = (inl (inl t), log) ->
  (nonempty (trim url) = true /\ exists selected, t = trim (collapse selected))
  \/ (nonempty (trim url) = false /\ t = trim pasted /\ log = []).
Proof.
  unfold source_text. run_monad. intros H.
  destruct (nonempty (trim url)) eqn:U.
  - left. split; [reflexivity|].
    destruct (text_from_url env url []) as [[t'|e] l] eqn:T; [|discriminate].
    injection H as <- _. eapply text_from_url_normalized, T.
  - right. destruct (nonempty (trim pasted)); [|discriminate].
    injection H as <- <-. auto.
Qed.
End Sources.

(* ================================================================== *)
(** * The claims *)

(** C1.  Source precedence.  When the URL field is not blank once
    trimmed, the run takes the URL path whatever the pasted text is: the
    outcome and the requests are the same for every pasted text, and the
    first request, if the URL can be encoded at all, is the GET to the
    proxy.  When the URL is blank and the pasted text is not, the text
    is the trimmed pasted text, and the only request is the extraction
    request for it (cut at the cap).  When both are blank the handler
    stops with the message asking for an input, NoInputError, and issues
    no request. *)
Theorem C1_source_precedence (env : Env) (st : state) :
  let url := jobPostUrl st in
  let pasted := jobDescriptionText st in
  (nonempty (trim url) = true ->
     (forall other, extract env url other [] = extract env url pasted [])
     /\ (forall encoded, encodeURIComponent env url = Some encoded ->
           exists o rest,
             extract env url pasted []
             = (inl o, proxy_request env encoded :: rest))
     /\ (encodeURIComponent env url = None ->
           extract env url pasted []
           = (inl (inr (ErrorProcessingUrl URIMalformed)), [])))
  /\ (nonempty (trim url) = false -> nonempty (trim pasted) = true ->
        source_text env url pasted [] = (inl (inl (trim pasted)), [])
        /\ exists o,
             extract env url pasted []
             = (inl o, [extraction_request (truncate (trim pasted))]))
  /\ (nonempty (trim url) = false -> nonempty (trim pasted) = false ->
        handleExtractDetails env st = (failed st NoInputError, [])).
Proof.
  intros url pasted. split; [|split].
  - intros U. split; [|split].
    + intros other. unfold extract, source_text. run_monad. now rewrite U.
    + intros encoded E.
      destruct (text_from_url_log env url [] E) as [r T]. simpl in T.
      assert (S : exists x, source_text env url pasted []
                            = (inl x, [proxy_request env encoded])).
      { unfold source_text. run_monad. rewrite U, T. destruct r; eauto. }
      destruct S as [[t|m] S].
      * destruct (extract_from_text _ _ _ S) as [o X]. rewrite X. simpl. eauto.
      * rewrite (extract_without_text _ _ _ S). eauto.
    + intros E. apply extract_without_text.
      unfold source_text. run_monad.
      now rewrite U, (text_from_url_unencodable env url [] E).
  - intros U P.
    assert (S : source_text env url pasted [] = (inl (inl (trim pasted)), [])).
    { unfold source_text. run_monad. now rewrite U, P. }
    split; [exact S|]. exact (extract_from_text _ _ _ S).
  - intros U P. apply handler_failed. apply extract_without_text.
    unfold source_text. run_monad. fold url pasted. now rewrite U, P.
Qed.

Lemma C1_witness :
  (forall other,
      extract Demo.quiet (js "https://jobs.example/42") other []
      = extract Demo.quiet (js "https://jobs.example/42") (js "pasted") [])
  /\ (exists o,
         extract Demo.quiet [] (js " a job ") []
         = (inl o, [extraction_request (truncate (trim (js " a job ")))]))
  /\ handleExtractDetails Demo.quiet (Demo.typed (js " ") [])
     = (failed (Demo.typed (js " ") []) NoInputError, []).
Proof.
  split; [|split].
  - apply (C1_source_precedence Demo.quiet
             (Demo.typed (js "https://jobs.example/42") (js "pasted"))).
    reflexivity.
  - apply (C1_source_precedence Demo.quiet (Demo.typed [] (js " a job ")));
      reflexivity.
  - apply (C1_source_precedence Demo.quiet (Demo.typed (js " ") []));
      reflexivity.
Defined.

(** C4.  Failure of the proxy fetch.  For a URL that is not blank, if
    the fetch is rejected (no HTTP response) or the response is not a
    2xx, the handler stops with SourceFetchFailed carrying that error:
    its state is the one before the run but for the message, so no draft
    is made and the pasted text, whatever it is, is not used; and the
    proxy request is the only request issued.  For a response that is
    not 2xx the error holds the status and a detail, which is [details]
    or else [error] of the JSON body, or else the status text; it is the
    status text when the body is not JSON. *)
Theorem C4_fetch_failure (env : Env) (st : state) (encoded : jsstring) :
  nonempty (trim (jobPostUrl st)) = true ->
  encodeURIComponent env (jobPostUrl st) = Some encoded ->
  (forall detail,
      fetch env (proxy_request env encoded) = Rejected detail ->
      handleExtractDetails env st
      = (failed st (SourceFetchFailed (TransportError detail)),
         [proxy_request env encoded]))
  /\ (forall r,
         fetch env (proxy_request env encoded) = Responded r ->
         ok r = false ->
         handleExtractDetails env st
         = (failed st (SourceFetchFailed
                         (HttpError (status r) (proxy_errorDetails r))),
            [proxy_request env encoded])
         /\ (json r = None -> proxy_errorDetails r = JStr (statusText r))
         /\ (forall errorData,
                json r = Some errorData -> is_nullish errorData = false ->
                proxy_errorDetails r
                = or_else (own_property errorData (js "details"))
                    (or_else (own_property errorData (js "error"))
                             (JStr (statusText r))))).
Proof.
  intros U E. split.
  - intros detail F. apply handler_failed, extract_without_text.
    unfold source_text, text_from_url, await_fetch. run_monad.
    now rewrite U, E, F.
  - intros r F K. split; [|split].
    + apply handler_failed, extract_without_text.
      unfold source_text, text_from_url, await_fetch. run_monad.
      now rewrite U, E, F, K.
    + intros J. unfold proxy_errorDetails. now rewrite J.
    + intros errorData J N. unfold proxy_errorDetails, get.
      now rewrite J, N.
Qed.

Lemma C4_witness :
  handleExtractDetails Demo.quiet (Demo.typed Demo.job_url Demo.posting_text)
  = (failed (Demo.typed Demo.job_url Demo.posting_text)
            (SourceFetchFailed (TransportError (js "Failed to fetch"))),
     [proxy_request Demo.quiet Demo.job_url])
  /\ handleExtractDetails Demo.plain_404
       (Demo.typed Demo.job_url Demo.posting_text)
     = (failed (Demo.typed Demo.job_url Demo.posting_text)
               (SourceFetchFailed (HttpError 404 (JStr (js "Not Found")))),
        [proxy_request Demo.plain_404 Demo.job_url])
  /\ handleExtractDetails Demo.relayed_404
       (Demo.typed Demo.job_url Demo.posting_text)
     = (failed (Demo.typed Demo.job_url Demo.posting_text)
               (SourceFetchFailed
                  (HttpError 500 (JStr (js "Failed to fetch: 404 Not Found")))),
        [proxy_request Demo.relayed_404 Demo.job_url]).
Proof.
  pose (st := Demo.typed Demo.job_url Demo.posting_text).
  destruct (C4_fetch_failure Demo.quiet st (encoded := Demo.job_url)
              eq_refl eq_refl) as [A _].
  destruct (C4_fetch_failure Demo.plain_404 st (encoded := Demo.job_url)
              eq_refl eq_refl) as [_ B].
  destruct (C4_fetch_failure Demo.relayed_404 st (encoded := Demo.job_url)
              eq_refl eq_refl) as [_ C].
  split; [exact (A _ eq_refl)|]. split.
  - destruct (B _ eq_refl eq_refl) as [B1 [B2 _]].
    rewrite (B2 eq_refl) in B1. exact B1.
  - destruct (C _ eq_refl eq_refl) as [C1 [_ C3]].
    rewrite (C3 _ eq_refl eq_refl) in C1. exact C1.
Defined.

Section Selection.
Variable env : Env.

Lemma body_innerText_pure d log :
  body_innerText env d log
  = (match body d with
     | Some b => inl (innerText env b)
     | None => inr NullDereference
     end, log).
Proof.
  unfold body_innerText. run_monad. now destruct (body d).
Qed.

(** The selection does not depend on the requests issued so far. *)
Lemma select_text_pure d log :
  select_text env d log = (selectPrimaryContent env d, log).
Proof.
  unfold selectPrimaryContent, select_text. run_monad.
  destruct (querySelector _ _ d) as [el|].
  - destruct (innerText env el) as [t|];
      [destruct (negb (nonempty t) || (len (trim t) <? 50)%Z)|];
      rewrite ?body_innerText_pure; reflexivity.
  - rewrite !body_innerText_pure.
    destruct (body d) as [b|]; [|reflexivity].
    destruct (innerText env b) as [t|];
      [destruct (negb (nonempty t) || (len (trim t) <? 50)%Z)|];
      rewrite ?body_innerText_pure; reflexivity.
Qed.
End Selection.

(** C5.  Empty content.  For a URL that is not blank, if the proxy
    answers 2xx and the text selected from the page is blank once
    whitespace runs are replaced and the ends trimmed, the handler stops
    with EmptyContentError: no draft is made, and the proxy request is
    the only request issued. *)
Theorem C5_empty_content (env : Env) (st : state)
        (encoded html selected : jsstring) (r : response) :
  nonempty (trim (jobPostUrl st)) = true ->
  encodeURIComponent env (jobPostUrl st) = Some encoded ->
  fetch env (proxy_request env encoded) = Responded r ->
  ok r = true ->
  text r = Some html ->
  selectPrimaryContent env
    (remove_all (matches env) removed_selector (parseFromString env html))
  = inl (Some selected) ->
  trim (collapse selected) = [] ->
  handleExtractDetails env st
  = (failed st EmptyContentError, [proxy_request env encoded])
  /\ forallb is_proxy_request (snd (handleExtractDetails env st)) = true.
Proof.
  intros U E F K T S B.
  assert (H : handleExtractDetails env st
              = (failed st EmptyContentError, [proxy_request env encoded])).
  { apply handler_failed, extract_without_text.
    unfold source_text, text_from_url, await_fetch. run_monad.
    rewrite U, E, F, K, T, select_text_pure, S. simpl. now rewrite B. }
  split; [exact H|]. now rewrite H.
Qed.

Lemma C5_witness :
  handleExtractDetails Demo.hollow (Demo.typed Demo.job_url Demo.posting_text)
  = (failed (Demo.typed Demo.job_url Demo.posting_text) EmptyContentError,
     [proxy_request Demo.hollow Demo.job_url]).
Proof.
  apply (C5_empty_content Demo.hollow
           (Demo.typed Demo.job_url Demo.posting_text)
           (encoded := Demo.job_url) (html := js "<html>")
           (selected := [10%N; 32%N; 32%N])
           (r := {| status := 200; statusText := js "OK";
                    text := Some (js "<html>"); json := None |}));
    reflexivity.
Defined.

(* ================================================================== *)
(** * The extraction phase *)

Section Extraction.
Variable env : Env.

(** Off [null], the object of lines 323 to 334 is the Result Mapper
    applied to the parsed fields, the trimmed URL and the UTC date. *)
Lemma newJobData_spec url data log :
  newJobData env url data log
  = if is_nullish data then (inr NullDereference, log)
    else (inl (mapToDraft data (trim url) (iso_date (now env))), log).
Proof.
  unfold newJobData, get. run_monad.
  now destruct (is_nullish data).
Qed.

(** What the second [try] block does with a 2xx response whose body
    is JSON. *)
Lemma ai_extract_answered url t log r result :
  fetch env (extraction_request t) = Responded r ->
  ok r = true ->
  json r = Some result ->
  ai_extract env url t log
  = (match get result (js "candidates") with
     | None => inr NullDereference
     | Some c =>
         if truthy c && truthy (candidate_text c) then
           match JSON_parse env (candidate_text c) with
           | None => inr AiInvalidJson
           | Some data =>
               if is_nullish data then inr NullDereference
               else inl (inl (mapToDraft data (trim url)
                                         (iso_date (now env))))
           end
         else inl (inr AiFormatUnexpected)
     end, log ++ [extraction_request t]).
Proof.
  intros F K J. unfold ai_extract, await_fetch. run_monad.
  rewrite F, K, J. simpl.
  destruct (get result (js "candidates")) as [c|]; [|reflexivity].
  destruct (truthy c && truthy (candidate_text c)); [|reflexivity].
  destruct (JSON_parse env (candidate_text c)) as [data|]; [|reflexivity].
  rewrite newJobData_spec. now destruct (is_nullish data).
Qed.

(** The run after the text [t] has been obtained. *)
Lemma extract_answered url pasted t log r result :
  source_text env url pasted [] = (inl (inl t), log) ->
  fetch env (extraction_request (truncate t)) = Responded r ->
  ok r = true ->
  json r = Some result ->
  extract env url pasted []
  = (inl match get result (js "candidates") with
         | None => inr (AiExtractionError NullDereference)
         | Some c =>
             if truthy c && truthy (candidate_text c) then
               match JSON_parse env (candidate_text c) with
               | None => inr (AiExtractionError AiInvalidJson)
               | Some data =>
                   if is_nullish data
                   then inr (AiExtractionError NullDereference)
                   else inl (mapToDraft data (trim url)
                                        (iso_date (now env)))
               end
             else inr AiFormatUnexpected
         end, log ++ [extraction_request (truncate t)]).
Proof.
  intros S F K J. unfold extract. run_monad.
  rewrite S, (ai_extract_answered url (truncate t) log F K J).
  destruct (get result (js "candidates")) as [c|]; [|reflexivity].
  destruct (truthy c && truthy (candidate_text c)); [|reflexivity].
  destruct (JSON_parse env (candidate_text c)) as [data|]; [|reflexivity].
  now destruct (is_nullish data).
Qed.

(** A run that ends with a draft went through every step. *)
Lemma extract_draft_inv url pasted d log :
  extract env url pasted [] = (inl (inl d), log) ->
  exists t log0 r result c data,
    source_text env url pasted [] = (inl (inl t), log0)
    /\ log = log0 ++ [extraction_request (truncate t)]
    /\ fetch env (extraction_request (truncate t)) = Responded r
    /\ ok r = true
    /\ json r = Some result
    /\ get result (js "candidates") = Some c
    /\ truthy c && truthy (candidate_text c) = true
    /\ JSON_parse env (candidate_text c) = Some data
    /\ is_nullish data = false
    /\ d = mapToDraft data (trim url) (iso_date (now env)).
Proof.
  intros X.
  destruct (source_text_never_throws env url pasted []) as [[t|m] [log0 S]].
  2:{ rewrite (extract_without_text _ _ _ S) in X. discriminate. }
  assert (A : exists a, ai_extract env url (truncate t) log0
                        = (a, log0 ++ [extraction_request (truncate t)]))
    by apply ai_extract_log.
  destruct A as [a A].
  assert (Xa : a = inl (inl d) /\ log = log0 ++ [extraction_request (truncate t)]).
  { unfold extract in X. run_monad. rewrite S, A in X.
    destruct a as [[d'|m]|e]; inversion X; auto. }
  destruct Xa as [-> ->].
  unfold ai_extract, await_fetch in A. run_monad.
  destruct (fetch env (extraction_request (truncate t))) as [msg|r] eqn:F;
    [discriminate|].
  destruct (ok r) eqn:K; simpl in A.
  2:{ destruct (json r); discriminate. }
  destruct (json r) as [result|] eqn:J; [|discriminate].
  destruct (get result (js "candidates")) as [c|] eqn:C; [|discriminate].
  destruct (truthy c && truthy (candidate_text c)) eqn:V; [|discriminate].
  destruct (JSON_parse env (candidate_text c)) as [data|] eqn:P;
    [|discriminate].
  rewrite newJobData_spec in A.
  destruct (is_nullish data) eqn:N; [discriminate|].
  exists t, log0, r, result, c, data.
  repeat split; auto. congruence.
Qed.
End Extraction.

(** C7, as the code has it.  The draft of a successful run has status
    "Saved (Not Applied)"; its link is the trimmed URL when the text
    came from a URL and the empty string otherwise; its notes are the
    [summary] of the parsed extraction, or the empty string when that is
    absent (or falsy); platformPosted, referralOptions and personPosted
    are empty strings; and dateApplied is the calendar date of the
    current instant in UTC, the date part of its ISO-8601 form.  For the
    pasted text and the extraction result of Scenario A the draft has
    that status, an empty link and the notes
    "Build distributed systems.". *)
Theorem C7_draft_record (env : Env) (url pasted : jsstring) :
  (forall d log,
      extract env url pasted [] = (inl (inl d), log) ->
      status_ d = js "Saved (Not Applied)"
      /\ link d = (if nonempty (trim url) then trim url else [])
      /\ (exists t log0 r result c extractedData,
             source_text env url pasted [] = (inl (inl t), log0)
             /\ fetch env (extraction_request (truncate t)) = Responded r
             /\ json r = Some result
             /\ get result (js "candidates") = Some c
             /\ JSON_parse env (candidate_text c) = Some extractedData
             /\ notes d = or_empty (own_property extractedData (js "summary")))
      /\ platformPosted d = []
      /\ referralOptions d = []
      /\ personPosted d = []
      /\ dateApplied d = iso_date (now env))
  /\ (forall r result c,
         nonempty (trim url) = false ->
         pasted = scenarioA_text ->
         fetch env (extraction_request scenarioA_text) = Responded r ->
         ok r = true ->
         json r = Some result ->
         get result (js "candidates") = Some c ->
         truthy c && truthy (candidate_text c) = true ->
         JSON_parse env (candidate_text c) = Some scenarioA_fields ->
         exists d,
           extract env url pasted []
           = (inl (inl d), [extraction_request scenarioA_text])
           /\ status_ d = js "Saved (Not Applied)"
           /\ link d = []
           /\ notes d = JStr (js "Build distributed systems.")).
Proof.
  split.
  - intros d log X.
    destruct (extract_draft_inv env _ _ X)
      as (t & log0 & r & result & c & data & S & _ & F & _ & J & C & _ & P & _ & D).
    subst d. simpl.
    split; [reflexivity|]. split.
    { destruct (nonempty (trim url)) eqn:U; [reflexivity|].
      destruct (trim url); [reflexivity|discriminate]. }
    split; [|repeat split].
    exists t, log0, r, result, c, data. repeat split; assumption || reflexivity.
  - intros r result c U -> F K J C V P.
    assert (S : source_text env url scenarioA_text []
                = (inl (inl scenarioA_text), [])).
    { unfold source_text. run_monad. now rewrite U. }
    pose proof (extract_answered env _ _ S F K J) as X.
    rewrite C, V, P in X. simpl in X.
    eexists. split; [exact X|]. simpl.
    split; [reflexivity|]. split; [|reflexivity].
    destruct (trim url); [reflexivity|discriminate].
Qed.

Lemma C7_witness :
  exists d,
    extract Demo.quiet [] scenarioA_text []
    = (inl (inl d), [extraction_request scenarioA_text])
    /\ status_ d = js "Saved (Not Applied)"
    /\ link d = []
    /\ notes d = JStr (js "Build distributed systems.")
    /\ dateApplied d = iso_date (now Demo.quiet).
Proof.
  destruct (C7_draft_record Demo.quiet [] scenarioA_text) as [A B].
  destruct (B {| status := 200; statusText := js "OK"; text := None;
                 json := Some (Demo.envelope Demo.acme_text) |}
              (Demo.envelope Demo.acme_text)
              (own_property (Demo.envelope Demo.acme_text) (js "candidates"))
              eq_refl eq_refl eq_refl eq_refl eq_refl eq_refl eq_refl eq_refl)
    as [d [X [D1 [D2 D3]]]].
  exists d. repeat (split; [assumption|]).
  apply (A d _ X).
Defined.

(** C7 fails as stated on the date: at 2026-11-02T02:00:00Z, which is
    nine in the evening of 1 November in New York, the draft of
    Scenario A is dated 2026-11-02 while the local date is
    2026-11-01. *)
Lemma C7_counterexample :
  exists d log,
    extract Demo.quiet [] scenarioA_text [] = (inl (inl d), log)
    /\ dateApplied d = js "2026-11-02"
    /\ local_today Demo.new_york (now Demo.quiet) = js "2026-11-01"
    /\ dateApplied d <> local_today Demo.new_york (now Demo.quiet).
Proof.
  do 2 eexists. split; [reflexivity|]. split; [reflexivity|].
  split; [reflexivity|]. vm_compute. discriminate.
Qed.

(* ================================================================== *)
(** * The fields of the draft *)

Lemma or_empty_not_nullish v : is_nullish (or_empty v) = false.
Proof.
  unfold or_empty, or_else. destruct (truthy v) eqn:T; [|reflexivity].
  now destruct v.
Qed.

Lemma or_empty_falsy v : truthy v = false -> or_empty v = JStr [].
Proof. intros T. unfold or_empty, or_else. now rewrite T. Qed.

Lemma or_empty_truthy v : truthy v = true -> or_empty v = v.
Proof. intros T. unfold or_empty, or_else. now rewrite T. Qed.

Lemma or_empty_string v : is_string v = true -> is_string (or_empty v) = true.
Proof.
  intros S. unfold or_empty, or_else. now destruct (truthy v).
Qed.

(** C10 fails as stated: when the model answers
    [{"companyName":42,"role":"Engineer"}], the draft's companyName is
    the number 42, not a string. *)
Lemma C10_counterexample :
  exists d log,
    extract Demo.loose [] scenarioA_text [] = (inl (inl d), log)
    /\ companyName d = JNum (Finite false 42 0)
    /\ is_string (companyName d) = false.
Proof. do 2 eexists. repeat split; reflexivity. Qed.

(* ================================================================== *)
(** * The proxy route *)

Lemma occurs_in_middle (s before after : jsstring) :
  Server.occurs_in s (before ++ s ++ after).
Proof. now exists before, after. Qed.

(** C9.  The [/proxy] route.  Without a [url] query parameter (or with
    an empty one) the route answers 400 with a JSON object that has an
    [error] field, and fetches nothing.  Otherwise it makes one upstream
    request, for that URL and with a browser's User-Agent.  If the
    upstream answers 2xx and its body can be read, the route answers 200
    with that body as it is.  If the upstream answers with another
    status, the route answers 500 with a JSON object that has an [error]
    field and a [details] field in which the upstream status occurs.  If
    the fetch fails, or the body cannot be read, the route answers 500
    with [error] and the message of the failure as [details]. *)
Theorem C9_proxy_route (fetch : Server.upstream_request -> Server.upstream)
        (urlToFetch : option Server.query_value) :
  (Server.missing urlToFetch = true ->
   exists message,
     Server.proxy fetch urlToFetch
     = ({| Server.code := 400;
           Server.content := Server.Json (JObj [(js "error", JStr message)]) |},
        []))
  /\ (forall u,
         urlToFetch = Some u -> Server.missing urlToFetch = false ->
         let req := {| Server.target := u;
                       Server.headers := [(js "User-Agent", Server.userAgent)] |} in
         let reply := fst (Server.proxy fetch urlToFetch) in
         snd (Server.proxy fetch urlToFetch) = [req]
         /\ (forall r html,
                fetch req = Server.Answered r ->
                Server.upstream_ok r = true ->
                Server.upstream_text r = inl html ->
                reply = {| Server.code := 200; Server.content := Server.Sent html |})
         /\ (forall r,
                fetch req = Server.Answered r ->
                Server.upstream_ok r = false ->
                exists message details,
                  reply = {| Server.code := 500;
                             Server.content :=
                               Server.Json (JObj [ (js "error", JStr message);
                                                   (js "details", JStr details) ]) |}
                  /\ Server.occurs_in (of_Z (Server.upstream_status r)) details)
         /\ (forall failure,
                fetch req = Server.Failed failure
                \/ (exists r, fetch req = Server.Answered r
                              /\ Server.upstream_ok r = true
                              /\ Server.upstream_text r = inr failure) ->
                exists message,
                  reply = {| Server.code := 500;
                             Server.content :=
                               Server.Json (JObj [ (js "error", JStr message);
                                                   (js "details", JStr failure) ]) |})).
Proof.
  split.
  - intros M. unfold Server.proxy.
    destruct urlToFetch as [u|]; [rewrite M|]; eauto.
  - intros u -> M req reply. subst reply. unfold Server.proxy.
    rewrite M. fold req. simpl.
    split; [reflexivity|]. split; [|split].
    + intros r html F K T. now rewrite F, K, T.
    + intros r F K. rewrite F, K. simpl. unfold Server.on_error.
      do 2 eexists. split; [reflexivity|].
      unfold Server.failed_to_fetch. apply occurs_in_middle.
    + intros failure [F|[r [F [K T]]]].
      * rewrite F. unfold Server.on_error. eauto.
      * rewrite F, K, T. unfold Server.on_error. simpl. eauto.
Qed.

Lemma C9_witness :
  Server.proxy (fun _ => Demo.upstream_page) None
  = ({| Server.code := 400;
        Server.content :=
          Server.Json (JObj [(js "error", JStr Server.url_required)]) |}, [])
  /\ fst (Server.proxy (fun _ => Demo.upstream_page) (Some Demo.target_url))
     = {| Server.code := 200; Server.content := Server.Sent (js "<html></html>") |}
  /\ (exists message details,
         fst (Server.proxy (fun _ => Demo.upstream_404) (Some Demo.target_url))
         = {| Server.code := 500;
              Server.content :=
                Server.Json (JObj [ (js "error", JStr message);
                                    (js "details", JStr details) ]) |}
         /\ Server.occurs_in (js "404") details)
  /\ (exists message,
         fst (Server.proxy (fun _ => Demo.upstream_down) (Some Demo.target_url))
         = {| Server.code := 500;
              Server.content :=
                Server.Json
                  (JObj [ (js "error", JStr message);
                          (js "details",
                           JStr (js "getaddrinfo ENOTFOUND jobs.example")) ]) |}).
Proof.
  split; [|split; [|split]].
  - destruct (C9_proxy_route (fun _ => Demo.upstream_page) None) as [A _].
    destruct (A eq_refl) as [message E]. rewrite E.
    injection E as <-. reflexivity.
  - destruct (C9_proxy_route (fun _ => Demo.upstream_page) (Some Demo.target_url))
      as [_ B].
    destruct (B _ eq_refl eq_refl) as [_ [B1 _]].
    exact (B1 _ _ eq_refl eq_refl eq_refl).
  - destruct (C9_proxy_route (fun _ => Demo.upstream_404) (Some Demo.target_url))
      as [_ B].
    destruct (B _ eq_refl eq_refl) as [_ [_ [B2 _]]].
    exact (B2 _ eq_refl eq_refl).
  - destruct (C9_proxy_route (fun _ => Demo.upstream_down) (Some Demo.target_url))
      as [_ B].
    destruct (B _ eq_refl eq_refl) as [_ [_ [_ B3]]].
    exact (B3 _ (or_introl eq_refl)).
Defined.

(* ================================================================== *)
(** * Further properties of the pipeline *)

Section Discipline.
Variable env : Env.

(** The first phase issues no request, or the one request to the
    proxy. *)
Lemma source_text_requests url pasted r log :
  source_text env url pasted [] = (r, log) ->
  log = []
  \/ (nonempty (trim url) = true
      /\ exists encoded,
           encodeURIComponent env url = Some encoded
           /\ log = [proxy_request env encoded]).
Proof.
  unfold source_text. run_monad. intros H.
  destruct (nonempty (trim url)) eqn:U.
  - destruct (encodeURIComponent env url) as [encoded|] eqn:E.
    + right. split; [reflexivity|]. exists encoded. split; [reflexivity|].
      destruct (text_from_url_log env url [] E) as [x T]. simpl in T.
      rewrite T in H. destruct x; now inversion H.
    + left. rewrite (text_from_url_unencodable env url [] E) in H.
      now inversion H.
  - left. destruct (nonempty (trim pasted)); now inversion H.
Qed.

(** What a successful URL path went through. *)
Lemma text_from_url_inv url t log log' :
  text_from_url env url log = (inl t, log') ->
  exists encoded r html selected,
    encodeURIComponent env url = Some encoded
    /\ fetch env (proxy_request env encoded) = Responded r
    /\ ok r = true
    /\ text r = Some html
    /\ selectPrimaryContent env
         (remove_all (matches env) removed_selector (parseFromString env html))
       = inl (Some selected)
    /\ t = trim (collapse selected)
    /\ nonempty t = true
    /\ log' = log ++ [proxy_request env encoded].
Proof.
  unfold text_from_url, await_fetch. run_monad.
  destruct (encodeURIComponent env url) as [encoded|]; [|discriminate].
  destruct (fetch env (proxy_request env encoded)) as [msg|r] eqn:F;
    [discriminate|].
  destruct (ok r) eqn:K; [|discriminate].
  destruct (text r) as [html|] eqn:T; [|discriminate].
  rewrite select_text_pure.
  destruct (selectPrimaryContent env _) as [[selected|]|e] eqn:P;
    try discriminate.
  destruct (nonempty (trim (trim (collapse selected)))) eqn:N;
    [|discriminate].
  intros H. injection H as Ht Hl. subst t log'.
  rewrite trim_idempotent in N.
  exists encoded, r, html, selected. repeat split; auto.
Qed.

(** The text the first phase delivers is not empty and does not start
    with whitespace. *)
Lemma source_text_not_blank url pasted t log :
  source_text env url pasted [] = (inl (inl t), log) ->
  nonempty t = true /\ no_leading_ws t = true.
Proof.
  intros S. split.
  - revert S. unfold source_text. run_monad.
    destruct (nonempty (trim url)) eqn:U.
    + destruct (text_from_url env url []) as [[t'|e] l] eqn:T;
        [|discriminate].
      intros H. injection H as <- _.
      destruct (text_from_url_inv _ _ T)
        as (? & ? & ? & ? & _ & _ & _ & _ & _ & _ & N & _).
      exact N.
    + destruct (nonempty (trim pasted)) eqn:P; [|discriminate].
      intros H. now injection H as <- _.
  - destruct (source_text_cases env _ _ S) as [[_ [x ->]]|[_ [-> _]]];
      apply trim_no_leading.
Qed.

(** The only message the second [try] block ends with, short of an
    exception, is that of its [else] branch. *)
Lemma ai_extract_message url t log m log' :
  ai_extract env url t log = (inl (inr m), log') -> m = AiFormatUnexpected.
Proof.
  unfold ai_extract, await_fetch. run_monad.
  destruct (fetch env (extraction_request t)) as [msg|r]; [discriminate|].
  destruct (ok r); simpl.
  - destruct (json r) as [result|]; [|discriminate].
    destruct (get result _) as [c|]; [|discriminate].
    destruct (truthy c && truthy (candidate_text c)).
    + destruct (JSON_parse env _) as [data|]; [|discriminate].
      rewrite newJobData_spec. destruct (is_nullish data); discriminate.
    + intros H. now inversion H.
  - destruct (json r); discriminate.
Qed.

(** The messages a run can end with, and where each comes from. *)
Lemma extract_message_cases url pasted m log :
  extract env url pasted [] = (inl (inr m), log) ->
  (m = ProvideUrlOrText
   /\ nonempty (trim url) = false /\ nonempty (trim pasted) = false
   /\ log = [])
  \/ (exists e, m = ErrorProcessingUrl e /\ nonempty (trim url) = true)
  \/ m = AiFormatUnexpected
  \/ (exists e, m = AiExtractionError e).
Proof.
  intros X.
  destruct (source_text_never_throws env url pasted []) as [[t|m'] [log0 S]].
  - destruct (ai_extract_log env url (truncate t) log0) as [a A].
    unfold extract in X. run_monad. rewrite S, A in X.
    destruct a as [[d|m']|e]; inversion X; subst.
    + right. right. left. exact (ai_extract_message _ _ _ A).
    + right. right. right. eauto.
  - rewrite (extract_without_text env _ _ S) in X. inversion X; subst.
    revert S. unfold source_text. run_monad.
    destruct (nonempty (trim url)) eqn:U.
    + destruct (text_from_url env url []) as [[t|e] l];
        intros S; inversion S. right. left. eauto.
    + destruct (nonempty (trim pasted)) eqn:P; intros S; inversion S.
      left. auto.
Qed.

(** The messages of a failed run: never the empty message. *)
Lemma extract_message url pasted m log :
  extract env url pasted [] = (inl (inr m), log) -> m <> NoMessage.
Proof.
  intros X.
  destruct (extract_message_cases _ _ X)
    as [[-> _]|[[e [-> _]]|[->|[e ->]]]]; discriminate.
Qed.
End Discipline.

Lemma truncate_not_blank t :
  nonempty t = true -> no_leading_ws t = true ->
  nonempty (truncate t) = true /\ nonempty (trim (truncate t)) = true.
Proof.
  intros N L.
  assert (H : exists c rest, truncate t = c :: rest /\ is_ws c = false).
  { destruct t as [|c t]; [discriminate|].
    simpl in L. apply negb_true_iff in L.
    unfold truncate, substring0.
    destruct (len (c :: t) >? 28000)%Z; [|eauto].
    replace (Z.to_nat 28000) with (S (Z.to_nat 27999)) by lia.
    rewrite firstn_cons. eauto. }
  destruct H as [c [rest [E W]]]. rewrite E. split; [reflexivity|].
  unfold trim. simpl. rewrite W.
  destruct (trimEnd_split (c :: rest)) as [q Q].
  destruct (trimEnd (c :: rest)) as [|c' r'] eqn:T; [|reflexivity].
  exfalso. unfold trimEnd in T.
  apply (f_equal (@rev unit16)) in T. rewrite rev_involutive in T.
  simpl in T.
  assert (no_leading_ws (rev (rev rest ++ [c])) = true).
  { rewrite rev_app_distr. simpl. now rewrite W. }
  destruct (trimStart_split (rev rest ++ [c])) as [p [Ep Wp]].
  rewrite T, app_nil_r in Ep.
  assert (In c p) by (rewrite <- Ep; apply in_or_app; right; now left).
  rewrite forallb_forall in Wp. rewrite (Wp c) in W by assumption.
  discriminate.
Qed.

(** X1.  Request discipline.  A run issues at most two requests: at
    most one to the proxy and at most one to the extraction service,
    the proxy first; no request is repeated.  Without a URL (blank once
    trimmed) the proxy is not contacted at all. *)
Theorem X1_request_discipline (env : Env) (url pasted : jsstring) :
  let log := snd (extract env url pasted []) in
  (log = []
   \/ (exists encoded, log = [proxy_request env encoded])
   \/ (exists t, log = [extraction_request t])
   \/ (exists encoded t,
          log = [proxy_request env encoded; extraction_request t]))
  /\ (nonempty (trim url) = false -> forallb is_extraction_request log = true)
  /\ (List.length log <= 2)%nat.
Proof.
  intros log. subst log.
  destruct (source_text_never_throws env url pasted []) as [[t|m] [log0 S]].
  - destruct (extract_from_text env _ _ S) as [o X]. rewrite X. simpl.
    destruct (source_text_requests env _ _ S) as [->|[U [encoded [_ ->]]]];
      simpl.
    + split; [right; right; left; eauto|]. split; [reflexivity|lia].
    + split; [right; right; right; eauto|]. split; [congruence|lia].
  - rewrite (extract_without_text env _ _ S). simpl.
    destruct (source_text_requests env _ _ S) as [->|[U [encoded [_ ->]]]];
      simpl.
    + split; [now left|]. split; [reflexivity|lia].
    + split; [right; left; eauto|]. split; [congruence|lia].
Qed.

(** X2.  The extraction service is never asked about an empty or blank
    text: whatever request for extraction a run issues carries a text
    that is not empty, does not start with whitespace, is not blank, and
    has at most 28,000 characters. *)
Theorem X2_extraction_text_not_blank (env : Env) (url pasted t : jsstring) :
  In (extraction_request t) (snd (extract env url pasted [])) ->
  nonempty t = true
  /\ no_leading_ws t = true
  /\ nonempty (trim t) = true
  /\ (len t <= 28000)%Z.
Proof.
  intros I.
  destruct (source_text_never_throws env url pasted []) as [[t0|m] [log0 S]].
  - destruct (extract_from_text env _ _ S) as [o X]. rewrite X in I.
    simpl in I.
    assert (E : t = truncate t0).
    { apply in_app_or in I as [I|[I|[]]].
      - destruct (source_text_requests env _ _ S) as [->|[_ [e [_ ->]]]];
          [destruct I|destruct I as [I|[]]; discriminate].
      - symmetry. apply extraction_payload_inj.
        unfold extraction_request in I. congruence. }
    subst t. destruct (source_text_not_blank env _ _ S) as [N L].
    destruct (truncate_not_blank t0 N L) as [N' B].
    assert (L' : no_leading_ws (truncate t0) = true).
    { unfold truncate, substring0.
      destruct (len t0 >? 28000)%Z; [now apply no_leading_firstn|exact L]. }
    repeat split; auto using len_truncate.
  - rewrite (extract_without_text env _ _ S) in I. simpl in I.
    destruct (source_text_requests env _ _ S) as [->|[_ [e [_ ->]]]];
      [destruct I|destruct I as [I|[]]; discriminate].
Qed.

Lemma X2_witness :
  nonempty scenarioA_text = true /\ (len scenarioA_text <= 28000)%Z.
Proof.
  destruct (X2_extraction_text_not_blank Demo.quiet [] scenarioA_text
              scenarioA_text (or_introl eq_refl)) as [A [_ [_ B]]].
  split; assumption.
Defined.

(** X4.  The link of a draft.  The draft's link has no whitespace at
    either end, and it is not empty exactly when the text came from the
    URL; so the table shows a link for the jobs extracted from a URL
    and for no other extracted job. *)
Theorem X4_draft_link (env : Env) (url pasted : jsstring) (d : job)
        (log : list request) :
  extract env url pasted [] = (inl (inl d), log) ->
  link d = trim url
  /\ no_leading_ws (link d) = true
  /\ no_trailing_ws (link d) = true
  /\ (nonempty (link d) = true <->
      exists encoded, In (proxy_request env encoded) log).
Proof.
  intros X.
  destruct (extract_draft_inv env _ _ X)
    as (t & log0 & r & result & c & data & S & L & _ & _ & _ & _ & _ & _ & _ & D).
  assert (E : link d = trim url) by now subst d.
  rewrite E. split; [reflexivity|].
  split; [apply trim_no_leading|]. split; [apply trim_no_trailing|].
  subst log. split.
  - intros N. destruct (source_text_cases env _ _ S) as [[U _]|[U _]];
      [|congruence].
    destruct (source_text_requests env _ _ S) as [->|[_ [e [_ ->]]]].
    + exfalso. revert S. unfold source_text. run_monad. rewrite U.
      destruct (text_from_url env url []) as [[t'|e] l] eqn:T;
        [|discriminate].
      destruct (text_from_url_inv env _ _ T)
        as (? & ? & ? & ? & _ & _ & _ & _ & _ & _ & _ & L).
      intros H. injection H as _ H. subst l. discriminate.
    + exists e. now left.
  - intros [e I]. apply in_app_or in I as [I|[I|[]]]; [|discriminate].
    destruct (source_text_requests env _ _ S) as [->|[U _]];
      [destruct I|exact U].
Qed.

Lemma X4_witness :
  exists d,
    link d = js "https://jobs.example/42"
    /\ no_trailing_ws (link d) = true.
Proof.
  assert (X : extract Demo.online (js " https://jobs.example/42 ") [] []
              = (inl (inl (mapToDraft scenarioA_fields Demo.job_url
                                      (iso_date (now Demo.online)))),
                 [proxy_request Demo.online (js " https://jobs.example/42 ");
                  extraction_request scenarioA_text])) by reflexivity.
  destruct (X4_draft_link Demo.online (js " https://jobs.example/42 ") [] X)
    as [A [_ [B _]]].
  eexists. split; [exact A|exact B].
Defined.

(** X5.  The button and the handler agree.  The Extract button of the
    dialog is disabled while a run is going on and when both fields are
    blank; so a run started from an enabled button never ends with the
    message asking for an input, and a run that ends with that message
    was started with both fields blank. *)
Theorem X5_button_guard (env : Env) (st : state) :
  (Modal.extractDisabled st = false ->
   extractionError (fst (handleExtractDetails env st)) <> ProvideUrlOrText)
  /\ (extractionError (fst (handleExtractDetails env st)) = ProvideUrlOrText ->
      nonempty (trim (jobPostUrl st)) = false
      /\ nonempty (trim (jobDescriptionText st)) = false
      /\ snd (handleExtractDetails env st) = []).
Proof.
  assert (K : extractionError (fst (handleExtractDetails env st))
              = ProvideUrlOrText ->
              nonempty (trim (jobPostUrl st)) = false
              /\ nonempty (trim (jobDescriptionText st)) = false
              /\ snd (handleExtractDetails env st) = []).
  { destruct (extract_never_throws env (jobPostUrl st) (jobDescriptionText st))
      as [[d|m] [log X]].
    - rewrite (handler_reviewing env st X). discriminate.
    - rewrite (handler_failed env st X). simpl. intros ->.
      destruct (extract_message_cases env _ _ X)
        as [[_ H]|[[e [H _]]|[H|[e H]]]]; try discriminate. exact H. }
  split; [|exact K].
  intros D H. destruct (K H) as [U [P _]].
  unfold Modal.extractDisabled in D. rewrite U, P in D.
  now rewrite orb_true_r in D.
Qed.

Lemma X1_witness :
  forallb is_extraction_request
          (snd (extract Demo.quiet [] scenarioA_text [])) = true.
Proof.
  destruct (X1_request_discipline Demo.quiet [] scenarioA_text) as [_ [A _]].
  apply A. reflexivity.
Defined.

Lemma X5_witness :
  extractionError
    (fst (handleExtractDetails Demo.quiet (Demo.typed [] scenarioA_text)))
  <> ProvideUrlOrText.
Proof.
  destruct (X5_button_guard Demo.quiet (Demo.typed [] scenarioA_text))
    as [A _].
  apply A. reflexivity.
Defined.

(* ================================================================== *)
(** * Whitespace normalisation, further *)

(** A string without two whitespace characters in a row is left as it
    is by the replacement. *)
Lemma collapse_fixed s : no_ws_run s = true -> collapse s = s.
Proof.
  unfold collapse. induction s as [|c r IH]; [reflexivity|].
  rewrite no_ws_run_cons. intros H.
  apply andb_true_iff in H as [H R]. simpl.
  destruct (is_ws c) eqn:W.
  - simpl in H. destruct r as [|c' r']; [reflexivity|].
    simpl in H. apply negb_true_iff in H. rewrite H.
    now rewrite (IH R).
  - now rewrite (IH R).
Qed.

Lemma non_ws_replace s : forall in_run,
  non_ws (replace_ws_runs in_run s) = non_ws s.
Proof.
  unfold non_ws. induction s as [|c r IH]; intros in_run; [reflexivity|].
  cbn [replace_ws_runs filter]. destruct (is_ws c) eqn:W; cbn [negb].
  - destruct in_run; [exact (IH true)|].
    destruct r as [|c' r']; [cbn [filter]; now rewrite W|].
    destruct (is_ws c') eqn:W'.
    + cbn [filter]. change (is_ws 32%N) with true. cbn [negb].
      exact (IH true).
    + cbn [filter]. rewrite W. cbn [negb]. exact (IH false).
  - cbn [filter]. rewrite W. cbn [negb]. f_equal. exact (IH false).
Qed.

Lemma len_replace s : forall in_run,
  (len (replace_ws_runs in_run s) <= len s)%Z.
Proof.
  unfold len. induction s as [|c r IH]; intros in_run; [simpl; lia|].
  cbn [replace_ws_runs].
  destruct (is_ws c).
  - destruct in_run.
    + specialize (IH true). simpl List.length. lia.
    + destruct r as [|c' r']; [simpl; lia|].
      destruct (is_ws c').
      * specialize (IH true). simpl List.length in *. lia.
      * specialize (IH false). simpl List.length in *. lia.
  - specialize (IH false). simpl List.length. lia.
Qed.

Lemma non_ws_all_ws p : forallb is_ws p = true -> non_ws p = [].
Proof.
  unfold non_ws. induction p as [|c p IH]; [reflexivity|].
  simpl. intros H. apply andb_true_iff in H as [W P].
  rewrite W. simpl. auto.
Qed.

Lemma non_ws_app a b : non_ws (a ++ b) = non_ws a ++ non_ws b.
Proof. apply filter_app. Qed.

(** What [trimEnd] removes is a suffix made of whitespace. *)
Lemma trimEnd_split_ws s :
  exists q, s = trimEnd s ++ q /\ forallb is_ws q = true.
Proof.
  unfold trimEnd. destruct (trimStart_split (rev s)) as [p [E W]].
  exists (rev p). split.
  - rewrite <- rev_app_distr, <- E. now rewrite rev_involutive.
  - apply forallb_forall. intros c I. apply in_rev in I.
    rewrite forallb_forall in W. auto.
Qed.

Lemma non_ws_trim s : non_ws (trim s) = non_ws s.
Proof.
  unfold trim.
  destruct (trimStart_split s) as [p [E W]].
  destruct (trimEnd_split_ws (trimStart s)) as [q [E' W']].
  rewrite E at 2. rewrite E' at 2.
  rewrite !non_ws_app, (non_ws_all_ws _ W), (non_ws_all_ws _ W').
  now rewrite app_nil_r.
Qed.

(** X6.  Normalising twice is normalising once: the text that line 251
    produces is left unchanged by the same replacement and trim, so the
    second [trim] of line 253 tests the text itself. *)
Theorem X6_normalisation_idempotent (s : jsstring) :
  trim (collapse (trim (collapse s))) = trim (collapse s)
  /\ collapse (trim (collapse s)) = trim (collapse s)
  /\ trim (trim (collapse s)) = trim (collapse s).
Proof.
  assert (C : collapse (trim (collapse s)) = trim (collapse s)).
  { apply collapse_fixed, no_ws_run_trim, no_ws_run_collapse. }
  split; [|split].
  - rewrite C. apply trim_idempotent.
  - exact C.
  - apply trim_idempotent.
Qed.

(** X7.  Normalisation only touches whitespace.  The characters of the
    normalised text that are not whitespace are those of the original
    text, in the same order; and the normalised text is never longer
    than the original. *)
Theorem X7_normalisation_keeps_content (s : jsstring) :
  non_ws (trim (collapse s)) = non_ws s
  /\ (len (trim (collapse s)) <= len s)%Z.
Proof.
  split.
  - rewrite non_ws_trim. apply non_ws_replace.
  - pose proof (len_trim_le (collapse s)).
    pose proof (len_replace s false). unfold collapse in *. lia.
Qed.

(* ================================================================== *)
(** * Sorting and searching the table *)

(** X8.  The three-state sort of a column.  Clicking a column that is
    not the sorted one sorts it ascending; a second click sorts it
    descending; a third click goes back to the initial order, newest
    application first, whatever the column.  A click yields an
    ascending order exactly when the column clicked was not the sorted
    one: while the table is sorted by date, clicking the date column
    never gives the oldest-first order. *)
Theorem X8_requestSort (sortConfig : Listing.SortConfig) (k : jsstring) :
  let click c := Listing.requestSort c k in
  (Listing.key sortConfig <> k ->
   click sortConfig
   = {| Listing.key := k; Listing.direction := Listing.ascending |}
   /\ click (click sortConfig)
      = {| Listing.key := k; Listing.direction := Listing.descending |}
   /\ click (click (click sortConfig)) = Listing.initialSortConfig)
  /\ (Listing.direction (click sortConfig) = Listing.ascending <->
      Listing.key sortConfig <> k)
  /\ (Listing.key sortConfig = k ->
      Listing.direction sortConfig = Listing.descending ->
      click sortConfig = Listing.initialSortConfig).
Proof.
  intros click. subst click. unfold Listing.requestSort.
  destruct sortConfig as [k0 d]. simpl.
  destruct (JsString.eqb k0 k) eqn:E.
  - apply eqb_eq in E. subst k0. split; [congruence|]. split.
    + destruct d; simpl; split; congruence.
    + intros _ ->. reflexivity.
  - assert (N : k0 <> k) by (intros ->; rewrite eqb_refl in E; discriminate).
    simpl. rewrite !eqb_refl. simpl. split; [auto|]. split.
    + split; auto.
    + congruence.
Qed.

Lemma X8_witness :
  Listing.requestSort
    (Listing.requestSort
       (Listing.requestSort Listing.initialSortConfig (js "companyName"))
       (js "companyName"))
    (js "companyName")
  = Listing.initialSortConfig
  /\ Listing.requestSort Listing.initialSortConfig (js "dateApplied")
     = Listing.initialSortConfig.
Proof.
  destruct (X8_requestSort Listing.initialSortConfig (js "companyName"))
    as [A _].
  destruct (X8_requestSort Listing.initialSortConfig (js "dateApplied"))
    as [_ [_ B]].
  split.
  - apply A. vm_compute. discriminate.
  - apply B; reflexivity.
Defined.

Lemma str_lt_asym a : forall b,
  Listing.str_lt a b = true -> Listing.str_lt b a = false.
Proof.
  induction a as [|x a IH]; intros [|y b]; simpl; try congruence.
  destruct (N.ltb_spec x y), (N.ltb_spec y x); try congruence; try lia.
  apply IH.
Qed.

Lemma str_lt_total a : forall b,
  Listing.str_lt a b = false -> Listing.str_lt b a = false -> a = b.
Proof.
  induction a as [|x a IH]; intros [|y b]; simpl; try congruence.
  destruct (N.ltb_spec x y), (N.ltb_spec y x); try congruence.
  intros A B. f_equal; [lia|now apply IH].
Qed.

Lemma str_lt_irrefl a : Listing.str_lt a a = false.
Proof.
  induction a as [|x a IH]; [reflexivity|]. simpl.
  now rewrite N.ltb_irrefl.
Qed.

Lemma num_lt_asym a b :
  Listing.num_lt a b = true -> Listing.num_lt b a = false.
Proof.
  destruct a as [|na|na ma ea], b as [|nb|nb mb eb]; simpl;
    try congruence.
  - destruct na, nb; simpl; congruence.
  - destruct na, nb; simpl; congruence.
  - destruct na, nb; simpl; congruence.
  - rewrite (Z.min_comm eb ea). intros H.
    apply Z.ltb_lt in H. apply Z.ltb_ge. lia.
Qed.

Section Comparison.
Variable toLowerCase : jsstring -> jsstring.
Variable less : Listing.cell -> Listing.cell -> bool.

Lemma lt_asym x y :
  Listing.comparable x y = true ->
  Listing.nullish x = false -> Listing.nullish y = false ->
  Listing.lt toLowerCase less x y = true ->
  Listing.lt toLowerCase less y x = false.
Proof.
  intros C Nx Ny.
  destruct x as [mx|vx], y as [my|vy]; simpl in *.
  - apply num_lt_asym.
  - rewrite Ny in C. discriminate.
  - rewrite Nx in C. destruct vx; discriminate.
  - destruct vx, vy; simpl in *; try discriminate.
    apply str_lt_asym.
Qed.
End Comparison.

(** X9.  Direction and missing values.  Reversing the direction
    reverses the result of every comparison.  A job that has no value
    (null, undefined or no such field) for the sorted column is put
    after every job that has one when the order is ascending, and
    before it when descending; two such jobs compare as equal. *)
Theorem X9_sort_direction_and_nulls
        (toLowerCase : jsstring -> jsstring)
        (less : Listing.cell -> Listing.cell -> bool)
        (k : jsstring) (a b : Listing.row) :
  let up := {| Listing.key := k; Listing.direction := Listing.ascending |} in
  let down := {| Listing.key := k; Listing.direction := Listing.descending |} in
  let compare := Listing.compareJobs toLowerCase less in
  compare down a b = (- compare up a b)%Z
  /\ (Listing.nullish (Listing.at_key k a) = true ->
      Listing.nullish (Listing.at_key k b) = false ->
      compare up a b = 1%Z /\ compare up b a = (-1)%Z)
  /\ (Listing.nullish (Listing.at_key k a) = true ->
      Listing.nullish (Listing.at_key k b) = true ->
      compare up a b = 0%Z /\ compare down a b = 0%Z).
Proof.
  intros up down compare. subst up down compare.
  unfold Listing.compareJobs. simpl.
  split; [|split].
  - destruct (Listing.nullish (Listing.at_key k a)),
             (Listing.nullish (Listing.at_key k b)); simpl; try reflexivity.
    destruct (Listing.lt _ _ (Listing.at_key k a) (Listing.at_key k b));
      [reflexivity|].
    destruct (Listing.lt _ _ (Listing.at_key k b) (Listing.at_key k a));
      reflexivity.
  - intros -> ->. now split.
  - intros -> ->. now split.
Qed.

Lemma X9_witness :
  Listing.compareJobs (fun s => s) (fun _ _ => false)
    {| Listing.key := js "role"; Listing.direction := Listing.ascending |}
    [(js "companyName", Listing.Js (JStr (js "Acme")))]
    [(js "role", Listing.Js (JStr (js "Engineer")))]
  = 1%Z.
Proof.
  destruct (X9_sort_direction_and_nulls (fun s => s) (fun _ _ => false)
              (js "role")
              [(js "companyName", Listing.Js (JStr (js "Acme")))]
              [(js "role", Listing.Js (JStr (js "Engineer")))])
    as [_ [A _]].
  apply A; reflexivity.
Defined.

(** Swapping two jobs whose values are comparable negates the result of
    the comparison. *)
Lemma compareJobs_swap
      (toLowerCase : jsstring -> jsstring)
      (less : Listing.cell -> Listing.cell -> bool)
      (sortConfig : Listing.SortConfig) (a b : Listing.row) :
  Listing.comparable (Listing.at_key (Listing.key sortConfig) a)
                     (Listing.at_key (Listing.key sortConfig) b) = true ->
  Listing.compareJobs toLowerCase less sortConfig b a
  = (- Listing.compareJobs toLowerCase less sortConfig a b)%Z.
Proof.
  unfold Listing.compareJobs.
  set (valA := Listing.at_key (Listing.key sortConfig) a).
  set (valB := Listing.at_key (Listing.key sortConfig) b).
  intros C.
  destruct (Listing.nullish valA) eqn:Na, (Listing.nullish valB) eqn:Nb;
    simpl;
    try (destruct (Listing.is_ascending (Listing.direction sortConfig));
         reflexivity).
  destruct (Listing.lt toLowerCase less valA valB) eqn:L1.
  - rewrite (lt_asym toLowerCase less valA valB C Na Nb L1).
    destruct (Listing.is_ascending _); reflexivity.
  - destruct (Listing.lt toLowerCase less valB valA);
      [destruct (Listing.is_ascending _)|]; reflexivity.
Qed.

(** X10.  A consistent order on strings and on timestamps.  When the
    two values of the sorted column are two strings, two timestamps, or
    include a null, swapping the two jobs negates the result of the
    comparison.  Two strings compare as equal exactly when their
    lower-case forms are the same: the order ignores case. *)
Theorem X10_sort_consistent
        (toLowerCase : jsstring -> jsstring)
        (less : Listing.cell -> Listing.cell -> bool)
        (sortConfig : Listing.SortConfig) (a b : Listing.row) :
  let valA := Listing.at_key (Listing.key sortConfig) a in
  let valB := Listing.at_key (Listing.key sortConfig) b in
  let compare := Listing.compareJobs toLowerCase less sortConfig in
  (Listing.comparable valA valB = true ->
   compare b a = (- compare a b)%Z)
  /\ (forall x y,
         valA = Listing.Js (JStr x) -> valB = Listing.Js (JStr y) ->
         (compare a b = 0%Z <-> toLowerCase x = toLowerCase y)).
Proof.
  intros valA valB compare. subst compare. split.
  - apply compareJobs_swap.
  - unfold Listing.compareJobs. fold valA valB.
    intros x y -> ->. simpl.
    destruct (Listing.str_lt (toLowerCase x) (toLowerCase y)) eqn:L1;
      [|destruct (Listing.str_lt (toLowerCase y) (toLowerCase x)) eqn:L2].
    + split.
      * destruct (Listing.is_ascending _); discriminate.
      * intros E. rewrite E, str_lt_irrefl in L1. discriminate.
    + split.
      * destruct (Listing.is_ascending _); discriminate.
      * intros E. rewrite E, str_lt_irrefl in L2. discriminate.
    + split; [|reflexivity]. intros _. now apply str_lt_total.
Qed.

Lemma X10_witness :
  let compare :=
    Listing.compareJobs (fun s => s) (fun _ _ => false)
      {| Listing.key := js "companyName";
         Listing.direction := Listing.ascending |} in
  let acme := [(js "companyName", Listing.Js (JStr (js "Acme")))] in
  let zeta := [(js "companyName", Listing.Js (JStr (js "Zeta")))] in
  compare zeta acme = (- compare acme zeta)%Z
  /\ compare acme acme = 0%Z.
Proof.
  intros compare acme zeta.
  destruct (X10_sort_consistent (fun s => s) (fun _ _ => false)
              {| Listing.key := js "companyName";
                 Listing.direction := Listing.ascending |} acme zeta)
    as [A _].
  destruct (X10_sort_consistent (fun s => s) (fun _ _ => false)
              {| Listing.key := js "companyName";
                 Listing.direction := Listing.ascending |} acme acme)
    as [_ B].
  split; [exact (A eq_refl)|].
  apply (B (js "Acme") (js "Acme") eq_refl eq_refl). reflexivity.
Defined.

Lemma startsWith_spec s : forall t,
  Listing.startsWith s t = true <-> exists rest, s = t ++ rest.
Proof.
  induction s as [|d s IH]; intros [|c t]; simpl.
  - split; [exists []; reflexivity|reflexivity].
  - split; [discriminate|intros [rest H]; discriminate].
  - split; [exists (d :: s); reflexivity|reflexivity].
  - rewrite andb_true_iff, IH, N.eqb_eq. split.
    + intros [-> [rest ->]]. now exists rest.
    + intros [rest H]. injection H as -> ->. split; [reflexivity|eauto].
Qed.

(** [includes] decides whether a string occurs in another. *)
Lemma includes_spec s : forall t,
  Listing.includes s t = true <-> Server.occurs_in t s.
Proof.
  unfold Server.occurs_in.
  induction s as [|d s IH]; intros t.
  - cbn [Listing.includes]. rewrite orb_false_r, startsWith_spec. split.
    + intros [rest H]. exists [], rest. exact H.
    + intros [before [after H]]. destruct before; [|discriminate].
      exists after. exact H.
  - cbn [Listing.includes]. rewrite orb_true_iff, startsWith_spec, IH. split.
    + intros [[rest H]|[before [after H]]].
      * exists [], rest. exact H.
      * exists (d :: before), after. simpl. now f_equal.
    + intros [[|b before] [after H]].
      * left. exists after. exact H.
      * right. injection H as -> H. eauto.
Qed.

Lemma includes_trans s t u :
  Listing.includes s t = true -> Listing.includes t u = true ->
  Listing.includes s u = true.
Proof.
  rewrite !includes_spec. intros [a [b ->]] [c [d ->]].
  exists (a ++ c), (d ++ b). now rewrite !app_assoc.
Qed.

Lemma filter_narrow (A : Type) (p q : A -> bool) (l : list A) :
  (forall x, q x = true -> p x = true) ->
  filter q (filter p l) = filter q l.
Proof.
  intros H. induction l as [|x l IH]; [reflexivity|].
  simpl. destruct (p x) eqn:P.
  - simpl. now rewrite IH.
  - destruct (q x) eqn:Q; [|exact IH].
    rewrite (H x Q) in P. discriminate.
Qed.

(** X11.  Refining a search narrows it.  If the lower-case form of a
    search term contains that of another, searching for the first among
    the results for the second gives what searching for the first
    gives: every job shown for the longer term is shown for the shorter
    one.  The jobs shown are always jobs of the list, and with an empty
    search term all of them are shown. *)
Theorem X11_search_narrows
        (toLowerCase : jsstring -> jsstring)
        (String_ : Listing.cell -> jsstring)
        (wide narrow : jsstring) (sortedJobs : list Listing.row) :
  let shown := Listing.filteredJobs toLowerCase String_ in
  (nonempty narrow = true ->
   Listing.includes (toLowerCase narrow) (toLowerCase wide) = true ->
   shown narrow (shown wide sortedJobs) = shown narrow sortedJobs
   /\ incl (shown narrow sortedJobs) (shown wide sortedJobs))
  /\ incl (shown narrow sortedJobs) sortedJobs
  /\ shown [] sortedJobs = sortedJobs.
Proof.
  intros shown. subst shown. unfold Listing.filteredJobs.
  split; [|split].
  - intros N I. rewrite N. simpl.
    assert (F : filter (Listing.matchesSearch toLowerCase String_ narrow)
                  (if negb (nonempty wide) then sortedJobs
                   else filter (Listing.matchesSearch toLowerCase String_ wide)
                               sortedJobs)
                = filter (Listing.matchesSearch toLowerCase String_ narrow)
                         sortedJobs).
    { destruct (negb (nonempty wide)); [reflexivity|].
      apply filter_narrow. intros job.
      unfold Listing.matchesSearch. rewrite !existsb_exists.
      intros [p [Hp M]]. exists p. split; [exact Hp|].
      exact (includes_trans _ _ _ M I). }
    split; [exact F|].
    rewrite <- F. intros job J. apply filter_In in J. tauto.
  - destruct (negb (nonempty narrow)); [apply incl_refl|].
    intros job J. apply filter_In in J. tauto.
  - reflexivity.
Qed.

Lemma X11_witness :
  let shown := Listing.filteredJobs (fun s => s) (fun _ => []) in
  let jobs := [ [(js "companyName", Listing.Js (JStr (js "acme corp")))];
                [(js "companyName", Listing.Js (JStr (js "zeta")))] ] in
  shown (js "acme") (shown (js "ac") jobs) = shown (js "acme") jobs.
Proof.
  intros shown jobs.
  destruct (X11_search_narrows (fun s => s) (fun _ => []) (js "ac")
              (js "acme") jobs) as [A _].
  apply A; reflexivity.
Defined.

(* ================================================================== *)
(** * The back end, and the browser behind it *)

Lemma nonempty_trim s : nonempty (trim s) = true -> nonempty s = true.
Proof. destruct s; [discriminate|reflexivity]. Qed.

(** X12.  The statuses of the route.  The route answers 200, 400 or
    500 and nothing else, and makes at most one upstream request.  It
    answers 200 exactly when a URL was given, the upstream server
    answered with a 2xx status and the body could be read; the body sent
    is then the upstream body, unchanged.  It answers 400 exactly when
    no URL was given, and then it has made no request. *)
Theorem X12_route_statuses
        (fetch : Server.upstream_request -> Server.upstream)
        (urlToFetch : option Server.query_value) :
  let reply := fst (Server.proxy fetch urlToFetch) in
  let requests := snd (Server.proxy fetch urlToFetch) in
  (Server.code reply = 200 \/ Server.code reply = 400
   \/ Server.code reply = 500)%Z
  /\ (List.length requests <= 1)%nat
  /\ (Server.code reply = 200%Z <->
      exists u r html,
        urlToFetch = Some u
        /\ Server.missing urlToFetch = false
        /\ requests = [{| Server.target := u;
                          Server.headers := [(js "User-Agent", Server.userAgent)] |}]
        /\ fetch {| Server.target := u;
                    Server.headers := [(js "User-Agent", Server.userAgent)] |}
           = Server.Answered r
        /\ Server.upstream_ok r = true
        /\ Server.upstream_text r = inl html
        /\ Server.content reply = Server.Sent html)
  /\ (Server.code reply = 400%Z <->
      Server.missing urlToFetch = true /\ requests = []).
Proof.
  intros reply requests. subst reply requests. unfold Server.proxy.
  destruct urlToFetch as [u|].
  2:{ cbn. split; [lia|]. split; [lia|]. split; [|tauto].
      split; [discriminate|]. intros (u & r & html & H & _). discriminate. }
  destruct (Server.missing (Some u)) eqn:M.
  { cbn [fst snd Server.code Server.content List.length].
    split; [lia|]. split; [lia|]. split; [|tauto].
    split; [discriminate|]. intros (u' & r & html & _ & H & _). discriminate. }
  set (req := {| Server.target := u;
                 Server.headers := [(js "User-Agent", Server.userAgent)] |}).
  cbn [fst snd List.length].
  destruct (fetch req) as [message|r] eqn:F.
  { cbn. split; [lia|]. split; [lia|]. split; [|split; [discriminate|]].
    - split; [discriminate|].
      intros (u' & r & html & H & _ & _ & F' & _). injection H as <-.
      match type of F' with _ = ?x => change (fetch req = x) in F' end.
      congruence.
    - intros [H _]. discriminate. }
  destruct (Server.upstream_ok r) eqn:K; cbn [negb].
  - destruct (Server.upstream_text r) as [html|message] eqn:T.
    + cbn. split; [lia|]. split; [lia|]. split; [|split; [discriminate|]].
      * split; [|reflexivity]. intros _.
        exists u, r, html. repeat split; auto.
      * intros [H _]. discriminate.
    + cbn. split; [lia|]. split; [lia|]. split; [|split; [discriminate|]].
      * split; [discriminate|].
        intros (u' & r' & html & H & _ & _ & F' & _ & T' & _).
        injection H as <-. match type of F' with _ = ?x => change (fetch req = x) in F' end.
      congruence.
      * intros [H _]. discriminate.
  - cbn. split; [lia|]. split; [lia|]. split; [|split; [discriminate|]].
    + split; [discriminate|].
      intros (u' & r' & html & H & _ & _ & F' & K' & _).
      injection H as <-. match type of F' with _ = ?x => change (fetch req = x) in F' end.
      congruence.
    + intros [H _]. discriminate.
Qed.

Section EndToEnd.
Variable env : Env.
Variable statusTextOf : Z -> jsstring.
Variable stringify : jsval -> jsstring.
Variable upstream : Server.upstream_request -> Server.upstream.

(** A run whose proxy request is answered with a status that is not
    2xx. *)
Lemma run_proxy_not_ok st encoded r :
  nonempty (trim (jobPostUrl st)) = true ->
  encodeURIComponent env (jobPostUrl st) = Some encoded ->
  fetch env (proxy_request env encoded) = Responded r ->
  ok r = false ->
  handleExtractDetails env st
  = (failed st (ErrorProcessingUrl
                  (ProxyFailed (proxy_errorDetails r) (status r))),
     [proxy_request env encoded]).
Proof.
  intros U E F K. apply handler_failed, extract_without_text.
  unfold source_text, text_from_url, await_fetch. run_monad.
  now rewrite U, E, F, K.
Qed.
End EndToEnd.

(** X13.  The browser behind this proxy.  Suppose the URL field is not
    blank and the request the handler makes is answered by the [/proxy]
    route, given the URL as typed.  Then the route never answers 400.
    If the upstream server answers with a status that is not 2xx, the
    handler stops with the proxy's status 500 and, as detail, the text
    "Failed to fetch: " followed by the upstream status and status
    text: the upstream status reaches the user inside the detail only.
    If the upstream server cannot be reached, the handler stops with
    status 500 and the message of that failure (or the route's general
    error text when the message is empty).  If the upstream server
    answers 2xx with a readable body, the handler gets that very body
    to parse. *)
Theorem X13_browser_behind_proxy
        (env : Env) (statusTextOf : Z -> jsstring)
        (stringify : jsval -> jsstring)
        (upstream : Server.upstream_request -> Server.upstream)
        (st : state) (encoded : jsstring) :
  nonempty (trim (jobPostUrl st)) = true ->
  encodeURIComponent env (jobPostUrl st) = Some encoded ->
  fetch env (proxy_request env encoded)
  = Wire.through_proxy statusTextOf stringify (JSON_parse env) upstream
      (jobPostUrl st) ->
  let req := {| Server.target := Server.QString (jobPostUrl st);
                Server.headers := [(js "User-Agent", Server.userAgent)] |} in
  Server.code (fst (Server.proxy upstream
                      (Some (Server.QString (jobPostUrl st))))) <> 400%Z
  /\ (forall r,
         upstream req = Server.Answered r ->
         Server.upstream_ok r = false ->
         handleExtractDetails env st
         = (failed st (SourceFetchFailed
                         (HttpError 500 (JStr (Server.failed_to_fetch r)))),
            [proxy_request env encoded]))
  /\ (forall message,
         upstream req = Server.Failed message ->
         handleExtractDetails env st
         = (failed st
              (SourceFetchFailed
                 (HttpError 500
                    (or_else (JStr message)
                       (JStr (js "Failed to fetch the provided URL."))))),
            [proxy_request env encoded]))
  /\ (forall r html,
         upstream req = Server.Answered r ->
         Server.upstream_ok r = true ->
         Server.upstream_text r = inl html ->
         exists response,
           fetch env (proxy_request env encoded) = Responded response
           /\ ok response = true
           /\ text response = Some html).
Proof.
  intros U E F req.
  assert (M : Server.missing (Some (Server.QString (jobPostUrl st))) = false).
  { simpl. now rewrite (nonempty_trim _ U). }
  unfold Wire.through_proxy, Server.proxy in F.
  unfold Server.proxy. rewrite M in *. fold req in F. fold req.
  split; [|split; [|split]].
  - simpl. destruct (upstream req) as [message|r]; simpl; [discriminate|].
    destruct (Server.upstream_ok r); simpl; [|discriminate].
    destruct (Server.upstream_text r); discriminate.
  - intros r A K. rewrite A, K in F. simpl in F.
    rewrite (run_proxy_not_ok env st U E F eq_refl). reflexivity.
  - intros message A. rewrite A in F. simpl in F.
    rewrite (run_proxy_not_ok env st U E F eq_refl).
    unfold proxy_errorDetails, Wire.delivered; simpl.
    unfold or_else at 2. simpl. reflexivity.
  - intros r html A K T. rewrite A, K, T in F. simpl in F.
    eexists. split; [exact F|]. split; reflexivity.
Qed.

(* ================================================================== *)
(** * Dates: from the time value to the string and back *)

Lemma all_from_spec f n : forall z,
  Dates.all_from f n z = true ->
  forall i, (0 <= i < Z.of_nat n)%Z -> f (z + i)%Z = true.
Proof.
  induction n as [|n IH]; intros z H i Hi; [lia|].
  cbn [Dates.all_from] in H. destruct (f z) eqn:F; [|discriminate].
  destruct (Z.eq_dec i 0) as [->|N]; [now rewrite Z.add_0_r|].
  replace (z + i)%Z with ((z + 1) + (i - 1))%Z by lia.
  apply IH; [exact H|lia].
Qed.

Lemma four_digits_checked :
  Dates.all_from Dates.four_digits (Z.to_nat 10000) 0 = true.
Proof. vm_compute. reflexivity. Qed.

Lemma two_digits_checked :
  Dates.all_from Dates.two_digits (Z.to_nat 100) 0 = true.
Proof. vm_compute. reflexivity. Qed.

(** Month and day within a year that starts in March. *)
Lemma month_day doy :
  (0 <= doy <= 365)%Z ->
  let mp := ((5 * doy + 2) / 153)%Z in
  let d := (doy - (153 * mp + 2) / 5 + 1)%Z in
  (0 <= mp <= 11 /\ 1 <= d <= 31
   /\ (mp = 1 \/ mp = 3 \/ mp = 6 \/ mp = 8 -> d <= 30)
   /\ (mp = 11 -> d <= 29 /\ (d = 29 -> doy = 365)))%Z.
Proof.
  intros H mp d. subst d mp. Z.div_mod_to_equations. lia.
Qed.

Lemma leap_of_era yoe era :
  ((yoe + 1) mod 4 = 0 /\ ((yoe + 1) mod 100 <> 0 \/ yoe = 399))%Z ->
  Dates.leap (yoe + era * 400 + 1) = true.
Proof.
  intros [H4 H100]. unfold Dates.leap.
  replace (yoe + era * 400 + 1)%Z with (yoe + 1 + (100 * era) * 4)%Z at 1
    by lia.
  replace (yoe + era * 400 + 1)%Z with (yoe + 1 + (4 * era) * 100)%Z at 1
    by lia.
  replace (yoe + era * 400 + 1)%Z with (yoe + 1 + era * 400)%Z by lia.
  rewrite !Z.mod_add by lia. rewrite H4. simpl.
  destruct H100 as [N| ->].
  - apply Z.eqb_neq in N. now rewrite N.
  - rewrite orb_true_r. reflexivity.
Qed.

(** The date of a day is a date of the calendar, and that day is the
    day of that date. *)
Lemma civil_from_days_inverse z :
  let '(y, m, d) := civil_from_days z in
  Dates.days_from_civil y m d = z /\ Dates.valid_date y m d = true.
Proof.
  unfold civil_from_days, Dates.days_from_civil.
  set (era := ((z + 719468) / 146097)%Z).
  set (doe := (z + 719468 - era * 146097)%Z).
  assert (Hdoe : (0 <= doe <= 146096)%Z).
  { subst doe era. Z.div_mod_to_equations. lia. }
  assert (Hz : z = (era * 146097 + doe - 719468)%Z) by (subst doe; lia).
  clearbody doe. clearbody era.
  set (yoe := ((doe - doe / 1460 + doe / 36524 - doe / 146096) / 365)%Z).
  set (doy := (doe - (365 * yoe + yoe / 4 - yoe / 100))%Z).
  assert (Hy : (0 <= yoe <= 399 /\ 0 <= doy <= 365
                /\ (doy = 365 ->
                    (yoe + 1) mod 4 = 0
                    /\ ((yoe + 1) mod 100 <> 0 \/ yoe = 399)))%Z).
  { subst doy yoe. Z.div_mod_to_equations. lia. }
  assert (Hdoe' : doe = (yoe * 365 + yoe / 4 - yoe / 100 + doy)%Z)
    by (subst doy; lia).
  clearbody doy. clearbody yoe.
  destruct Hy as [Hyoe [Hdoy Hleap]].
  pose proof (@month_day doy Hdoy) as M. cbv zeta in M.
  set (mp := ((5 * doy + 2) / 153)%Z) in *.
  set (d := (doy - (153 * mp + 2) / 5 + 1)%Z) in *.
  assert (Hd : ((153 * mp + 2) / 5 + d - 1)%Z = doy) by (subst d; lia).
  destruct M as [Hmp [Hd' [H30 H29]]].
  assert (Hera : ((yoe + era * 400) / 400)%Z = era)
    by (Z.div_mod_to_equations; lia).
  clearbody d. clearbody mp.
  cbv zeta.
  destruct (Z.ltb_spec mp 10).
  - destruct (Z.leb_spec (mp + 3) 2); [lia|].
    destruct (Z.ltb_spec 2 (mp + 3)); [|lia].
    replace (mp + 3 - 3)%Z with mp by lia.
    rewrite Hera. replace (yoe + era * 400 - era * 400)%Z with yoe by lia.
    rewrite Hd. split; [lia|].
    unfold Dates.valid_date, Dates.days_in_month.
    assert (C : (mp = 0 \/ mp = 1 \/ mp = 2 \/ mp = 3 \/ mp = 4 \/ mp = 5
                 \/ mp = 6 \/ mp = 7 \/ mp = 8 \/ mp = 9)%Z) by lia.
    repeat (destruct C as [C|C]); subst mp; simpl;
      apply andb_true_iff; split; apply Z.leb_le; lia.
  - destruct (Z.leb_spec (mp - 9) 2); [|lia].
    destruct (Z.ltb_spec 2 (mp - 9)); [lia|].
    replace (mp - 9 + 9)%Z with mp by lia.
    replace (yoe + era * 400 + 1 - 1)%Z with (yoe + era * 400)%Z by lia.
    rewrite Hera. replace (yoe + era * 400 - era * 400)%Z with yoe by lia.
    rewrite Hd. split; [lia|].
    unfold Dates.valid_date, Dates.days_in_month.
    assert (C : (mp = 10 \/ mp = 11)%Z) by lia.
    destruct C as [C|C]; subst mp; simpl.
    + apply andb_true_iff; split; apply Z.leb_le; lia.
    + apply andb_true_iff; split; [apply Z.leb_le; lia|].
      apply Z.leb_le.
      destruct (Z.eq_dec d 29) as [E|E].
      * destruct H29 as [_ H29]; [reflexivity|].
        rewrite (@leap_of_era yoe era (Hleap (H29 E))). lia.
      * destruct (Dates.leap _); destruct H29 as [H29 _];
          [reflexivity|lia|reflexivity|lia].
Qed.

Lemma day_round_trip_all z : Dates.day_round_trip z = true.
Proof.
  unfold Dates.day_round_trip.
  pose proof (civil_from_days_inverse z) as H.
  destruct (civil_from_days z) as [[y m] d]. destruct H as [D V].
  rewrite V, D. simpl. apply Z.eqb_refl.
Qed.

Lemma four_digits_all n : (0 <= n <= 9999)%Z -> Dates.four_digits n = true.
Proof.
  intros H. pose proof (@all_from_spec _ _ _ four_digits_checked n) as A.
  rewrite Z2Nat.id in A by lia. apply A. lia.
Qed.

Lemma two_digits_all n : (0 <= n <= 99)%Z -> Dates.two_digits n = true.
Proof.
  intros H. pose proof (@all_from_spec _ _ _ two_digits_checked n) as A.
  rewrite Z2Nat.id in A by lia. apply A. lia.
Qed.

Lemma days_in_month_le y m : (Dates.days_in_month y m <= 31)%Z.
Proof.
  unfold Dates.days_in_month.
  destruct (m =? 2)%Z; [destruct (Dates.leap y); lia|].
  destruct ((m =? 4) || (m =? 6) || (m =? 9) || (m =? 11))%Z; lia.
Qed.

(** The ISO date of a time value whose year has four digits reads back
    as the midnight that starts its day. *)
Lemma parse_iso_date_iso_date t :
  (0 <= Dates.year_of t <= 9999)%Z ->
  Dates.parse_iso_date (iso_date t) = Some (t / msPerDay * msPerDay)%Z
  /\ nonempty (iso_date t) = true.
Proof.
  unfold Dates.year_of, iso_date. intros Y.
  pose proof (day_round_trip_all (t / msPerDay)) as R.
  unfold Dates.day_round_trip in R.
  destruct (civil_from_days (t / msPerDay)) as [[y m] d]. simpl in Y.
  apply andb_true_iff in R as [V D]. apply Z.eqb_eq in D.
  assert (B : (1 <= m <= 12 /\ 1 <= d <= 31)%Z).
  { pose proof (days_in_month_le y m). unfold Dates.valid_date in V.
    repeat (apply andb_true_iff in V as [V ?]).
    repeat match goal with H : (_ <=? _)%Z = true |- _ => apply Z.leb_le in H end.
    lia. }
  unfold iso_year.
  replace ((0 <=? y) && (y <=? 9999))%Z with true
    by (symmetry; apply andb_true_iff; split; apply Z.leb_le; lia).
  pose proof (@four_digits_all y Y) as Fy.
  assert (Fm : Dates.two_digits m = true) by (apply two_digits_all; lia).
  assert (Fd : Dates.two_digits d = true) by (apply two_digits_all; lia).
  unfold Dates.four_digits in Fy. unfold Dates.two_digits in Fm, Fd.
  destruct (pad0 4 y) as [|y1 [|y2 [|y3 [|y4 [|]]]]]; try discriminate.
  destruct (pad0 2 m) as [|m1 [|m2 [|]]]; try discriminate.
  destruct (pad0 2 d) as [|d1 [|d2 [|]]]; try discriminate.
  split; [|reflexivity].
  change ([y1; y2; y3; y4] ++ js "-" ++ [m1; m2] ++ js "-" ++ [d1; d2])
    with [y1; y2; y3; y4; 45%N; m1; m2; 45%N; d1; d2].
  unfold Dates.parse_iso_date. rewrite N.eqb_refl. cbn [andb].
  destruct (Dates.number [y1; y2; y3; y4] 0) as [vy|]; [|discriminate].
  destruct (Dates.number [m1; m2] 0) as [vm|]; [|discriminate].
  destruct (Dates.number [d1; d2] 0) as [vd|]; [|discriminate].
  apply Z.eqb_eq in Fy, Fm, Fd. subst vy vm vd.
  now rewrite V, D.
Qed.

(** X14.  The date survives the trip through a string.  For every
    instant whose year has four digits, the date string the handler
    writes in a draft, [new Date().toISOString().split('T')[0]], is read
    by [new Date(...)] as the midnight (UTC) that starts the same day,
    and printed again by [toISOString().split('T')[0]] it is the same
    string: the form shows the date the draft holds. *)
Theorem X14_date_round_trip
        (Date_parse_other : jsstring -> option Z)
        (Date_other : jsval -> option Z) (t : Z) (default : Listing.cell) :
  (0 <= Dates.year_of t <= 9999)%Z ->
  Form.date_of Date_parse_other Date_other (Listing.Js (JStr (iso_date t)))
  = Some (t / msPerDay * msPerDay)%Z
  /\ iso_date (t / msPerDay * msPerDay) = iso_date t
  /\ Form.date_field Date_parse_other Date_other
       (Listing.Js (JStr (iso_date t))) default
     = Some (Listing.Js (JStr (iso_date t))).
Proof.
  intros Y. destruct (parse_iso_date_iso_date t Y) as [P N].
  assert (A : Form.date_of Date_parse_other Date_other
                (Listing.Js (JStr (iso_date t)))
              = Some (t / msPerDay * msPerDay)%Z).
  { unfold Form.date_of, Form.date_of_string. now rewrite P. }
  assert (B : iso_date (t / msPerDay * msPerDay) = iso_date t).
  { unfold iso_date. now rewrite Z.div_mul by (unfold msPerDay; lia). }
  split; [exact A|]. split; [exact B|].
  unfold Form.date_field. cbn [Form.truthy_cell truthy].
  now rewrite N, A, B.
Qed.

Lemma X14_witness :
  Form.date_field (fun _ => None) (fun _ => None)
    (Listing.Js (JStr (js "2026-11-02"))) (Form.str "")
  = Some (Listing.Js (JStr (js "2026-11-02"))).
Proof.
  destruct (X14_date_round_trip (fun _ => None) (fun _ => None)
              Demo.instant (Form.str "")) as [_ [_ A]].
  - vm_compute. split; discriminate.
  - exact A.
Defined.

(* ================================================================== *)
(** * The form *)

Lemma eqb_neq (a b : jsstring) : a <> b -> JsString.eqb a b = false.
Proof.
  intros N. destruct (JsString.eqb a b) eqn:E; [|reflexivity].
  apply eqb_eq in E. contradiction.
Qed.

(** Reading a property after writing one. *)
Lemma at_key_assign k k' v o :
  Listing.at_key k (Form.assign k' v o)
  = if JsString.eqb k k' then v else Listing.at_key k o.
Proof.
  induction o as [|[k1 v1] rest IH]; [reflexivity|].
  cbn [Form.assign]. destruct (JsString.eqb k' k1) eqn:E1.
  - apply eqb_eq in E1. subst k1. cbn [Listing.at_key].
    now destruct (JsString.eqb k k').
  - cbn [Listing.at_key]. rewrite IH.
    destruct (JsString.eqb k k1) eqn:E2; [|reflexivity].
    destruct (JsString.eqb k k') eqn:E3; [|reflexivity].
    apply eqb_eq in E2, E3. subst. rewrite eqb_refl in E1. discriminate.
Qed.

Lemma has_key_false k o :
  ~ In k (List.map fst o) -> Form.has_key k o = false.
Proof.
  intros N. unfold Form.has_key.
  destruct (existsb _ o) eqn:E; [|reflexivity].
  apply existsb_exists in E as [p [I E]]. apply eqb_eq in E. subst k.
  exfalso. apply N. now apply in_map.
Qed.

(** Reading a property of [{...base, ...o}]: that of [o] when [o] has
    the key, that of [base] otherwise. *)
Lemma at_key_spread k o : forall base,
  NoDup (List.map fst o) ->
  Listing.at_key k (Form.spread base o)
  = if Form.has_key k o then Listing.at_key k o else Listing.at_key k base.
Proof.
  unfold Form.spread.
  induction o as [|[k1 v1] rest IH]; intros base D; [reflexivity|].
  inversion D as [|? ? N D']; subst.
  cbn [fold_left fst snd]. rewrite (IH _ D'), at_key_assign.
  cbn [Form.has_key existsb Listing.at_key fst].
  fold (Form.has_key k rest).
  destruct (JsString.eqb k k1) eqn:E; [|reflexivity].
  apply eqb_eq in E. subst k1. now rewrite (has_key_false _ _ N).
Qed.

Section FormFacts.
Variable Date_parse_other : jsstring -> option Z.
Variable Date_other : jsval -> option Z.

(** The fields of the form opened on a job. *)
Lemma getInitialFormData_fields nowApplied nowChecked job formData :
  NoDup (List.map fst job) ->
  Form.getInitialFormData Date_parse_other Date_other nowApplied nowChecked
    (Some job) = Some formData ->
  Form.date_field Date_parse_other Date_other
    (Listing.at_key (js "dateApplied") job)
    (Listing.Js (JStr (iso_date nowApplied)))
  = Some (Listing.at_key (js "dateApplied") formData)
  /\ Form.date_field Date_parse_other Date_other
       (Listing.at_key (js "lastChecked") job)
       (Listing.Js (JStr (iso_date nowChecked)))
     = Some (Listing.at_key (js "lastChecked") formData)
  /\ forall k,
       k <> js "dateApplied" -> k <> js "lastChecked" ->
       Listing.at_key k formData
       = if Form.has_key k job then Listing.at_key k job
         else Listing.at_key k (Form.defaults nowApplied nowChecked).
Proof.
  intros D. unfold Form.getInitialFormData.
  change (Listing.at_key (js "dateApplied")
            (Form.defaults nowApplied nowChecked))
    with (Listing.Js (JStr (iso_date nowApplied))).
  change (Listing.at_key (js "lastChecked")
            (Form.defaults nowApplied nowChecked))
    with (Listing.Js (JStr (iso_date nowChecked))).
  destruct (Form.date_field _ _ (Listing.at_key (js "dateApplied") job) _)
    as [dateApplied|]; [|discriminate].
  destruct (Form.date_field _ _ (Listing.at_key (js "lastChecked") job) _)
    as [lastChecked|]; [|discriminate].
  intros H. injection H as <-.
  rewrite !at_key_assign.
  change (JsString.eqb (js "dateApplied") (js "lastChecked")) with false.
  rewrite !eqb_refl. split; [reflexivity|]. split; [reflexivity|].
  intros k N1 N2. rewrite !at_key_assign.
  rewrite (eqb_neq N1), (eqb_neq N2). now apply at_key_spread.
Qed.

Lemma date_field_iso t default :
  (0 <= Dates.year_of t <= 9999)%Z ->
  Form.date_field Date_parse_other Date_other
    (Listing.Js (JStr (iso_date t))) default
  = Some (Listing.Js (JStr (iso_date t))).
Proof.
  intros Y. destruct (parse_iso_date_iso_date t Y) as [P N].
  unfold Form.date_field, Form.date_of, Form.date_of_string.
  cbn [Form.truthy_cell truthy]. rewrite N, P.
  unfold iso_date at 1. now rewrite Z.div_mul by (unfold msPerDay; lia).
Qed.
End FormFacts.

(** X15.  What the form is opened with.  Without a job the form holds
    the defaults.  On a job (whose date fields can be read as dates) it
    holds, for every field but the two dates, the job's value when the
    job has the field and the default otherwise: fields the form does
    not know, such as [id], are carried along.  Each date field holds
    the ISO date of the job's value when that value is truthy, and the
    current date otherwise. *)
Theorem X15_form_fields
        (Date_parse_other : jsstring -> option Z)
        (Date_other : jsval -> option Z)
        (nowApplied nowChecked : Z) (job formData : Form.obj) :
  Form.getInitialFormData Date_parse_other Date_other nowApplied nowChecked
    None = Some (Form.defaults nowApplied nowChecked)
  /\ (NoDup (List.map fst job) ->
      Form.getInitialFormData Date_parse_other Date_other nowApplied
        nowChecked (Some job) = Some formData ->
      Form.date_field Date_parse_other Date_other
        (Listing.at_key (js "dateApplied") job)
        (Listing.Js (JStr (iso_date nowApplied)))
      = Some (Listing.at_key (js "dateApplied") formData)
      /\ Form.date_field Date_parse_other Date_other
           (Listing.at_key (js "lastChecked") job)
           (Listing.Js (JStr (iso_date nowChecked)))
         = Some (Listing.at_key (js "lastChecked") formData)
      /\ forall k,
           k <> js "dateApplied" -> k <> js "lastChecked" ->
           Listing.at_key k formData
           = if Form.has_key k job then Listing.at_key k job
             else Listing.at_key k (Form.defaults nowApplied nowChecked)).
Proof.
  split; [reflexivity|]. apply getInitialFormData_fields.
Qed.

Lemma X15_witness :
  let job := [(js "id", Form.str "job-1"); (js "role", Form.str "Engineer")] in
  let formData :=
    Form.assign (js "lastChecked") (Listing.Js (JStr (iso_date Demo.instant)))
      (Form.assign (js "dateApplied")
         (Listing.Js (JStr (iso_date Demo.instant)))
         (Form.spread (Form.defaults Demo.instant Demo.instant) job)) in
  Listing.at_key (js "id") formData = Form.str "job-1"
  /\ Listing.at_key (js "role") formData = Form.str "Engineer"
  /\ Listing.at_key (js "status") formData = Form.str "Applied".
Proof.
  intros job formData.
  destruct (X15_form_fields (fun _ => None) (fun _ => None)
              Demo.instant Demo.instant job formData) as [_ A].
  destruct A as [_ [_ A]].
  - repeat (constructor; [cbn; intuition discriminate|]). constructor.
  - reflexivity.
  - split; [|split].
    + rewrite (A (js "id")) by discriminate. reflexivity.
    + rewrite (A (js "role")) by discriminate. reflexivity.
    + rewrite (A (js "status")) by discriminate. reflexivity.
Defined.

Lemma job_object_keys d : NoDup (List.map fst (Form.job_object d)).
Proof.
  unfold Form.job_object. cbn [List.map fst].
  repeat (constructor; [cbn; intuition discriminate|]). constructor.
Qed.

(** A key that is none of those of [job_object], nor [lastChecked], is
    no key of the defaults. *)
Lemma defaults_keys k d nowApplied nowChecked :
  k <> js "lastChecked" ->
  Form.has_key k (Form.job_object d) = false ->
  Listing.at_key k (Form.defaults nowApplied nowChecked)
  = Listing.at_key k (Form.job_object d).
Proof.
  intros N H. unfold Form.has_key, Form.job_object in H.
  cbn [existsb fst] in H.
  repeat (apply orb_false_iff in H as [? H]).
  unfold Form.defaults, Form.job_object. cbn [Listing.at_key].
  rewrite (eqb_neq N).
  repeat match goal with E : JsString.eqb k _ = false |- _ =>
                           rewrite E; clear E end.
  reflexivity.
Qed.

(** X16.  From the draft to the form.  When a run has made a draft (in
    a year of four digits), the form opens on it under the heading
    "Review Extracted Details" and holds every field of the draft as
    extracted, the date included, with today's date as lastChecked.
    Submitting the form as it is saves it exactly when the extraction
    gave both a company name and a role; otherwise the form shows that
    the two are required and nothing is saved. *)
Theorem X16_draft_in_form
        (Date_parse_other : jsstring -> option Z)
        (Date_other : jsval -> option Z)
        (env : Env) (url pasted : jsstring) (d : job) (log : list request)
        (nowApplied nowChecked : Z) (stored : Form.obj) :
  extract env url pasted [] = (inl (inl d), log) ->
  (0 <= Dates.year_of (now env) <= 9999)%Z ->
  exists formData,
    Form.getInitialFormData Date_parse_other Date_other nowApplied nowChecked
      (Form.job_prop (Draft d) stored) = Some formData
    /\ (forall k, k <> js "lastChecked" ->
                  Listing.at_key k formData
                  = Listing.at_key k (Form.job_object d))
    /\ Listing.at_key (js "lastChecked") formData
       = Listing.Js (JStr (iso_date nowChecked))
    /\ Form.heading (Form.job_prop (Draft d) stored)
       = js "Review Extracted Details"
    /\ Form.handleSubmit formData
       = if truthy (companyName d) && truthy (role d)
         then inl formData
         else inr Form.required_message.
Proof.
  intros X Y.
  destruct (extract_draft_inv env _ _ X)
    as (t & log0 & r & result & c & data & _ & _ & _ & _ & _ & _ & _ & _ & _ & D).
  assert (DA : Listing.at_key (js "dateApplied") (Form.job_object d)
               = Listing.Js (JStr (iso_date (now env)))) by now subst d.
  assert (LC : Listing.at_key (js "lastChecked") (Form.job_object d)
               = Listing.Js JUndefined) by reflexivity.
  assert (G : exists formData,
             Form.getInitialFormData Date_parse_other Date_other nowApplied
               nowChecked (Some (Form.job_object d)) = Some formData).
  { unfold Form.getInitialFormData. rewrite DA, LC.
    rewrite (date_field_iso Date_parse_other Date_other _ _ Y).
    cbn [Form.date_field Form.truthy_cell truthy]. eauto. }
  destruct G as [formData G]. exists formData.
  cbn [Form.job_prop]. split; [exact G|].
  destruct (getInitialFormData_fields _ _ _ _ _ (job_object_keys d) G)
    as [F1 [F2 F3]].
  rewrite DA, (date_field_iso Date_parse_other Date_other _ _ Y) in F1.
  rewrite LC in F2. cbn [Form.date_field Form.truthy_cell truthy] in F2.
  injection F1 as F1. injection F2 as F2.
  assert (A : forall k, k <> js "lastChecked" ->
                        Listing.at_key k formData
                        = Listing.at_key k (Form.job_object d)).
  { intros k N.
    destruct (JsString.eqb k (js "dateApplied")) eqn:E.
    - apply eqb_eq in E. subst k. now rewrite DA.
    - assert (N' : k <> js "dateApplied")
        by (intros ->; rewrite eqb_refl in E; discriminate).
      rewrite (F3 k N' N).
      destruct (Form.has_key k (Form.job_object d)) eqn:H; [reflexivity|].
      now apply defaults_keys. }
  split; [exact A|]. split; [now rewrite <- F2|].
  split; [reflexivity|].
  unfold Form.handleSubmit.
  rewrite (A (js "companyName")), (A (js "role")) by discriminate.
  change (Listing.at_key (js "companyName") (Form.job_object d))
    with (Listing.Js (companyName d)).
  change (Listing.at_key (js "role") (Form.job_object d))
    with (Listing.Js (role d)).
  cbn [Form.truthy_cell].
  now destruct (truthy (companyName d)), (truthy (role d)).
Qed.

Lemma X16_witness :
  exists formData,
    Form.getInitialFormData (fun _ => None) (fun _ => None)
      Demo.instant Demo.instant (Some (Form.job_object Samples.acme_draft))
    = Some formData
    /\ Form.handleSubmit formData = inl formData.
Proof.
  assert (X : extract Demo.quiet [] scenarioA_text []
              = (inl (inl Samples.acme_draft),
                 [extraction_request scenarioA_text])) by reflexivity.
  destruct (X16_draft_in_form (fun _ => None) (fun _ => None) Demo.quiet
              [] scenarioA_text Demo.instant Demo.instant [] X)
    as [formData [G [_ [_ [_ S]]]]].
  - vm_compute. split; discriminate.
  - exists formData. split; [exact G|exact S].
Defined.

Lemma X13_witness :
  let st := Demo.typed Demo.job_url [] in
  handleExtractDetails (Samples.behind Demo.upstream_404 Demo.job_url) st
  = (failed st
       (SourceFetchFailed
          (HttpError 500 (JStr (js "Failed to fetch: 404 Not Found")))),
     [proxy_request (Samples.behind Demo.upstream_404 Demo.job_url)
                    Demo.job_url])
  /\ handleExtractDetails (Samples.behind Demo.upstream_down Demo.job_url) st
     = (failed st
          (SourceFetchFailed
             (HttpError 500 (JStr (js "getaddrinfo ENOTFOUND jobs.example")))),
        [proxy_request (Samples.behind Demo.upstream_down Demo.job_url)
                       Demo.job_url]).
Proof.
  intros st.
  destruct (@X13_browser_behind_proxy
              (Samples.behind Demo.upstream_404 Demo.job_url)
              Samples.statusTextOf Samples.stringify
              (fun _ => Demo.upstream_404) st Demo.job_url
              eq_refl eq_refl eq_refl) as [_ [A _]].
  destruct (@X13_browser_behind_proxy
              (Samples.behind Demo.upstream_down Demo.job_url)
              Samples.statusTextOf Samples.stringify
              (fun _ => Demo.upstream_down) st Demo.job_url
              eq_refl eq_refl eq_refl) as [_ [_ [B _]]].
  split.
  - exact (A _ eq_refl eq_refl).
  - exact (B _ eq_refl).
Defined.

(* ================================================================== *)
(** * Loading, saving and showing *)

Lemma date_of_number_millis t :
  (Z.abs t <= 8640000000000000)%Z ->
  Dates.date_of_number (Store.millis_of t) = Some t.
Proof.
  intros H. unfold Dates.date_of_number, Store.millis_of, Dates.truncated.
  change (0 <=? 0)%Z with true. cbv iota.
  rewrite Z.pow_0_r, Z.mul_1_r, Z2N.id by lia.
  replace (if (t <? 0)%Z then (- Z.abs t)%Z else Z.abs t) with t
    by (destruct (Z.ltb_spec t 0); lia).
  unfold Dates.timeClip.
  destruct (Z.leb_spec (Z.abs t) 8640000000000000); [reflexivity|lia].
Qed.

Lemma days_from_civil_bound y m d :
  (1 <= y <= 9999)%Z -> Dates.valid_date y m d = true ->
  (-719162 <= Dates.days_from_civil y m d <= 2932896)%Z.
Proof.
  intros Y V. pose proof (days_in_month_le y m).
  unfold Dates.valid_date in V.
  repeat (apply andb_true_iff in V as [V ?]).
  repeat match goal with H : (_ <=? _)%Z = true |- _ => apply Z.leb_le in H end.
  unfold Dates.days_from_civil.
  destruct (Z.leb_spec m 2), (Z.ltb_spec 2 m); try lia;
    cbv zeta; Z.div_mod_to_equations; lia.
Qed.

(** The midnight that starts a day of the years 1 to 9999 is a time a
    [Timestamp], and a [Date], can hold. *)
Lemma midnight_in_range t :
  (1 <= Dates.year_of t <= 9999)%Z ->
  Store.in_range (t / msPerDay * msPerDay) = true
  /\ (Z.abs (t / msPerDay * msPerDay) <= 8640000000000000)%Z.
Proof.
  unfold Dates.year_of. intros Y.
  pose proof (civil_from_days_inverse (t / msPerDay)) as I.
  destruct (civil_from_days (t / msPerDay)) as [[y m] d]. simpl in Y.
  destruct I as [D V].
  pose proof (@days_from_civil_bound y m d Y V) as B. rewrite D in B.
  unfold Store.in_range, msPerDay in *. split; [|lia].
  apply andb_true_iff. split; [apply Z.leb_le | apply Z.ltb_lt];
    Z.div_mod_to_equations; lia.
Qed.

Section StoreFacts.
Variable Date_parse_other : jsstring -> option Z.
Variable Date_other : jsval -> option Z.
Variable Date_of_timestamp : jsnum -> option Z.
Variable Timestamp_other : option Z -> option jsnum.

Lemma fromDate_kind v w :
  Store.fromDate Date_parse_other Date_other Date_of_timestamp
    Timestamp_other v = Some w ->
  exists millis, w = Listing.Stamp millis.
Proof.
  unfold Store.fromDate.
  destruct (Store.new_Date _ _ _ _) as [t|].
  - destruct (Store.in_range t).
    + intros H. injection H as <-. eauto.
    + destruct (Timestamp_other _); [|discriminate].
      intros H. injection H as <-. eauto.
  - destruct (Timestamp_other _); [|discriminate].
    intros H. injection H as <-. eauto.
Qed.

Lemma loaded_date_kind v w :
  Store.loaded_date Date_parse_other Date_other Date_of_timestamp
    Timestamp_other v = Some w ->
  Store.stamp_or_null w = true.
Proof.
  unfold Store.loaded_date.
  destruct v as [m|v].
  - intros H. now injection H as <-.
  - destruct (Form.truthy_cell (Listing.Js v)).
    + intros H. apply fromDate_kind in H as [millis ->]. reflexivity.
    + intros H. now injection H as <-.
Qed.

Lemma loadJob_dates id data job k :
  Store.loadJob Date_parse_other Date_other Date_of_timestamp
    Timestamp_other id data = Some job ->
  k = js "dateApplied" \/ k = js "lastChecked" ->
  Store.stamp_or_null (Listing.at_key k job) = true.
Proof.
  unfold Store.loadJob.
  destruct (Store.loaded_date _ _ _ _
              (Listing.at_key (js "dateApplied") data))
    as [da|] eqn:A; [|discriminate].
  destruct (Store.loaded_date _ _ _ _
              (Listing.at_key (js "lastChecked") data))
    as [lc|] eqn:L; [|discriminate].
  intros H [-> | ->]; injection H as <-; rewrite !at_key_assign.
  - change (JsString.eqb (js "dateApplied") (js "lastChecked")) with false.
    rewrite eqb_refl. exact (loaded_date_kind _ A).
  - rewrite eqb_refl. exact (loaded_date_kind _ L).
Qed.

(** The ISO date of a day of the years 1 to 9999 becomes the timestamp
    of the midnight (UTC) that starts the day. *)
Lemma fromDate_iso t :
  (1 <= Dates.year_of t <= 9999)%Z ->
  Store.fromDate Date_parse_other Date_other Date_of_timestamp
    Timestamp_other (Listing.Js (JStr (iso_date t)))
  = Some (Listing.Stamp (Store.millis_of (t / msPerDay * msPerDay))).
Proof.
  intros Y.
  destruct (parse_iso_date_iso_date t) as [P _]; [lia|].
  destruct (midnight_in_range t Y) as [R _].
  unfold Store.fromDate, Store.new_Date, Form.date_of_string.
  now rewrite P, R.
Qed.

Lemma saved_date_iso t :
  (1 <= Dates.year_of t <= 9999)%Z ->
  Store.saved_date Date_parse_other Date_other Date_of_timestamp
    Timestamp_other (Listing.Js (JStr (iso_date t)))
  = Some (Listing.Stamp (Store.millis_of (t / msPerDay * msPerDay))).
Proof.
  intros Y.
  destruct (parse_iso_date_iso_date t) as [_ N]; [lia|].
  unfold Store.saved_date. cbn [Form.truthy_cell truthy]. rewrite N.
  apply fromDate_iso, Y.
Qed.


End StoreFacts.

Lemma comparable_dates x y :
  Store.stamp_or_null x = true -> Store.stamp_or_null y = true ->
  Listing.comparable x y = true.
Proof.
  destruct x as [mx|[]], y as [my|[]]; simpl; congruence.
Qed.

(** X17.  The dates of the jobs of the list.  In a job made of a
    document of the snapshot, dateApplied and lastChecked are each a
    Timestamp or null, whatever the document held.  So when the table is
    sorted by one of the two, the comparison of any two jobs of the list
    is consistent: swapping the jobs negates the result. *)
Theorem X17_loaded_dates
        (Date_parse_other : jsstring -> option Z)
        (Date_other : jsval -> option Z)
        (Date_of_timestamp : jsnum -> option Z)
        (Timestamp_other : option Z -> option jsnum)
        (toLowerCase : jsstring -> jsstring)
        (less : Listing.cell -> Listing.cell -> bool)
        (idA idB : jsstring) (dataA dataB jobA jobB : Form.obj)
        (sortConfig : Listing.SortConfig) :
  Store.loadJob Date_parse_other Date_other Date_of_timestamp
    Timestamp_other idA dataA = Some jobA ->
  Store.loadJob Date_parse_other Date_other Date_of_timestamp
    Timestamp_other idB dataB = Some jobB ->
  Listing.key sortConfig = js "dateApplied"
  \/ Listing.key sortConfig = js "lastChecked" ->
  Store.stamp_or_null (Listing.at_key (Listing.key sortConfig) jobA) = true
  /\ Store.stamp_or_null (Listing.at_key (Listing.key sortConfig) jobB) = true
  /\ Listing.compareJobs toLowerCase less sortConfig jobB jobA
     = (- Listing.compareJobs toLowerCase less sortConfig jobA jobB)%Z.
Proof.
  intros A B K.
  pose proof (loadJob_dates _ _ _ _ _ _ A K) as SA.
  pose proof (loadJob_dates _ _ _ _ _ _ B K) as SB.
  split; [exact SA|]. split; [exact SB|].
  apply compareJobs_swap. now apply comparable_dates.
Qed.

(** X18.  A date picked in the form, shown in the table.  A date field
    of the form that holds the ISO date of a day (of the years 1 to
    9999) is saved as the timestamp of the midnight, in UTC, that starts
    that day.  The table then shows, in the user's locale, the day
    before for every user whose clock is behind UTC at that instant, and
    the day itself for the users on UTC or ahead of it. *)
Theorem X18_saved_date_shown
        (Date_parse_other : jsstring -> option Z)
        (Date_other : jsval -> option Z)
        (Date_of_timestamp : jsnum -> option Z)
        (Timestamp_other : option Z -> option jsnum)
        (timezoneOffset : Z -> Z) (formatLocal : Z * Z * Z -> jsstring)
        (t : Z) :
  (1 <= Dates.year_of t <= 9999)%Z ->
  let day := (t / msPerDay)%Z in
  let midnight := (day * msPerDay)%Z in
  let saved := Listing.Stamp (Store.millis_of midnight) in
  Store.saved_date Date_parse_other Date_other Date_of_timestamp
    Timestamp_other (Listing.Js (JStr (iso_date t))) = Some saved
  /\ ((0 < timezoneOffset midnight <= 1440)%Z ->
      Store.formatDate Date_parse_other timezoneOffset formatLocal saved
      = formatLocal (civil_from_days (day - 1)))
  /\ ((-1440 < timezoneOffset midnight <= 0)%Z ->
      Store.formatDate Date_parse_other timezoneOffset formatLocal saved
      = formatLocal (civil_from_days day)).
Proof.
  intros Y day midnight saved.
  assert (F : Store.formatDate Date_parse_other timezoneOffset formatLocal
                saved
              = formatLocal
                  (civil_from_days
                     ((midnight - timezoneOffset midnight * 60000)
                      / msPerDay))).
  { unfold Store.formatDate, Store.toLocaleDateString, saved, midnight, day.
    cbn [Form.truthy_cell negb].
    now rewrite (date_of_number_millis _ (proj2 (midnight_in_range t Y))). }
  split; [|split].
  - apply saved_date_iso, Y.
  - intros Z. rewrite F. f_equal. f_equal.
    subst midnight. unfold msPerDay in *.
    generalize dependent (timezoneOffset (day * 86400000)%Z). intros o _ Z.
    Z.div_mod_to_equations. lia.
  - intros Z. rewrite F. f_equal. f_equal.
    subst midnight. unfold msPerDay in *.
    generalize dependent (timezoneOffset (day * 86400000)%Z). intros o _ Z.
    Z.div_mod_to_equations. lia.
Qed.


Lemma X17_witness :
  exists jobA jobB,
    Store.loadJob (fun _ => None) (fun _ => None) (fun _ => None)
      (fun _ => None) (js "doc-1") Samples.dated_doc = Some jobA
    /\ Store.loadJob (fun _ => None) (fun _ => None) (fun _ => None)
         (fun _ => None) (js "doc-2") Samples.undated_doc = Some jobB
    /\ Listing.at_key (js "dateApplied") jobB = Listing.Js JNull
    /\ Listing.compareJobs (fun s => s) (fun _ _ => false)
         Listing.initialSortConfig jobB jobA
       = (- Listing.compareJobs (fun s => s) (fun _ _ => false)
              Listing.initialSortConfig jobA jobB)%Z.
Proof.
  eexists _, _. split; [reflexivity|]. split; [reflexivity|].
  split; [reflexivity|].
  destruct (@X17_loaded_dates (fun _ => None) (fun _ => None) (fun _ => None)
              (fun _ => None) (fun s => s) (fun _ _ => false)
              (js "doc-1") (js "doc-2") Samples.dated_doc Samples.undated_doc
              _ _ Listing.initialSortConfig eq_refl eq_refl
              (or_introl eq_refl)) as [_ [_ A]].
  exact A.
Defined.

Lemma X18_witness :
  let saved := Listing.Stamp (Store.millis_of 1793577600000) in
  Store.saved_date (fun _ => None) (fun _ => None) (fun _ => None)
    (fun _ => None) (Listing.Js (JStr (js "2026-11-02"))) = Some saved
  /\ Store.formatDate (fun _ => None) (fun _ => Demo.new_york)
       Samples.formatLocal saved = js "11/1/2026"
  /\ Store.formatDate (fun _ => None) (fun _ => 0%Z)
       Samples.formatLocal saved = js "11/2/2026".
Proof.
  intros saved.
  assert (Y : (1 <= Dates.year_of Demo.instant <= 9999)%Z)
    by (vm_compute; split; discriminate).
  destruct (@X18_saved_date_shown (fun _ => None) (fun _ => None)
              (fun _ => None) (fun _ => None) (fun _ => Demo.new_york)
              Samples.formatLocal Demo.instant Y) as [A [B _]].
  destruct (@X18_saved_date_shown (fun _ => None) (fun _ => None)
              (fun _ => None) (fun _ => None) (fun _ => 0%Z)
              Samples.formatLocal Demo.instant Y) as [_ [_ C]].
  split; [exact A|]. split.
  - exact (B ltac:(unfold Demo.new_york; lia)).
  - exact (C ltac:(lia)).
Defined.


Section DraftFacts.
Variable Date_parse_other : jsstring -> option Z.
Variable Date_other : jsval -> option Z.

(** The form opened on a draft dated [t]: every field but lastChecked
    is the draft's. *)
Lemma draft_form_fields d t nowApplied nowChecked formData :
  dateApplied d = iso_date t ->
  (0 <= Dates.year_of t <= 9999)%Z ->
  Form.getInitialFormData Date_parse_other Date_other nowApplied nowChecked
    (Some (Form.job_object d)) = Some formData ->
  (forall k, k <> js "lastChecked" ->
             Listing.at_key k formData
             = Listing.at_key k (Form.job_object d))
  /\ Listing.at_key (js "lastChecked") formData
     = Listing.Js (JStr (iso_date nowChecked)).
Proof.
  intros DA' Y G.
  assert (DA : Listing.at_key (js "dateApplied") (Form.job_object d)
               = Listing.Js (JStr (iso_date t)))
    by (cbn; now rewrite DA').
  assert (LC : Listing.at_key (js "lastChecked") (Form.job_object d)
               = Listing.Js JUndefined) by reflexivity.
  destruct (getInitialFormData_fields _ _ _ _ _ (job_object_keys d) G)
    as [F1 [F2 F3]].
  rewrite DA, (date_field_iso Date_parse_other Date_other _ _ Y) in F1.
  rewrite LC in F2. cbn [Form.date_field Form.truthy_cell truthy] in F2.
  injection F1 as F1. injection F2 as F2.
  split; [|now rewrite <- F2].
  intros k N.
  destruct (JsString.eqb k (js "dateApplied")) eqn:E.
  - apply eqb_eq in E. subst k. now rewrite DA.
  - assert (N' : k <> js "dateApplied")
      by (intros ->; rewrite eqb_refl in E; discriminate).
    rewrite (F3 k N' N).
    destruct (Form.has_key k (Form.job_object d)) eqn:H; [reflexivity|].
    now apply defaults_keys.
Qed.
End DraftFacts.

(** X20.  From the extraction to the store.  When a run has made a
    draft, the form is opened on it, and a signed-in user saves the form
    as it is (the dates being of the years 1 to 9999), the handler adds
    a document, never updates one, in that user's collection.  The
    document holds the extracted company, role, location and notes, the
    status "Saved (Not Applied)" and the trimmed URL as link; its
    dateApplied is the timestamp of the midnight, in UTC, that starts
    the UTC day of the extraction, and its lastChecked that of the day
    the form was opened; createdAt is the server's time. *)
Theorem X20_draft_saved
        (Date_parse_other : jsstring -> option Z)
        (Date_other : jsval -> option Z)
        (Date_of_timestamp : jsnum -> option Z)
        (Timestamp_other : option Z -> option jsnum)
        (commit : Store.write -> option jsstring)
        (env : Env) (url pasted : jsstring) (d : job) (log : list request)
        (nowApplied nowChecked : Z) (formData : Form.obj)
        (appId uid : jsstring) :
  extract env url pasted [] = (inl (inl d), log) ->
  (1 <= Dates.year_of (now env) <= 9999)%Z ->
  (1 <= Dates.year_of nowChecked <= 9999)%Z ->
  Form.getInitialFormData Date_parse_other Date_other nowApplied nowChecked
    (Form.job_prop (Draft d) []) = Some formData ->
  nonempty uid = true ->
  exists data,
    Store.attempted
      (Store.handleSaveJob Date_parse_other Date_other Date_of_timestamp
         Timestamp_other commit appId (Some uid)
         (Form.job_prop (Draft d) []) formData)
    = Some (Store.addDoc (Store.jobCollectionPath appId uid) data)
    /\ Listing.at_key (js "dateApplied") data
       = Listing.Stamp
           (Store.millis_of (now env / msPerDay * msPerDay))
    /\ Listing.at_key (js "lastChecked") data
       = Listing.Stamp
           (Store.millis_of (nowChecked / msPerDay * msPerDay))
    /\ Listing.at_key (js "createdAt") data = Store.serverTimestamp
    /\ Listing.at_key (js "status") data
       = Listing.Js (JStr (js "Saved (Not Applied)"))
    /\ Listing.at_key (js "link") data = Listing.Js (JStr (trim url))
    /\ Listing.at_key (js "companyName") data = Listing.Js (companyName d)
    /\ Listing.at_key (js "role") data = Listing.Js (role d)
    /\ Listing.at_key (js "location") data = Listing.Js (location d)
    /\ Listing.at_key (js "notes") data = Listing.Js (notes d).
Proof.
  intros X Y Yc G U. cbn [Form.job_prop] in *.
  destruct (extract_draft_inv env _ _ X)
    as (t & log0 & r & result & c & fields
        & _ & _ & _ & _ & _ & _ & _ & _ & _ & D).
  assert (DA : dateApplied d = iso_date (now env)) by now subst d.
  assert (ST : status_ d = js "Saved (Not Applied)") by now subst d.
  assert (LK : link d = trim url) by now subst d.
  destruct (draft_form_fields Date_parse_other Date_other d (now env)
              nowApplied nowChecked DA ltac:(lia) G) as [A L].
  assert (FA : Listing.at_key (js "dateApplied") formData
               = Listing.Js (JStr (iso_date (now env)))).
  { rewrite (A (js "dateApplied")) by discriminate.
    rewrite <- DA. reflexivity. }
  set (da := Listing.Stamp (Store.millis_of (now env / msPerDay * msPerDay))).
  set (lc := Listing.Stamp
               (Store.millis_of (nowChecked / msPerDay * msPerDay))).
  set (data :=
         Form.assign (js "createdAt") Store.serverTimestamp
           (Form.assign (js "updatedAt") Store.serverTimestamp
              (Form.assign (js "userId") (Listing.Js (JStr uid))
                 (Form.assign (js "lastChecked") lc
                    (Form.assign (js "dateApplied") da formData))))).
  assert (P : Store.processedData Date_parse_other Date_other
                Date_of_timestamp Timestamp_other uid
                (Some (Form.job_object d)) formData = Some data).
  { unfold Store.processedData. rewrite FA, L.
    rewrite !saved_date_iso by assumption. reflexivity. }
  exists data. split.
  { unfold Store.handleSaveJob. rewrite U. cbn [negb]. rewrite P.
    cbv zeta.
    change (Form.truthy_cell (Store.id_of (Some (Form.job_object d))))
      with false. cbv iota.
    now destruct (commit _). }
  assert (K : forall k,
             ~ In k [js "dateApplied"; js "lastChecked"; js "userId";
                     js "updatedAt"; js "createdAt"] ->
             Listing.at_key k data = Listing.at_key k (Form.job_object d)).
  { intros k N. unfold data. rewrite !at_key_assign.
    repeat match goal with
           | |- context [JsString.eqb k ?s] =>
               destruct (JsString.eqb k s) eqn:E;
               [apply eqb_eq in E; exfalso; apply N; rewrite E; simpl; tauto
               |clear E]
           end.
    apply A. intros ->. apply N. simpl. tauto. }
  split; [unfold data; now rewrite !at_key_assign|].
  split; [unfold data; now rewrite !at_key_assign|].
  split; [unfold data; now rewrite !at_key_assign|].
  rewrite !K by (cbn; intuition discriminate).
  cbn [Form.job_object Listing.at_key]. rewrite <- ST, <- LK.
  repeat split; reflexivity.
Qed.

Lemma X20_witness :
  exists data,
    Store.attempted
      (Store.handleSaveJob (fun _ => None) (fun _ => None) (fun _ => None)
         (fun _ => None) (fun _ => None) Store.appId_default
         (Some (js "user-1")) (Some (Form.job_object Samples.acme_draft))
         Samples.acme_form)
    = Some (Store.addDoc
              (Store.jobCollectionPath Store.appId_default (js "user-1"))
              data)
    /\ Listing.at_key (js "dateApplied") data
       = Listing.Stamp (Store.millis_of 1793577600000)
    /\ Listing.at_key (js "status") data = Form.str "Saved (Not Applied)".
Proof.
  assert (X : extract Demo.quiet [] scenarioA_text []
              = (inl (inl Samples.acme_draft),
                 [extraction_request scenarioA_text])) by reflexivity.
  assert (Y : (1 <= Dates.year_of Demo.instant <= 9999)%Z)
    by (vm_compute; split; discriminate).
  destruct (@X20_draft_saved (fun _ => None) (fun _ => None) (fun _ => None)
              (fun _ => None) (fun _ => None) Demo.quiet [] scenarioA_text
              Samples.acme_draft _ Demo.instant Demo.instant
              Samples.acme_form Store.appId_default (js "user-1")
              X Y Y eq_refl eq_refl)
    as (data & W & A & _ & _ & S & _).
  exists data. split; [exact W|]. split; [exact A|exact S].
Defined.

(** A time of the years 1 to 9999 is a time value a [Date] can hold. *)
Lemma time_in_range t :
  (1 <= Dates.year_of t <= 9999)%Z -> (Z.abs t <= 8640000000000000)%Z.
Proof.
  unfold Dates.year_of. intros Y.
  pose proof (civil_from_days_inverse (t / msPerDay)) as I.
  destruct (civil_from_days (t / msPerDay)) as [[y m] d]. simpl in Y.
  destruct I as [D V].
  pose proof (@days_from_civil_bound y m d Y V) as B. rewrite D in B.
  unfold msPerDay in *. Z.div_mod_to_equations. lia.
Qed.

Section EditFacts.
Variable Date_parse_other : jsstring -> option Z.
Variable Date_other : jsval -> option Z.

(** The form's value for a date field that holds a timestamp. *)
Lemma date_field_stamp t default :
  (1 <= Dates.year_of t <= 9999)%Z ->
  Form.date_field Date_parse_other Date_other
    (Listing.Stamp (Store.millis_of t)) default
  = Some (Listing.Js (JStr (iso_date t))).
Proof.
  intros Y. unfold Form.date_field, Form.date_of.
  cbn [Form.truthy_cell].
  now rewrite (date_of_number_millis _ (time_in_range _ Y)).
Qed.
End EditFacts.

(** X21.  Editing a stored job.  When the form is opened on a job of
    the list that has an id and timestamps (of the years 1 to 9999) as
    dates, and a signed-in user saves it as it is, the handler updates
    the document of that id, never adds one, and the document written
    carries the id.  Each date is written as the timestamp of the
    midnight, in UTC, that starts its UTC day: a date this application
    saved is written back unchanged, any other loses its time of day.
    createdAt is the job's when it has one and the server's time
    otherwise. *)
Theorem X21_edit_saved
        (Date_parse_other : jsstring -> option Z)
        (Date_other : jsval -> option Z)
        (Date_of_timestamp : jsnum -> option Z)
        (Timestamp_other : option Z -> option jsnum)
        (commit : Store.write -> option jsstring)
        (nowApplied nowChecked applied checked : Z)
        (job : Form.obj) (appId uid : jsstring) :
  NoDup (List.map fst job) ->
  Form.truthy_cell (Listing.at_key (js "id") job) = true ->
  Listing.at_key (js "dateApplied") job
  = Listing.Stamp (Store.millis_of applied) ->
  Listing.at_key (js "lastChecked") job
  = Listing.Stamp (Store.millis_of checked) ->
  (1 <= Dates.year_of applied <= 9999)%Z ->
  (1 <= Dates.year_of checked <= 9999)%Z ->
  nonempty uid = true ->
  exists formData data,
    Form.getInitialFormData Date_parse_other Date_other nowApplied nowChecked
      (Some job) = Some formData
    /\ Store.attempted
         (Store.handleSaveJob Date_parse_other Date_other Date_of_timestamp
            Timestamp_other commit appId (Some uid) (Some job) formData)
       = Some (Store.updateDoc (Store.jobCollectionPath appId uid)
                               (Listing.at_key (js "id") job) data)
    /\ Listing.at_key (js "id") data = Listing.at_key (js "id") job
    /\ Listing.at_key (js "dateApplied") data
       = Listing.Stamp (Store.millis_of (applied / msPerDay * msPerDay))
    /\ Listing.at_key (js "lastChecked") data
       = Listing.Stamp (Store.millis_of (checked / msPerDay * msPerDay))
    /\ ((applied mod msPerDay = 0)%Z ->
        Listing.at_key (js "dateApplied") data
        = Listing.at_key (js "dateApplied") job)
    /\ Listing.at_key (js "createdAt") data
       = (if Form.truthy_cell (Listing.at_key (js "createdAt") job)
          then Listing.at_key (js "createdAt") job
          else Store.serverTimestamp).
Proof.
  intros D I A C Ya Yc U.
  assert (G : exists formData,
             Form.getInitialFormData Date_parse_other Date_other nowApplied
               nowChecked (Some job) = Some formData).
  { unfold Form.getInitialFormData. rewrite A, C.
    rewrite !date_field_stamp by assumption. eauto. }
  destruct G as [formData G]. exists formData.
  destruct (getInitialFormData_fields _ _ _ _ _ D G) as [F1 [F2 F3]].
  rewrite A, date_field_stamp in F1 by assumption.
  rewrite C, date_field_stamp in F2 by assumption.
  injection F1 as F1. injection F2 as F2.
  set (da := Listing.Stamp (Store.millis_of (applied / msPerDay * msPerDay))).
  set (lc := Listing.Stamp (Store.millis_of (checked / msPerDay * msPerDay))).
  set (ca := if Form.truthy_cell (Listing.at_key (js "createdAt") job)
             then Listing.at_key (js "createdAt") job
             else Store.serverTimestamp).
  set (data :=
         Form.assign (js "createdAt") ca
           (Form.assign (js "updatedAt") Store.serverTimestamp
              (Form.assign (js "userId") (Listing.Js (JStr uid))
                 (Form.assign (js "lastChecked") lc
                    (Form.assign (js "dateApplied") da formData))))).
  assert (P : Store.processedData Date_parse_other Date_other
                Date_of_timestamp Timestamp_other uid (Some job) formData
              = Some data).
  { unfold Store.processedData. rewrite <- F1, <- F2.
    rewrite !saved_date_iso by assumption.
    cbn [Store.id_of]. rewrite I. reflexivity. }
  exists data. split; [exact G|]. split.
  { unfold Store.handleSaveJob. rewrite U. cbn [negb]. rewrite P.
    cbv zeta. cbn [Store.id_of]. rewrite I.
    now destruct (commit _). }
  split.
  { unfold data. rewrite !at_key_assign.
    change (JsString.eqb (js "id") (js "createdAt")) with false.
    change (JsString.eqb (js "id") (js "updatedAt")) with false.
    change (JsString.eqb (js "id") (js "userId")) with false.
    change (JsString.eqb (js "id") (js "lastChecked")) with false.
    change (JsString.eqb (js "id") (js "dateApplied")) with false.
    cbv iota. rewrite (F3 (js "id")) by discriminate.
    destruct (Form.has_key (js "id") job) eqn:H; [reflexivity|].
    exfalso. clear - I H. unfold Form.has_key in H.
    induction job as [|[k v] rest IH]; [discriminate|].
    cbn [existsb fst] in H. apply orb_false_iff in H as [H1 H2].
    cbn [Listing.at_key] in I. rewrite H1 in I. now apply IH. }
  split; [unfold data; now rewrite !at_key_assign|].
  split; [unfold data; now rewrite !at_key_assign|].
  split; [|unfold data; now rewrite at_key_assign].
  intros M. unfold data. rewrite !at_key_assign, A. cbn. unfold da.
  do 2 f_equal. unfold msPerDay in *. Z.div_mod_to_equations. lia.
Qed.

Lemma X21_witness :
  exists formData data,
    Form.getInitialFormData (fun _ => None) (fun _ => None)
      Demo.instant Demo.instant (Some Samples.stored_job) = Some formData
    /\ Store.attempted
         (Store.handleSaveJob (fun _ => None) (fun _ => None)
            (fun _ => None) (fun _ => None) (fun _ => None)
            Store.appId_default (Some (js "user-1"))
            (Some Samples.stored_job) formData)
       = Some (Store.updateDoc
                 (Store.jobCollectionPath Store.appId_default (js "user-1"))
                 (Form.str "doc-1") data)
    /\ Listing.at_key (js "dateApplied") data
       = Listing.Stamp (Store.millis_of 1793577600000)
    /\ Listing.at_key (js "lastChecked") data
       = Listing.Stamp (Store.millis_of 1793577600000).
Proof.
  assert (Y : (1 <= Dates.year_of Demo.instant <= 9999)%Z)
    by (vm_compute; split; discriminate).
  assert (Y' : (1 <= Dates.year_of 1793577600000 <= 9999)%Z)
    by (vm_compute; split; discriminate).
  destruct (@X21_edit_saved (fun _ => None) (fun _ => None) (fun _ => None)
              (fun _ => None) (fun _ => None) Demo.instant Demo.instant
              1793577600000%Z Demo.instant Samples.stored_job
              Store.appId_default (js "user-1"))
    as (formData & data & G & W & _ & _ & L & K & _).
  - repeat (constructor; [cbn; intuition discriminate|]). constructor.
  - reflexivity.
  - reflexivity.
  - reflexivity.
  - exact Y'.
  - exact Y.
  - reflexivity.
  - exists formData, data. split; [exact G|]. split; [exact W|].
    split; [exact (K eq_refl)|exact L].
Defined.

(* ================================================================== *)
(** * What the extraction request carries *)

(** The prompt ends with the text between two triple quotes. *)
Lemma prompt_head_end :
  exists instructions,
    prompt_head
    = instructions ++ js "Job Posting Content: " ++ dq ++ dq ++ dq.
Proof.
  unfold prompt_head. eexists. rewrite !app_assoc. reflexivity.
Qed.

Section Submitted.
Variable env : Env.

(** The request that ends a run which got its text: a POST to the
    endpoint of the model whose prompt is the instructions followed by
    the text, cut at the cap, between triple quotes; no other text gives
    this request. *)
Lemma submitted_text url pasted t log :
  source_text env url pasted [] = (inl (inl t), log) ->
  exists o p,
    extract env url pasted [] = (inl o, log ++ [POST apiUrl p])
    /\ contents_text p = prompt_head ++ truncate t ++ dq ++ dq ++ dq
    /\ (forall t', extraction_request t' = POST apiUrl p -> t' = truncate t).
Proof.
  intros S. destruct (extract_from_text env _ _ S) as [o X].
  exists o, (extraction_payload (truncate t)).
  split; [exact X|]. split; [reflexivity|].
  intros t' E. apply extraction_payload_inj.
  unfold extraction_request in E. congruence.
Qed.

(** The requests of the handler are those of the pipeline. *)
Lemma handler_log st :
  snd (handleExtractDetails env st)
  = snd (extract env (jobPostUrl st) (jobDescriptionText st) []).
Proof.
  unfold handleExtractDetails.
  now destruct (extract env _ _ []) as [[[d|m]|e] log].
Qed.
End Submitted.

(** C2.  Truncation.  Whatever text [t] the first phase delivers, the
    run goes on to issue the extraction request, a POST whose prompt is
    the instructions followed by [truncate t] between triple quotes, and
    no other text gives that request.  [truncate t] is [t] itself when
    [t] has at most 28,000 characters and exactly its first 28,000
    characters otherwise: nothing is appended and the cut is not moved
    to a word boundary.  A text of 40,000 characters is submitted as its
    first 28,000. *)
Theorem C2_truncation (env : Env) (url pasted t : jsstring)
        (log : list request) :
  source_text env url pasted [] = (inl (inl t), log) ->
  (exists o p,
      extract env url pasted [] = (inl o, log ++ [POST apiUrl p])
      /\ contents_text p = prompt_head ++ truncate t ++ dq ++ dq ++ dq
      /\ (forall t', extraction_request t' = POST apiUrl p ->
                     t' = truncate t))
  /\ (exists instructions,
         prompt_head
         = instructions ++ js "Job Posting Content: " ++ dq ++ dq ++ dq)
  /\ (exists o, extract env url pasted []
                = (inl o, log ++ [extraction_request (truncate t)]))
  /\ ((len t > 28000)%Z ->
      truncate t = firstn (Z.to_nat 28000) t /\ len (truncate t) = 28000%Z)
  /\ ((len t <= 28000)%Z -> truncate t = t)
  /\ (len t = 40000%Z ->
      truncate t = firstn (Z.to_nat 28000) t /\ len (truncate t) = 28000%Z).
Proof.
  intros S.
  split; [exact (submitted_text _ _ _ S)|].
  split; [exact prompt_head_end|].
  split; [exact (extract_from_text _ _ _ S)|].
  split; [apply truncate_long|].
  split; [apply truncate_short|].
  intros L. apply truncate_long. lia.
Qed.

Lemma C2_witness :
  (exists o p,
      extract Demo.quiet [] Demo.long_text [] = (inl o, [POST apiUrl p])
      /\ contents_text p
         = prompt_head ++ firstn (Z.to_nat 28000) Demo.long_text
           ++ dq ++ dq ++ dq)
  /\ len (truncate Demo.long_text) = 28000%Z
  /\ truncate (js "Senior Engineer") = js "Senior Engineer".
Proof.
  assert (L : len Demo.long_text = 40000%Z) by (apply len_repeat; lia).
  assert (S : source_text Demo.quiet [] Demo.long_text []
              = (inl (inl Demo.long_text), [])).
  { assert (T : trim Demo.long_text = Demo.long_text)
      by (apply trim_repeat; reflexivity).
    rewrite <- T at 2.
    apply source_text_pasted; [reflexivity|].
    rewrite T. apply nonempty_repeat. lia. }
  assert (S' : source_text Demo.quiet [] (js "Senior Engineer") []
               = (inl (inl (js "Senior Engineer")), [])) by reflexivity.
  destruct (C2_truncation Demo.quiet [] Demo.long_text S)
    as [[o [p [X [P _]]]] [_ [_ [_ [_ B]]]]].
  destruct (C2_truncation Demo.quiet [] (js "Senior Engineer") S')
    as [_ [_ [_ [_ [C _]]]]].
  destruct (B L) as [B1 B2].
  split; [|split; [exact B2|]].
  - exists o, p. split; [exact X|]. rewrite P, B1. reflexivity.
  - apply C. vm_compute. discriminate.
Defined.

(* ================================================================== *)
(** * The text on its way to the extraction *)

Lemma replace_in_run more : forall s,
  forallb is_ws more = true ->
  replace_ws_runs true (more ++ s) = replace_ws_runs true s.
Proof.
  induction more as [|c more IH]; intros s W; [reflexivity|].
  cbn [forallb] in W. apply andb_true_iff in W as [Wc W].
  cbn [app replace_ws_runs]. rewrite Wc. now apply IH.
Qed.

Lemma replace_after_run s :
  no_leading_ws s = true -> replace_ws_runs true s = collapse s.
Proof.
  destruct s as [|c s]; [reflexivity|].
  cbn [no_leading_ws]. intros W. apply negb_true_iff in W.
  unfold collapse. cbn [replace_ws_runs]. now rewrite W.
Qed.

(** [collapse] replaces the runs, and is the only way to do so. *)
Lemma runs_replaced_unique s t : runs_replaced s t -> t = collapse s.
Proof.
  induction 1 as [|c s t W _ IH|c s t W L _ IH|c more s t W N A L _ IH].
  - reflexivity.
  - unfold collapse in *. cbn [replace_ws_runs]. rewrite W. now f_equal.
  - unfold collapse in *. cbn [replace_ws_runs]. rewrite W.
    destruct s as [|c' s']; [now rewrite IH|].
    cbn [no_leading_ws] in L. apply negb_true_iff in L. rewrite L.
    now f_equal.
  - destruct more as [|c' more']; [congruence|].
    cbn [forallb] in A. apply andb_true_iff in A as [Wc' A'].
    unfold collapse at 1. cbn [app replace_ws_runs]. rewrite W, Wc'.
    f_equal. rewrite replace_in_run by exact A'.
    rewrite replace_after_run by exact L. exact IH.
Qed.

Lemma runs_replaced_collapse s : runs_replaced s (collapse s).
Proof.
  remember (List.length s) as n eqn:E.
  revert s E. induction n as [n IH] using lt_wf_ind. intros s E.
  destruct s as [|c r]; [constructor|].
  unfold collapse. cbn [replace_ws_runs].
  destruct (is_ws c) eqn:W.
  - destruct r as [|c' r'].
    + apply rr_alone; [exact W|reflexivity|constructor].
    + destruct (is_ws c') eqn:W'.
      * destruct (trimStart_split (c' :: r')) as [more [S A]].
        assert (M : more <> []).
        { intros ->. cbn [app] in S.
          pose proof (trimStart_no_leading (c' :: r')) as L.
          rewrite <- S in L. cbn [no_leading_ws] in L.
          rewrite W' in L. discriminate. }
        rewrite S at 2.
        rewrite replace_in_run by exact A.
        rewrite replace_after_run by apply trimStart_no_leading.
        rewrite S at 1.
        apply rr_run; auto using trimStart_no_leading.
        apply (IH (List.length (trimStart (c' :: r')))); [|reflexivity].
        subst n. cbn [List.length].
        apply (f_equal (@List.length _)) in S.
        rewrite length_app in S. cbn [List.length] in S.
        destruct more; [congruence|]. cbn [List.length] in S. lia.
      * apply rr_alone; [exact W|cbn; now rewrite W'|].
        apply (IH (List.length (c' :: r'))); [subst n; cbn; lia|reflexivity].
  - apply rr_char; [exact W|].
    apply (IH (List.length r)); [subst n; cbn; lia|reflexivity].
Qed.

(** [trim] takes whitespace off the two ends, and nothing else. *)
Lemma trim_split_ws s :
  exists lead trail,
    s = lead ++ trim s ++ trail
    /\ forallb is_ws lead = true /\ forallb is_ws trail = true.
Proof.
  destruct (trimStart_split s) as [p [E W]].
  destruct (trimEnd_split_ws (trimStart s)) as [q [E' W']].
  exists p, q. unfold trim. split; [|split; assumption].
  rewrite <- E'. exact E.
Qed.

(** C3, as the code has it.  The text handed to the extraction call,
    the one between the triple quotes of the prompt, has at most 28,000
    characters and no leading whitespace on both paths, and no trailing
    whitespace either when the 28,000 cut was not applied; it is a
    prefix of the text [t] of the first phase.  On the URL path [t] is
    made of the text selected from the fetched page: each run of two or
    more whitespace characters is replaced by one space, while a
    whitespace character standing alone (a newline, a tab) is kept as it
    is, and the whitespace at the two ends is taken off; so the text has
    no two whitespace characters in a row.  On the pasted-text path [t]
    is the pasted text with the whitespace at its two ends taken off,
    and the whitespace inside it untouched. *)
Theorem C3_text_handed_to_extraction (env : Env) (url pasted t : jsstring)
        (log : list request) :
  source_text env url pasted [] = (inl (inl t), log) ->
  (exists o p,
      extract env url pasted [] = (inl o, log ++ [POST apiUrl p])
      /\ contents_text p = prompt_head ++ truncate t ++ dq ++ dq ++ dq
      /\ (forall t', extraction_request t' = POST apiUrl p ->
                     t' = truncate t))
  /\ (exists o, extract env url pasted []
                = (inl o, log ++ [extraction_request (truncate t)]))
  /\ (exists rest, t = truncate t ++ rest)
  /\ (len (truncate t) <= cap)%Z
  /\ no_leading_ws (truncate t) = true
  /\ ((len t <= cap)%Z -> no_trailing_ws (truncate t) = true)
  /\ (nonempty (trim url) = true ->
      no_ws_run (truncate t) = true
      /\ exists encoded r html selected replaced lead trail,
           encodeURIComponent env url = Some encoded
           /\ fetch env (proxy_request env encoded) = Responded r
           /\ text r = Some html
           /\ selectPrimaryContent env
                (remove_all (matches env) removed_selector
                            (parseFromString env html))
              = inl (Some selected)
           /\ runs_replaced selected replaced
           /\ replaced = lead ++ t ++ trail
           /\ forallb is_ws lead = true
           /\ forallb is_ws trail = true
           /\ t = trim replaced)
  /\ (nonempty (trim url) = false ->
      t = trim pasted
      /\ exists lead trail,
           pasted = lead ++ t ++ trail
           /\ forallb is_ws lead = true
           /\ forallb is_ws trail = true).
Proof.
  intros S.
  assert (T : exists x, t = trim x).
  { destruct (source_text_cases _ _ _ S) as [[_ [x E]]|[_ [E _]]]; eauto. }
  destruct T as [x T].
  assert (F : forall P : jsstring -> bool,
             (forall n s, P s = true -> P (firstn n s) = true) ->
             P t = true -> P (truncate t) = true).
  { intros P HP Ht. unfold truncate, substring0.
    destruct (len t >? 28000)%Z; auto. }
  split; [exact (submitted_text _ _ _ S)|].
  split; [exact (extract_from_text _ _ _ S)|].
  split.
  { unfold truncate, substring0. destruct (len t >? 28000)%Z.
    - exists (skipn (Z.to_nat 28000) t). symmetry. apply firstn_skipn.
    - exists []. now rewrite app_nil_r. }
  split; [apply len_truncate|].
  split; [apply F; [apply no_leading_firstn|subst t; apply trim_no_leading]|].
  split; [intros L; rewrite truncate_short by exact L;
          subst t; apply trim_no_trailing|].
  split.
  - intros U. split.
    + apply F; [apply no_ws_run_firstn|].
      destruct (source_text_cases _ _ _ S) as [[_ [y E]]|[V _]];
        [|congruence].
      rewrite E. apply no_ws_run_trim, no_ws_run_collapse.
    + revert S. unfold source_text. run_monad. rewrite U.
      destruct (text_from_url env url []) as [[t'|e] l] eqn:X;
        [|discriminate].
      intros S. injection S as <- _.
      destruct (text_from_url_inv env _ _ X)
        as (encoded & r & html & selected & E & Fe & _ & Te & P & Tt & _).
      destruct (trim_split_ws (collapse selected))
        as (lead & trail & D & Wl & Wt).
      exists encoded, r, html, selected, (collapse selected), lead, trail.
      rewrite <- Tt in D.
      repeat (split; [assumption || apply runs_replaced_collapse|]).
      exact Tt.
  - intros U.
    destruct (source_text_cases _ _ _ S) as [[V _]|[_ [E _]]];
      [congruence|].
    split; [exact E|].
    destruct (trim_split_ws pasted) as (lead & trail & D & Wl & Wt).
    exists lead, trail. rewrite <- E in D. auto.
Qed.

Lemma C3_witness :
  no_ws_run (truncate Demo.posting_text) = true
  /\ no_trailing_ws (truncate Demo.posting_text) = true
  /\ (exists selected replaced,
         runs_replaced selected replaced
         /\ Demo.posting_text = trim replaced)
  /\ js "Engineer  at Acme" = trim (js " Engineer  at Acme ").
Proof.
  assert (S : source_text Demo.online Demo.job_url (js "ignored") []
              = (inl (inl Demo.posting_text), [proxy_request Demo.online Demo.job_url]))
    by reflexivity.
  assert (S' : source_text Demo.quiet [] (js " Engineer  at Acme ") []
               = (inl (inl (js "Engineer  at Acme")), [])) by reflexivity.
  destruct (C3_text_handed_to_extraction Demo.online Demo.job_url
              (js "ignored") S) as [_ [_ [_ [_ [_ [A [B _]]]]]]].
  destruct (C3_text_handed_to_extraction Demo.quiet []
              (js " Engineer  at Acme ") S') as [_ [_ [_ [_ [_ [_ [_ C]]]]]]].
  destruct (B eq_refl)
    as (N & encoded & r & html & selected & replaced & lead & trail
        & _ & _ & _ & _ & R & _ & _ & _ & Tt).
  destruct (C eq_refl) as [C' _].
  split; [exact N|].
  split; [apply A; vm_compute; discriminate|].
  split; [|exact C'].
  exists selected, replaced. split; [exact R|exact Tt].
Defined.

(** A text of the letter [a], a space and a [b], cut after the space. *)
Lemma cut_after_space k :
  let s := repeat 97%N (S k) ++ [32%N; 98%N] in
  trim s = s
  /\ nonempty s = true
  /\ (len s > Z.of_nat (S (S k)))%Z
  /\ firstn (S (S k)) s = repeat 97%N (S k) ++ [32%N]
  /\ no_trailing_ws (repeat 97%N (S k) ++ [32%N]) = false.
Proof.
  intros s. subst s. split; [|split; [|split; [|split]]].
  - apply trim_fixed; [reflexivity|].
    unfold no_trailing_ws. rewrite rev_app_distr. reflexivity.
  - reflexivity.
  - unfold len. rewrite length_app, repeat_length. cbn [List.length]. lia.
  - rewrite firstn_app, repeat_length.
    rewrite firstn_all2 by (rewrite repeat_length; lia).
    replace (S (S k) - S k)%nat with 1%nat by lia. reflexivity.
  - unfold no_trailing_ws. rewrite rev_app_distr. reflexivity.
Qed.

(** C3 fails as stated, in three ways.  With a blank URL, the pasted
    text ["Engineer  at Acme"], which has two spaces in a row, is handed
    to the extraction call as it is.  On the URL path, a page whose
    posting has two lines is handed over with the newline between them:
    a whitespace character that is not a space.  And a text whose
    28,000th character is a space is handed over, cut there, with that
    space at its end. *)
Lemma C3_counterexample :
  (snd (handleExtractDetails Demo.quiet
          (Demo.typed [] (js "Engineer  at Acme")))
   = [extraction_request (js "Engineer  at Acme")]
   /\ NormalizedText (js "Engineer  at Acme") = false)
  /\ (snd (handleExtractDetails Demo.two_lined (Demo.typed Demo.job_url []))
      = [proxy_request Demo.two_lined Demo.job_url;
         extraction_request Demo.two_lines_text]
      /\ only_spaces Demo.two_lines_text = false
      /\ NormalizedText Demo.two_lines_text = false)
  /\ (snd (handleExtractDetails Demo.quiet (Demo.typed [] Demo.cut_text))
      = [extraction_request (truncate Demo.cut_text)]
      /\ truncate Demo.cut_text = repeat 97%N (Z.to_nat 27999) ++ [32%N]
      /\ no_trailing_ws (truncate Demo.cut_text) = false
      /\ NormalizedText (truncate Demo.cut_text) = false).
Proof.
  split; [split; reflexivity|]. split; [repeat split; reflexivity|].
  unfold Demo.cut_text.
  replace (Z.to_nat 27999) with (S (Z.to_nat 27998)) by lia.
  remember (Z.to_nat 27998) as k eqn:K.
  destruct (cut_after_space k) as (T & N & L & F & W).
  set (s := repeat 97%N (S k) ++ [32%N; 98%N]) in *.
  assert (C : truncate s = repeat 97%N (S k) ++ [32%N]).
  { unfold truncate, substring0.
    assert (G : (len s >? 28000)%Z = true) by (apply Z.gtb_lt; lia).
    rewrite G.
    replace (Z.to_nat 28000) with (S (S k)) by lia. exact F. }
  split; [|split; [exact C|split]].
  - rewrite handler_log.
    change (jobPostUrl (Demo.typed [] s)) with (@nil unit16).
    change (jobDescriptionText (Demo.typed [] s)) with s.
    assert (S0 : source_text Demo.quiet [] s [] = (inl (inl s), [])).
    { rewrite <- T at 2. apply source_text_pasted; [reflexivity|].
      now rewrite T. }
    destruct (extract_from_text Demo.quiet _ _ S0) as [o X].
    now rewrite X.
  - now rewrite C.
  - unfold NormalizedText. rewrite C, W. now rewrite !andb_false_r.
Qed.

(* ================================================================== *)
(** * An extraction that gives no draft *)

Lemma failed_stopped st m : stopped st (failed st m) m.
Proof. repeat split. Qed.

Section Answers.
Variable env : Env.

(** The run after the text [t] has been obtained, when the model
    answers 2xx with a body that is not JSON. *)
Lemma extract_unreadable url pasted t log r :
  source_text env url pasted [] = (inl (inl t), log) ->
  fetch env (extraction_request (truncate t)) = Responded r ->
  ok r = true ->
  json r = None ->
  extract env url pasted []
  = (inl (inr (AiExtractionError BodyUnreadable)),
     log ++ [extraction_request (truncate t)]).
Proof.
  intros S F K J. unfold extract, ai_extract, await_fetch. run_monad.
  now rewrite S, F, K, J.
Qed.
End Answers.

(** C6, as the code has it.  Suppose the extraction call answers 2xx.
    If the body is a JSON value other than [null] that has no candidate
    text (its [candidates] is falsy, or the chain down to [text] is),
    the handler stops with MalformedResponseError, the message that the
    response format was unexpected.  If the candidate text is there and
    [JSON.parse] rejects it, the handler stops with InvalidJsonError.
    But a body that is not JSON, a body that is the JSON [null], and a
    candidate text that parses to [null] each end in the general
    message of an extraction error, carrying what was thrown.  In every
    one of these cases the extraction request is the last request, and
    the state is the one before the run but for the message and the
    spinner: the job, the form, the dialog and the inputs are as they
    were, so no draft is made. *)
Theorem C6_malformed_or_invalid_response (env : Env) (st : state)
        (t : jsstring) (log : list request) (r : response) :
  source_text env (jobPostUrl st) (jobDescriptionText st) []
  = (inl (inl t), log) ->
  fetch env (extraction_request (truncate t)) = Responded r ->
  ok r = true ->
  let st' := fst (handleExtractDetails env st) in
  let candidates := fun result => own_property result (js "candidates") in
  let text_of := fun result => candidate_text (candidates result) in
  let has_text := fun result =>
    truthy (candidates result) && truthy (text_of result) in
  snd (handleExtractDetails env st)
  = log ++ [extraction_request (truncate t)]
  /\ (forall result,
         json r = Some result -> is_nullish result = false ->
         has_text result = false ->
         stopped st st' MalformedResponseError)
  /\ (forall result,
         json r = Some result -> is_nullish result = false ->
         has_text result = true ->
         JSON_parse env (text_of result) = None ->
         stopped st st' InvalidJsonError)
  /\ (json r = None -> stopped st st' (AiExtractionError BodyUnreadable))
  /\ (forall result,
         json r = Some result -> is_nullish result = true ->
         stopped st st' (AiExtractionError NullDereference))
  /\ (forall result extractedData,
         json r = Some result -> is_nullish result = false ->
         has_text result = true ->
         JSON_parse env (text_of result) = Some extractedData ->
         is_nullish extractedData = true ->
         stopped st st' (AiExtractionError NullDereference)).
Proof.
  intros S F K st' candidates text_of has_text.
  subst st' has_text text_of candidates. cbv beta.
  split.
  { rewrite handler_log.
    destruct (extract_from_text env _ _ S) as [o X]. now rewrite X. }
  assert (A : forall result, json r = Some result ->
              extract env (jobPostUrl st) (jobDescriptionText st) [] = _)
    by (intros result J; exact (extract_answered env _ _ S F K J)).
  unfold get in A.
  split; [|split; [|split; [|split]]].
  - intros result J N V. specialize (A _ J). rewrite N, V in A.
    rewrite (handler_failed env st A). apply failed_stopped.
  - intros result J N V P. specialize (A _ J). rewrite N, V, P in A.
    rewrite (handler_failed env st A). apply failed_stopped.
  - intros J. rewrite (handler_failed env st (extract_unreadable env _ _ S F K J)).
    apply failed_stopped.
  - intros result J N. specialize (A _ J). rewrite N in A.
    rewrite (handler_failed env st A). apply failed_stopped.
  - intros result data J N V P D. specialize (A _ J).
    rewrite N, V, P, D in A.
    rewrite (handler_failed env st A). apply failed_stopped.
Qed.

Lemma C6_witness :
  let st := Demo.typed [] scenarioA_text in
  stopped st (fst (handleExtractDetails Demo.garbled st)) InvalidJsonError
  /\ stopped st (fst (handleExtractDetails Demo.empty_envelope st))
             MalformedResponseError
  /\ snd (handleExtractDetails Demo.empty_envelope st)
     = [extraction_request scenarioA_text].
Proof.
  intros st.
  assert (S : forall e, source_text e (jobPostUrl st) (jobDescriptionText st) []
                        = (inl (inl scenarioA_text), [])) by reflexivity.
  destruct (@C6_malformed_or_invalid_response Demo.garbled st _ _
              {| status := 200; statusText := js "OK"; text := None;
                 json := Some (Demo.envelope (js "{invalid json")) |}
              (S _) eq_refl eq_refl) as [_ [_ [A _]]].
  destruct (@C6_malformed_or_invalid_response Demo.empty_envelope st _ _
              {| status := 200; statusText := js "OK"; text := None;
                 json := Some (JObj [(js "candidates", JArr [])]) |}
              (S _) eq_refl eq_refl) as [L [B _]].
  split; [|split].
  - exact (A _ eq_refl eq_refl eq_refl eq_refl).
  - exact (B _ eq_refl eq_refl eq_refl).
  - exact L.
Defined.

(** C6 fails as stated: a 2xx answer whose body is the JSON [null], one
    whose body is not JSON, and one whose candidate text is the JSON
    [null] have no candidate content or no usable extraction, yet the
    run ends neither in MalformedResponseError nor in InvalidJsonError
    but in the general message of an extraction error. *)
Lemma C6_counterexample :
  let st := Demo.typed [] scenarioA_text in
  extractionError (fst (handleExtractDetails Demo.null_envelope st))
  = AiExtractionError NullDereference
  /\ extractionError (fst (handleExtractDetails Demo.unparsable st))
     = AiExtractionError BodyUnreadable
  /\ extractionError (fst (handleExtractDetails Demo.null_text st))
     = AiExtractionError NullDereference
  /\ AiExtractionError NullDereference <> MalformedResponseError
  /\ AiExtractionError BodyUnreadable <> MalformedResponseError
  /\ AiExtractionError NullDereference <> InvalidJsonError.
Proof.
  intros st. repeat split; try reflexivity; discriminate.
Qed.

(* ================================================================== *)
(** * The fields of a draft, one by one *)

(** C10, as the code has it.  The draft of a successful run is made of
    the value [extractedData] that [JSON.parse] gave for the candidate
    text of the answer.  Its companyName, role, location and notes are
    [v || ''] for the value [v] of companyName, role, location and
    summary in [extractedData]: never null or undefined; the empty
    string when [v] is null, missing or otherwise falsy; [v] itself when
    [v] is truthy, so a string whenever [v] is a string, while a truthy
    [v] that is not a string is copied as it is.  The six other fields
    are strings, so no property of the object the form is opened on is
    null or undefined. *)
Theorem C10_draft_fields (env : Env) (url pasted : jsstring) (d : job)
        (log : list request) :
  extract env url pasted [] = (inl (inl d), log) ->
  exists t log0 r result c extractedData,
    source_text env url pasted [] = (inl (inl t), log0)
    /\ fetch env (extraction_request (truncate t)) = Responded r
    /\ json r = Some result
    /\ get result (js "candidates") = Some c
    /\ JSON_parse env (candidate_text c) = Some extractedData
    /\ is_nullish extractedData = false
    /\ Forall2 (fun field v =>
                  is_nullish field = false
                  /\ (truthy v = false -> field = JStr [])
                  /\ (truthy v = true -> field = v)
                  /\ (is_string v = true -> is_string field = true))
               (extracted_fields d) (payload_fields extractedData)
    /\ extracted_fields d = List.map or_empty (payload_fields extractedData)
    /\ Forall (fun f => is_nullish f = false) (extracted_fields d)
    /\ Forall (fun p => Listing.nullish (snd p) = false) (Form.job_object d).
Proof.
  intros X.
  destruct (extract_draft_inv env _ _ X)
    as (t & log0 & r & result & c & data & S & _ & F & _ & J & C & _ & P & N & D).
  exists t, log0, r, result, c, data.
  do 6 (split; [assumption|]). subst d.
  assert (O : forall v,
             is_nullish (or_empty v) = false
             /\ (truthy v = false -> or_empty v = JStr [])
             /\ (truthy v = true -> or_empty v = v)
             /\ (is_string v = true -> is_string (or_empty v) = true))
    by auto using or_empty_not_nullish, or_empty_falsy, or_empty_truthy,
                  or_empty_string.
  split; [|split; [|split]].
  - unfold extracted_fields, payload_fields, mapToDraft. cbn.
    repeat constructor; apply O.
  - reflexivity.
  - repeat constructor; apply or_empty_not_nullish.
  - unfold Form.job_object, mapToDraft. cbn.
    repeat constructor; cbn; apply or_empty_not_nullish.
Qed.

Lemma C10_witness :
  exists d,
    extracted_fields d
    = [JStr (js "Acme Corp"); JStr (js "Senior Engineer");
       JStr (js "Remote"); JStr (js "Build distributed systems.")]
    /\ Forall (fun p => Listing.nullish (snd p) = false) (Form.job_object d).
Proof.
  assert (X : extract Demo.quiet [] scenarioA_text []
              = (inl (inl (mapToDraft scenarioA_fields []
                                      (iso_date (now Demo.quiet)))),
                 [extraction_request scenarioA_text])) by reflexivity.
  destruct (C10_draft_fields Demo.quiet [] scenarioA_text X)
    as (t & log0 & r & result & c & data & _ & _ & _ & _ & _ & _ & _ & _ & _ & F).
  eexists. split; [|exact F]. reflexivity.
Defined.

(* ================================================================== *)
(** * Content selection *)

Lemma find_app {A} (f : A -> bool) (a b : list A) :
  find f (a ++ b)
  = match find f a with Some x => Some x | None => find f b end.
Proof.
  induction a as [|x a IH]; [reflexivity|].
  cbn [app find]. now destruct (f x).
Qed.

Lemma find_same {A} (f g : A -> bool) (l : list A) :
  (forall x, f x = g x) -> find f l = find g l.
Proof.
  intros E. induction l as [|x l IH]; [reflexivity|].
  cbn [find]. now rewrite E, IH.
Qed.

Section Queries.
Variable matches : element -> jsstring -> bool.
Variable sel : jsstring.

Lemma first_in_find : forall n,
  first_in matches sel n = find (hit matches sel) (elements_in n).
Proof.
  fix IH 1. intros [data|e kids]; [reflexivity|].
  cbn [first_in elements_in find hit].
  destruct (matches e sel); [reflexivity|].
  induction kids as [|k rest IHk]; [reflexivity|].
  cbn [flat_map]. rewrite find_app, <- IH.
  destruct (first_in matches sel k); [reflexivity|exact IHk].
Qed.

(** [querySelector] gives the first element, in tree order, that
    matches. *)
Lemma querySelector_find d :
  querySelector matches sel d = find (hit matches sel) (elements d).
Proof.
  induction d as [|n rest IH]; [reflexivity|].
  unfold elements. cbn [querySelector flat_map].
  rewrite find_app, <- first_in_find.
  destruct (first_in matches sel n); [reflexivity|exact IH].
Qed.
End Queries.

(** The landmark selector of the program is the text of the list of
    landmarks. *)
Lemma landmark_selector_text : landmark_selector = selector_text landmarks.
Proof. reflexivity. Qed.

(** C8.  Content selection.  The landmark selector is the selector list
    [main, article, .main-content, #main, [role="main"],
    .job-description, #job-details]: in a browser that reads it as CSS
    does, the landmark is the first element of the page, in tree order,
    that is a [main] or an [article] element, has the class
    main-content or job-description, the id main or job-details, or the
    role main.  On a page with a body, the text selected is that of the
    landmark, provided that text, once trimmed, has at least 50
    characters.  It is the text of the whole body when there is no
    landmark, when the landmark has no text ([undefined] or empty), and
    when its text has fewer than 50 characters, before or after
    trimming. *)
Theorem C8_content_selection (env : Env) (docHtml : document) (b : node)
        (bodyText : jsstring) :
  body docHtml = Some b ->
  innerText env b = Some bodyText ->
  let landmark := querySelector (matches env) landmark_selector docHtml in
  (forall log,
      select_text env docHtml log = (selectPrimaryContent env docHtml, log))
  /\ (landmark = None ->
      selectPrimaryContent env docHtml = inl (Some bodyText))
  /\ (forall el, landmark = Some el -> innerText env el = None ->
      selectPrimaryContent env docHtml = inl (Some bodyText))
  /\ (forall el t, landmark = Some el -> innerText env el = Some t ->
      t = [] \/ (len t < 50)%Z \/ (len (trim t) < 50)%Z ->
      selectPrimaryContent env docHtml = inl (Some bodyText))
  /\ (forall el t, landmark = Some el -> innerText env el = Some t ->
      (50 <= len (trim t))%Z ->
      selectPrimaryContent env docHtml = inl (Some t))
  /\ landmark_selector = selector_text landmarks
  /\ (forall same,
        (forall e, matches env e (selector_text landmarks)
                   = selects same landmarks e) ->
        landmark = find (is_landmark same) (elements docHtml))
  /\ (forall same e kids,
        is_landmark same (Element e kids)
        = (has_type (js "main") e || has_type (js "article") e
           || has_class same (js "main-content") e
           || has_id same (js "main") e
           || has_attribute (js "role") (js "main") e
           || has_class same (js "job-description") e
           || has_id same (js "job-details") e)).
Proof.
  intros B I landmark.
  assert (BT : forall log, body_innerText env docHtml log
                           = (inl (Some bodyText), log)).
  { intros log. rewrite body_innerText_pure. now rewrite B, I. }
  split; [intros log; apply select_text_pure|].
  unfold selectPrimaryContent, select_text. run_monad. fold landmark.
  split; [|split; [|split; [|split; [|split; [|split]]]]].
  - intros ->. rewrite !BT.
    destruct (negb (nonempty bodyText) || (len (trim bodyText) <? 50)%Z);
      now rewrite ?BT.
  - intros el -> ->. now rewrite BT.
  - intros el t -> -> H.
    assert (C : negb (nonempty t) || (len (trim t) <? 50)%Z = true).
    { apply orb_true_iff. destruct H as [->|[H|H]].
      - now left.
      - right. apply Z.ltb_lt. pose proof (len_trim_le t). lia.
      - right. now apply Z.ltb_lt. }
    now rewrite C, BT.
  - intros el t -> -> H.
    assert (C : negb (nonempty t) || (len (trim t) <? 50)%Z = false).
    { apply orb_false_iff. split.
      - destruct t; [|reflexivity]. simpl in H. vm_compute in H. now elim H.
      - apply Z.ltb_ge. exact H. }
    now rewrite C.
  - exact landmark_selector_text.
  - intros same M. subst landmark.
    rewrite querySelector_find, landmark_selector_text.
    apply find_same. intros [data|e kids]; [reflexivity|]. apply M.
  - intros same e kids. unfold is_landmark, selects, landmarks.
    cbn [existsb forallb matches_simple].
    now rewrite !andb_true_r, orb_false_r, !orb_assoc.
Qed.

Lemma C8_witness :
  selectPrimaryContent (Demo.styled (fun _ => [])) Demo.described
  = inl (Some (js "Senior Engineer at Acme Corp, Remote. Build distributed systems."))
  /\ selectPrimaryContent Demo.online Demo.teaser
     = inl (Some (js " Apply now Senior Engineer at Acme Corp, Remote. Build distributed systems."))
  /\ selectPrimaryContent (Demo.styled (fun _ => [])) Demo.shouted
     = inl (Some (js "Jobs at Acme CorpSenior Engineer at Acme Corp, Remote. Build distributed systems.Contact us")).
Proof.
  destruct (@C8_content_selection (Demo.styled (fun _ => [])) Demo.described
              (Demo.tag "body"
                 [ Demo.tag "div" [Text (js "Jobs at Acme Corp")];
                   Demo.tag_with "div"
                     [("class"%string, "card job-description"%string)]
                     [Text (js "Senior Engineer at Acme Corp, Remote. ");
                      Text (js "Build distributed systems.")];
                   Demo.tag "div" [Text (js "Contact us")] ])
              _ eq_refl eq_refl) as [_ [_ [_ [_ [A [_ [LA _]]]]]]].
  destruct (@C8_content_selection Demo.online Demo.teaser
              (Demo.tag "body"
                 [ Demo.tag "article" [Text (js " Apply now ")];
                   Demo.tag "div"
                     [Text (js "Senior Engineer at Acme Corp, Remote. ");
                      Text (js "Build distributed systems.")] ])
              _ eq_refl eq_refl) as [_ [_ [_ [B _]]]].
  destruct (@C8_content_selection (Demo.styled (fun _ => [])) Demo.shouted
              (Demo.tag "body"
                 [ Demo.tag "div" [Text (js "Jobs at Acme Corp")];
                   Demo.tag_with "div"
                     [("class"%string, "card Job-Description"%string)]
                     [Text (js "Senior Engineer at Acme Corp, Remote. ");
                      Text (js "Build distributed systems.")];
                   Demo.tag "div" [Text (js "Contact us")] ])
              _ eq_refl eq_refl) as [_ [C [_ [_ [_ [_ [LC _]]]]]]].
  split; [|split].
  - refine (A _ _ (eq_trans (LA JsString.eqb (fun e => eq_refl)) eq_refl)
              eq_refl _).
    vm_compute. discriminate.
  - apply (B _ _ eq_refl eq_refl). right. left. reflexivity.
  - apply C. exact (eq_trans (LC JsString.eqb (fun e => eq_refl)) eq_refl).
Defined.

(* ================================================================== *)
(** * What a run leaves behind *)

(** X3.  What a run leaves behind.  When the handler is done, the
    spinner is off, and the state is one of two: either a draft was
    made, the form is open on it, the dialog is closed, no message is
    shown and both input fields are cleared; or a message is shown, and
    the job, the form, the dialog and both input fields are as they
    were before the run. *)
Theorem X3_final_state (env : Env) (st : state) :
  let st' := fst (handleExtractDetails env st) in
  isExtracting st' = false
  /\ ((exists d,
          extract env (jobPostUrl st) (jobDescriptionText st) []
          = (inl (inl d), snd (handleExtractDetails env st))
          /\ currentJob st' = Draft d
          /\ showForm st' = true
          /\ showExtractionModal st' = false
          /\ jobDescriptionText st' = []
          /\ jobPostUrl st' = []
          /\ extractionError st' = NoMessage)
      \/ (exists m,
             m <> NoMessage
             /\ extractionError st' = m
             /\ currentJob st' = currentJob st
             /\ showForm st' = showForm st
             /\ showExtractionModal st' = showExtractionModal st
             /\ jobDescriptionText st' = jobDescriptionText st
             /\ jobPostUrl st' = jobPostUrl st)).
Proof.
  intros st'. subst st'.
  destruct (extract_never_throws env (jobPostUrl st) (jobDescriptionText st))
    as [[d|m] [log X]].
  - rewrite (handler_reviewing env st X). cbn.
    split; [reflexivity|]. left. exists d. now repeat split.
  - rewrite (handler_failed env st X). cbn.
    split; [reflexivity|]. right. exists m.
    split; [exact (extract_message env _ _ X)|]. now repeat split.
Qed.
